(** * markdown-converter: a shallow embedding of the conversion core

    The development follows the TypeScript sources:
    - [lib/security.ts]: [sanitizeFilename], [detectMaliciousContent],
      the [RateLimiter] class;
    - [lib/markdown-parser.ts]: the [MarkdownParser] class ([parse],
      [toJSON], [tokenToJSON], [toPlainText], [tokenToPlainText],
      [sanitizeUrl], [escapeHtml] and the renderer overrides);
    - [lib/converters.ts]: the [FileConverter] class;
    - [components/ConversionPanel.tsx]: the [handleConvert] gate.

    JavaScript strings are sequences of UTF-16 code units; they are
    modelled as [list N].  Regular expressions are kept as data and run by
    a small backtracking matcher, so that every pattern of the source can
    be read off its embedding.  Exceptions are an error monad; the clock
    and the presence of [window] are read from an environment.

    The source calls the marked and DOMPurify libraries and the URL parser
    of the platform.  They are the fields of a [Platform], over which the
    embedding of the source is parameterised; the configuration that the
    marked library keeps for all its callers is threaded as a state.  A
    reference platform, modelled from the specification and, where it is
    silent, from the behaviour of these libraries, runs the source on
    concrete documents. *)

From Stdlib Require Import List ZArith NArith Bool String Ascii Lia.
Import ListNotations.

Set Implicit Arguments.
Set Warnings "-register-all".


(* ===================================================================== *)
(** ** JavaScript strings                                                 *)
(* ===================================================================== *)

Module JS.
Local Open Scope N_scope.

(** A string is the list of its UTF-16 code units. *)
Definition str := list N.

(** ASCII literals. *)
Definition lit (s : string) : str :=
  List.map N_of_ascii (list_ascii_of_string s).

Definition chr (a : ascii) : N := N_of_ascii a.

(** The double quote, and a double-quoted ASCII literal. *)
Definition dq : str := [34].
Definition quoted (s : string) : str := dq ++ lit s ++ dq.

Fixpoint eqb (a b : str) : bool :=
  match a, b with
  | [], [] => true
  | x :: a', y :: b' => N.eqb x y && eqb a' b'
  | _, _ => false
  end.

(** [s.startsWith(p)] *)
Fixpoint startsWith (p s : str) : bool :=
  match p, s with
  | [], _ => true
  | x :: p', y :: s' => N.eqb x y && startsWith p' s'
  | _ :: _, [] => false
  end.

(** [s.includes(p)] *)
Fixpoint includes (p s : str) : bool :=
  startsWith p s ||
  match s with
  | [] => false
  | _ :: s' => includes p s'
  end.

(** [parts.join(sep)] *)
Fixpoint join (sep : str) (parts : list str) : str :=
  match parts with
  | [] => []
  | [p] => p
  | p :: rest => p ++ sep ++ join sep rest
  end.

(** [s.repeat(n)] *)
Fixpoint repeat (s : str) (n : nat) : str :=
  match n with
  | O => []
  | S k => s ++ repeat s k
  end.

(** [s.substring(0, n)] *)
Definition substring0 (n : nat) (s : str) : str := firstn n s.

(** Decimal rendering of a non-negative integer, as [String(n)] or a
    template literal gives it. *)
Definition digit (d : N) : N := 48 + d.

Fixpoint decimal_fuel (fuel : nat) (n : N) (acc : str) : str :=
  match fuel with
  | O => acc
  | S k =>
      let acc' := digit (N.modulo n 10) :: acc in
      if N.ltb n 10 then acc' else decimal_fuel k (N.div n 10) acc'
  end.

Definition decimal (n : N) : str := decimal_fuel (S (N.to_nat (N.log2 n))) n [].

Definition ofNat (n : nat) : str := decimal (N.of_nat n).

Definition ofZ (z : Z) : str :=
  match z with
  | Z0 => decimal 0
  | Zpos p => decimal (Npos p)
  | Zneg p => 45 :: decimal (Npos p)
  end.

Definition isEmpty (s : str) : bool :=
  match s with [] => true | _ :: _ => false end.

(** [a || d] on an optional string: [undefined] and the empty string are
    falsy. *)
Definition orElse (a : option str) (d : str) : str :=
  match a with
  | Some (x :: r) => x :: r
  | _ => d
  end.

(** ASCII classes used by the patterns of the source. *)
Definition isUpper (c : N) : bool := N.leb 65 c && N.leb c 90.
Definition isLower (c : N) : bool := N.leb 97 c && N.leb c 122.
Definition isDigit (c : N) : bool := N.leb 48 c && N.leb c 57.
Definition isAlpha (c : N) : bool := isUpper c || isLower c.

(** Lower-casing of an ASCII letter; other code units are left alone.
    Without the [u] flag, [/i] never identifies a non-ASCII code unit
    with an ASCII one, so this is the whole of case folding for the
    ASCII patterns of the source. *)
Definition asciiLower (c : N) : N := if isUpper c then c + 32 else c.

(** [\s]: WhiteSpace and LineTerminator code units. *)
Definition isSpace (c : N) : bool :=
  existsb (N.eqb c)
    [9; 10; 11; 12; 13; 32; 160; 5760; 8232; 8233; 8239; 8287; 12288; 65279]
  || (N.leb 8192 c && N.leb c 8202).

(** LineTerminator code units, for [^] and [$] under the [m] flag. *)
Definition isLineTerminator (c : N) : bool :=
  existsb (N.eqb c) [10; 13; 8232; 8233].

Fixpoint takeWhile (p : N -> bool) (l : str) : str :=
match l with
| x :: l' => if p x then x :: takeWhile p l' else []
| [] => []
end.

Fixpoint dropWhile (p : N -> bool) (l : str) : str :=
match l with
| x :: l' => if p x then dropWhile p l' else l
| [] => []
end.

(** [s] without its first code unit when that is [c]. *)
Definition skipChar (c : N) (s : str) : str :=
  match s with
  | x :: r => if N.eqb x c then r else s
  | [] => s
  end.

(** Whether [s] starts with the code unit [c]. *)
Definition headIs (c : N) (s : str) : bool :=
  match s with
  | x :: _ => N.eqb x c
  | [] => false
  end.

(** [s.trim()] *)
Fixpoint trimStart (s : str) : str :=
  match s with
  | x :: s' => if isSpace x then trimStart s' else s
  | [] => []
  end.

Definition trim (s : str) : str := rev (trimStart (rev (trimStart s))).

(** [s.split('\n')] for a one-unit separator. *)
Fixpoint split (sep : N) (s : str) : list str :=
  match s with
  | [] => [[]]
  | x :: s' =>
      if N.eqb x sep then [] :: split sep s'
      else match split sep s' with
           | l :: ls => (x :: l) :: ls
           | [] => [[x]]
           end
  end.

End JS.

Abbreviation str := JS.str.
Abbreviation lit := JS.lit.

(* ===================================================================== *)
(** ** Regular expressions                                                *)
(* ===================================================================== *)

(** The patterns of the source are alternations of sequences of anchors
  and quantified character classes; the matcher below is the
  backtracking matcher of ECMAScript restricted to that shape. *)

Module RegExp.

Inductive quant := One | Star | Plus.

Inductive atom :=
| Bol                                  (* ^ *)
| Eol                                  (* $ *)
| Cls (c : N -> bool) (q : quant).     (* a class, a class*, a class+ *)

Definition branch := list atom.

Record t := mk { alts : list branch; multiline : bool }.

Definition atBol (ml : bool) (prev : option N) : bool :=
  match prev with
  | None => true
  | Some c => ml && JS.isLineTerminator c
  end.

Definition atEol (ml : bool) (s : str) : bool :=
  match s with
  | [] => true
  | c :: _ => ml && JS.isLineTerminator c
  end.

(** Greedy repetition of a class, then the continuation [k]; on failure
    of the continuation one repetition is given back. *)
Fixpoint greedy (c : N -> bool) (k : option N -> str -> option nat)
         (prev : option N) (s : str) : option nat :=
  match s with
  | x :: s' =>
      if c x then
        match greedy c k (Some x) s' with
        | Some n => Some (S n)
        | None => k prev s
        end
      else k prev s
  | [] => k prev s
  end.

(** [matchHere ml r prev s]: the length of the match of [r] at the
    start of [s], where [prev] is the code unit before it. *)
Fixpoint matchHere (ml : bool) (r : branch) (prev : option N) (s : str)
  {struct r} : option nat :=
  match r with
  | [] => Some O
  | Bol :: r' => if atBol ml prev then matchHere ml r' prev s else None
  | Eol :: r' => if atEol ml s then matchHere ml r' prev s else None
  | Cls c One :: r' =>
      match s with
      | x :: s' =>
          if c x then option_map S (matchHere ml r' (Some x) s') else None
      | [] => None
      end
  | Cls c Star :: r' => greedy c (matchHere ml r') prev s
  | Cls c Plus :: r' =>
      match s with
      | x :: s' =>
          if c x then option_map S (greedy c (matchHere ml r') (Some x) s')
          else None
      | [] => None
      end
  end.

Fixpoint matchAlts (ml : bool) (bs : list branch) (prev : option N) (s : str)
  : option nat :=
  match bs with
  | [] => None
  | b :: bs' =>
      match matchHere ml b prev s with
      | Some n => Some n
      | None => matchAlts ml bs' prev s
      end
  end.

Definition matchAt (re : t) := matchAlts (multiline re) (alts re).

(** Leftmost match: index and length. *)
Fixpoint search (re : t) (prev : option N) (s : str) : option (nat * nat) :=
  match matchAt re prev s with
  | Some n => Some (O, n)
  | None =>
      match s with
      | [] => None
      | x :: s' =>
          match search re (Some x) s' with
          | Some (i, n) => Some (S i, n)
          | None => None
          end
      end
  end.

(** [re.test(s)] for a pattern without the [g] flag. *)
Definition test (re : t) (s : str) : bool :=
  match search re None s with Some _ => true | None => false end.

(** [s.replace(re, rep)] for a pattern without the [g] flag. *)
Definition replace (re : t) (rep : str) (s : str) : str :=
  match search re None s with
  | Some (i, n) => firstn i s ++ rep ++ skipn (i + n) s
  | None => s
  end.

(** [s.replace(re, rep)] for a pattern with the [g] flag: [skip] counts
    the code units of the current match still to be dropped; an empty
    match is followed by one copied code unit. *)
Fixpoint replaceAllFrom (re : t) (rep : str) (prev : option N) (s : str)
         (skip : nat) : str :=
  match skip with
  | S k =>
      match s with
      | x :: s' => replaceAllFrom re rep (Some x) s' k
      | [] => []
      end
  | O =>
      match matchAt re prev s with
      | Some (S k) =>
          rep ++ match s with
                 | x :: s' => replaceAllFrom re rep (Some x) s' k
                 | [] => []
                 end
      | Some O =>
          rep ++ match s with
                 | x :: s' => x :: replaceAllFrom re rep (Some x) s' O
                 | [] => []
                 end
      | None =>
          match s with
          | x :: s' => x :: replaceAllFrom re rep (Some x) s' O
          | [] => []
          end
      end
  end.

Definition replaceAll (re : t) (rep : str) (s : str) : str :=
  replaceAllFrom re rep None s O.

(** Building blocks for patterns. *)
Definition one (c : N -> bool) : atom := Cls c One.
Definition isChr (a : ascii) : N -> bool := N.eqb (JS.chr a).
Definition isNot (cs : list ascii) : N -> bool :=
  fun c => negb (existsb (fun a => N.eqb (JS.chr a) c) cs).

(** A literal word. *)
Definition word (s : string) : branch :=
  List.map (fun a => one (isChr a)) (list_ascii_of_string s).

(** A literal word under the [i] flag. *)
Definition iword (s : string) : branch :=
  List.map (fun a => one (fun c => N.eqb (JS.asciiLower c) (JS.asciiLower (JS.chr a))))
           (list_ascii_of_string s).

Definition re1 (b : branch) : t := mk [b] false.

End RegExp.

(* ===================================================================== *)
(** ** lib/security.ts                                                    *)
(* ===================================================================== *)

Module Security.
Import RegExp.

(** [[a-zA-Z0-9._-]] *)
Definition safeChar (c : N) : bool :=
  JS.isLower c || JS.isUpper c || JS.isDigit c
  || N.eqb c 46%N || N.eqb c 95%N || N.eqb c 45%N.

(** [/[^a-zA-Z0-9._-]/g] *)
Definition reUnsafe : RegExp.t := re1 [one (fun c => negb (safeChar c))].
(** [/^\.+/] *)
Definition reLeadingDots : RegExp.t := re1 [Bol; Cls (isChr ".") Plus].
(** [/\.+$/] *)
Definition reTrailingDots : RegExp.t := re1 [Cls (isChr ".") Plus; Eol].

Definition sanitizeFilename (filename : str) : str :=
  JS.substring0 255
    (replace reTrailingDots []
       (replace reLeadingDots []
          (replaceAll reUnsafe (lit "_") filename))).

(** The nine signatures of [detectMaliciousContent], in source order. *)
Definition suspiciousPatterns : list RegExp.t :=
  [ re1 (iword "<script" ++ [Cls (isNot [">"%char]) Star] ++ iword ">");
    re1 (iword "javascript:");
    re1 (iword "data:text/html");
    re1 (iword "vbscript:");
    re1 (iword "onload" ++ [Cls JS.isSpace Star] ++ iword "=");
    re1 (iword "onerror" ++ [Cls JS.isSpace Star] ++ iword "=");
    re1 (iword "onclick" ++ [Cls JS.isSpace Star] ++ iword "=");
    re1 (iword "eval" ++ [Cls JS.isSpace Star] ++ iword "(");
    re1 (iword "document.write") ].

Definition detectMaliciousContent (content : str) : bool :=
  existsb (fun pattern => test pattern content) suspiciousPatterns.

(** *** class RateLimiter *)

Record RateLimiter := mkRL {
  requests : list Z;
  maxRequests : Z;
  windowMs : Z
}.

(** [constructor(maxRequests = 10, windowMs = 60000)] *)
Definition newRateLimiter (maxRequests windowMs : option Z) : RateLimiter :=
  mkRL []
       (match maxRequests with Some m => m | None => 10%Z end)
       (match windowMs with Some w => w | None => 60000%Z end).

Definition prune (now : Z) (rl : RateLimiter) : list Z :=
  filter (fun time => (now - time <? windowMs rl)%Z) (requests rl).

(** [canMakeRequest()], with the value of [Date.now()] as [now]. *)
Definition canMakeRequest (now : Z) (rl : RateLimiter) : bool * RateLimiter :=
  let kept := prune now rl in
  if (Z.of_nat (List.length kept) >=? maxRequests rl)%Z
  then (false, mkRL kept (maxRequests rl) (windowMs rl))
  else (true, mkRL (kept ++ [now]) (maxRequests rl) (windowMs rl)).

(** [getRemainingRequests()] *)
Definition getRemainingRequests (now : Z) (rl : RateLimiter) : Z * RateLimiter :=
  let kept := prune now rl in
  (Z.max 0 (maxRequests rl - Z.of_nat (List.length kept)),
   mkRL kept (maxRequests rl) (windowMs rl)).

(** The global [rateLimiter] singleton. *)
Definition rateLimiter : RateLimiter := newRateLimiter None None.

End Security.


(* ===================================================================== *)
(** ** Exceptions                                                         *)
(* ===================================================================== *)

Module Exn.

(** A thrown value: an [Error] object with its message, or anything
    else. *)
Inductive thrown :=
| ErrorObj (message : str)
| NonError.

Inductive result (A : Type) :=
| Ok (a : A)
| Throw (e : thrown).

Arguments Ok {A} a.
Arguments Throw {A} e.

Definition bind {A B} (m : result A) (k : A -> result B) : result B :=
  match m with
  | Ok a => k a
  | Throw e => Throw e
  end.

(** [try { body } catch (e) { handler(e) }] *)
Definition tryCatch {A} (body : result A) (handler : thrown -> A) : A :=
  match body with
  | Ok a => a
  | Throw e => handler e
  end.

End Exn.

Import Exn.

Notation "x <- m ;; k" := (Exn.bind m (fun x => k))
(at level 61, m at next level, right associativity).

(* ===================================================================== *)
(** ** JSON values and [JSON.stringify]                                   *)
(* ===================================================================== *)

Module JSON.
Local Open Scope N_scope.

Inductive value :=
| JNull
| JBool (b : bool)
| JNum (n : Z)
| JStr (s : str)
| JArr (elems : list value)
| JObj (fields : list (string * value)).

Definition hexDigit (d : N) : N := if N.ltb d 10 then 48 + d else 87 + d.

(** [\uXXXX], lower-case hexadecimal. *)
Definition uEscape (c : N) : str :=
  [92; 117; hexDigit (N.modulo (N.div c 4096) 16);
   hexDigit (N.modulo (N.div c 256) 16);
   hexDigit (N.modulo (N.div c 16) 16); hexDigit (N.modulo c 16)].

Definition isHigh (c : N) : bool := N.leb 55296 c && N.leb c 56319.
Definition isLow (c : N) : bool := N.leb 56320 c && N.leb c 57343.

(** QuoteJSONString, without the surrounding quotes. *)
Fixpoint quoteBody (s : str) : str :=
  match s with
  | [] => []
  | c :: s' =>
      if N.eqb c 8 then lit "\b" ++ quoteBody s'
      else if N.eqb c 9 then lit "\t" ++ quoteBody s'
      else if N.eqb c 10 then lit "\n" ++ quoteBody s'
      else if N.eqb c 12 then lit "\f" ++ quoteBody s'
      else if N.eqb c 13 then lit "\r" ++ quoteBody s'
      else if N.eqb c 34 then 92 :: 34 :: quoteBody s'
      else if N.eqb c 92 then 92 :: 92 :: quoteBody s'
      else if N.ltb c 32 then uEscape c ++ quoteBody s'
      else if isHigh c then
        match s' with
        | d :: s'' =>
            if isLow d then c :: d :: quoteBody s''
            else uEscape c ++ quoteBody s'
        | [] => uEscape c
        end
      else if isLow c then uEscape c ++ quoteBody s'
      else c :: quoteBody s'
  end.

Definition quote (s : str) : str := JS.dq ++ quoteBody s ++ JS.dq.

(** SerializeJSONProperty with indentation step [gap] and current
    indentation [ind]; [gap = []] is the compact form. *)
Fixpoint serialize (gap ind : str) (v : value) {struct v} : str :=
  let wrap (opening closing : str) (parts : list str) : str :=
    match parts with
    | [] => opening ++ closing
    | _ :: _ =>
        if JS.isEmpty gap
        then opening ++ JS.join (lit ",") parts ++ closing
        else opening ++ [10] ++ (ind ++ gap)
             ++ JS.join (lit "," ++ [10] ++ (ind ++ gap)) parts
             ++ [10] ++ ind ++ closing
    end in
  match v with
  | JNull => lit "null"
  | JBool true => lit "true"
  | JBool false => lit "false"
  | JNum n => JS.ofZ n
  | JStr s => quote s
  | JArr elems =>
      wrap (lit "[") (lit "]") (List.map (serialize gap (ind ++ gap)) elems)
  | JObj fields =>
      wrap (lit "{") (lit "}")
        (List.map (fun kv =>
                     quote (lit (fst kv))
                     ++ (if JS.isEmpty gap then lit ":" else lit ": ")
                     ++ serialize gap (ind ++ gap) (snd kv)) fields)
  end.

(** [JSON.stringify(v)] and [JSON.stringify(v, null, 2)]. *)
Definition stringify (v : value) : str := serialize [] [] v.
Definition stringify2 (v : value) : str := serialize (lit "  ") [] v.

(** Property access [v.k] and element access [v[i]]. *)
Fixpoint assoc (k : string) (fields : list (string * value)) : option value :=
  match fields with
  | [] => None
  | (k', v) :: rest => if String.eqb k k' then Some v else assoc k rest
  end.

Definition get (k : string) (v : value) : option value :=
  match v with
  | JObj fields => assoc k fields
  | _ => None
  end.

Definition elements (v : value) : option (list value) :=
  match v with
  | JArr l => Some l
  | _ => None
  end.

End JSON.

Import JSON.

(* ===================================================================== *)
(** ** The libraries and the platform, as the source sees them            *)
(* ===================================================================== *)

(** *** marked: the block tokens read by the source *)

Module Marked.

Record ListItem := mkItem { item_raw : str; item_text : str }.

(** The block token types without a case of their own in the source. *)
Inductive kind := KSpace | KHtml | KTable | KText | KDef.

Inductive Token :=
| Heading (raw : str) (depth : nat) (text : str)
| Paragraph (raw text : str)
| TList (raw : str) (ordered : bool) (items : list ListItem)
| Code (raw : str) (lang : option str) (text : str)
| Blockquote (raw text : str)
| Hr (raw : str)
| Other (k : kind) (raw : str).

Definition kindName (k : kind) : string :=
  match k with
  | KSpace => "space"
  | KHtml => "html"
  | KTable => "table"
  | KText => "text"
  | KDef => "def"
  end.

(** [token.type] *)
Definition type (t : Token) : string :=
  match t with
  | Heading _ _ _ => "heading"
  | Paragraph _ _ => "paragraph"
  | TList _ _ _ => "list"
  | Code _ _ _ => "code"
  | Blockquote _ _ => "blockquote"
  | Hr _ => "hr"
  | Other k _ => kindName k
  end.

(** [token.raw] *)
Definition raw (t : Token) : str :=
  match t with
  | Heading r _ _ | Paragraph r _ | TList r _ _ | Code r _ _
  | Blockquote r _ | Hr r | Other _ r => r
  end.

(** The options given to [marked.setOptions]. *)
Record Options := mkOptions { m_breaks : bool; m_gfm : bool; m_sanitize : bool }.

(** The renderer methods given to [marked.use]; [None] for a method
    that is not given. *)
Record Renderer := mkRenderer {
  r_link : option (str -> option str -> str -> str);
  r_image : option (str -> option str -> str -> str);
  r_html : option (str -> str)
}.

(** The configuration that the library keeps, one for all its callers. *)
Record State := mkState { s_options : Options; s_renderer : Renderer }.

(** Modelled from the spec: the configuration calls of the library
    ([marked.setOptions] and [marked.use], whose code is not in the
    repository).  Section 9 names the pattern, renderer overrides
    configured as mutable object state: the library starts without
    overrides ([breaks] off, [gfm] on); the options given replace the
    current ones; the renderer methods given are installed, the methods
    not given stay as they are. *)
Definition initial : State :=
  mkState (mkOptions false true false) (mkRenderer None None None).

Definition setOptions (o : Options) (st : State) : State :=
  mkState o (s_renderer st).

Definition orKeep {A} (given current : option A) : option A :=
  match given with
  | Some x => Some x
  | None => current
  end.

Definition use (R : Renderer) (st : State) : State :=
  mkState (s_options st)
          (mkRenderer (orKeep (r_link R) (r_link (s_renderer st)))
                      (orKeep (r_image R) (r_image (s_renderer st)))
                      (orKeep (r_html R) (r_html (s_renderer st)))).

End Marked.

(** *** DOMPurify: the configuration object *)

Module DOMPurify.

Record Config := mkConfig {
  ALLOWED_TAGS : list string;
  ALLOWED_ATTR : list string;
  FORBID_SCRIPTS : bool;
  FORBID_TAGS : list string;
  FORBID_ATTR : list string
}.

End DOMPurify.

(** *** The platform *)

(** What [new URL(url)] exposes to the source. *)
Record URL := mkURL { protocol : str }.

(** The functions of the libraries and of the platform that the source
    calls; each may throw. *)
Record Platform := mkPlatform {
  (** [marked.lexer(src)] under the options of the library *)
  marked_lexer : Marked.Options -> str -> result (list Marked.Token);
  (** [marked.parser(tokens)] under the configuration of the library *)
  marked_parser : Marked.State -> list Marked.Token -> result str;
  (** [DOMPurify.sanitize(html, config)] *)
  purify : DOMPurify.Config -> str -> result str;
  (** [new URL(url)] *)
  newURL : str -> result URL
}.

(** What a call observes of its environment: whether [window] is defined,
    and the clock ([Date.now()], [new Date().toISOString()],
    [new Date().toLocaleString()]). *)
Record Env := mkEnv {
  hasWindow : bool;
  dateNow : Z;
  isoString : str;
  localeString : str
}.

(* ===================================================================== *)
(** ** lib/markdown-parser.ts                                             *)
(* ===================================================================== *)

Module MarkdownParser.
Import Marked.

Record ParsedMarkdown := mkParsed {
  html : str;
  tokens : list Token;
  plainText : str
}.

Record MarkdownParserOptions := mkParserOptions {
  o_sanitize : option bool;
  o_allowHtml : option bool;
  o_breaks : option bool;
  o_gfm : option bool
}.

Record Options := mkOptions {
  sanitize : bool;
  allowHtml : bool;
  breaks : bool;
  gfm : bool
}.

Definition DEFAULT_OPTIONS : Options := mkOptions true false true true.

Definition noOptions : MarkdownParserOptions := mkParserOptions None None None None.

Definition override (d : bool) (o : option bool) : bool :=
  match o with Some b => b | None => d end.

(** [{ ...DEFAULT_OPTIONS, ...options }] *)
Definition mergeOptions (o : MarkdownParserOptions) : Options :=
  mkOptions (override (sanitize DEFAULT_OPTIONS) (o_sanitize o))
            (override (allowHtml DEFAULT_OPTIONS) (o_allowHtml o))
            (override (breaks DEFAULT_OPTIONS) (o_breaks o))
            (override (gfm DEFAULT_OPTIONS) (o_gfm o)).

(** An instance of the class: its own copy of the options.  The options
    and overrides that [configureMarked] installs are kept by the library,
    not by the instance. *)
Record t := mk { options : Options }.

(** [escapeHtml] *)
Definition escapeChar (c : N) : str :=
  if N.eqb c 38 then lit "&amp;"
  else if N.eqb c 60 then lit "&lt;"
  else if N.eqb c 62 then lit "&gt;"
  else if N.eqb c 34 then lit "&quot;"
  else if N.eqb c 39 then lit "&#39;"
  else [c].

Definition escapeHtml (text : str) : str := flat_map escapeChar text.

Definition safeProtocols : list str := [lit "http:"; lit "https:"; lit "mailto:"].

(** [Array.prototype.includes] on strings. *)
Definition includes (l : list str) (s : str) : bool := existsb (JS.eqb s) l.

Section WithPlatform.
Variable P : Platform.

(** [sanitizeUrl]: [Some url] stands for the [return url] inside the
    [try] block. *)
Definition sanitizeUrl (url : str) : str :=
  match tryCatch
          (parsed <- newURL P url ;;
           Ok (if includes safeProtocols (protocol parsed)
               then Some url else None))
          (fun _ => None)
  with
  | Some r => r
  | None => lit "#"
  end.

(** [title ? ` title="${this.escapeHtml(title)}"` : ''] *)
Definition titleAttr (title : option str) : str :=
  match title with
  | Some (c :: t) => lit " title=" ++ JS.dq ++ escapeHtml (c :: t) ++ JS.dq
  | _ => []
  end.

(** [renderer.link] *)
Definition rendererLink (href : str) (title : option str) (text : str) : str :=
  let sanitizedHref := sanitizeUrl href in
  lit "<a href=" ++ JS.dq ++ sanitizedHref ++ JS.dq
  ++ lit " target=" ++ JS.quoted "_blank"
  ++ lit " rel=" ++ JS.quoted "noopener noreferrer"
  ++ titleAttr title ++ lit ">" ++ text ++ lit "</a>".

(** [renderer.image] *)
Definition rendererImage (href : str) (title : option str) (text : str) : str :=
  let sanitizedHref := sanitizeUrl href in
  let altAttr := lit " alt=" ++ JS.dq ++ escapeHtml text ++ JS.dq in
  lit "<img src=" ++ JS.dq ++ sanitizedHref ++ JS.dq ++ altAttr
  ++ titleAttr title ++ lit " loading=" ++ JS.quoted "lazy" ++ lit ">".

(** [configureMarked]: the options for [marked.setOptions], the renderer
    for [marked.use], and the two calls on the library. *)
Definition markedOptions (o : Options) : Marked.Options :=
  Marked.mkOptions (breaks o) (gfm o) false.

Definition renderer (o : Options) : Renderer :=
  mkRenderer (Some rendererLink) (Some rendererImage)
             (if negb (allowHtml o) then Some (fun _ => []) else None).

Definition configureMarked (o : Options) (st : Marked.State) : Marked.State :=
  Marked.use (renderer o) (Marked.setOptions (markedOptions o) st).

(** [new MarkdownParser(options)]: the instance, and the library as the
    constructor leaves it. *)
Definition new (o : MarkdownParserOptions) (st : Marked.State) : t * Marked.State :=
  let this := mk (mergeOptions o) in
  (this, configureMarked (options this) st).

(** The configuration object passed to [DOMPurify.sanitize]. *)
Definition purifyConfig : DOMPurify.Config :=
  DOMPurify.mkConfig
    ["h1"; "h2"; "h3"; "h4"; "h5"; "h6";
     "p"; "br"; "strong"; "em"; "u"; "s";
     "ul"; "ol"; "li"; "blockquote";
     "code"; "pre"; "a"; "img";
     "table"; "thead"; "tbody"; "tr"; "td"; "th"]%string
    ["href"; "src"; "alt"; "title"; "target"; "rel"]%string
    true
    ["script"; "object"; "embed"; "form"; "input"]%string
    ["onclick"; "onload"; "onerror"; "onmouseover"; "style"]%string.

(** [items.map((item, index) => f(item, index))] *)
Fixpoint mapi_from {A B} (f : A -> nat -> B) (i : nat) (l : list A) : list B :=
  match l with
  | [] => []
  | x :: l' => f x i :: mapi_from f (S i) l'
  end.

Definition mapi {A B} (f : A -> nat -> B) (l : list A) : list B := mapi_from f O l.

(** The bullet literal of the source, code unit by code unit:
    U+00E2 U+20AC U+00A2. *)
Definition bulletLiteral : str := [226; 8364; 162]%N.

(** [tokenToPlainText] *)
Definition tokenToPlainText (token : Token) : str :=
  match token with
  | Heading _ depth text =>
      let prefix := JS.repeat (lit "#") depth in
      prefix ++ lit " " ++ text
  | Paragraph _ text => text
  | TList _ ordered items =>
      JS.join [10%N]
        (mapi (fun item index =>
                 let bullet := if ordered then JS.ofNat (index + 1) ++ lit "."
                               else bulletLiteral in
                 bullet ++ lit " " ++ item_text item)
              items)
  | Code _ lang text =>
      lit "```" ++ JS.orElse lang [] ++ [10%N] ++ text ++ [10%N] ++ lit "```"
  | Blockquote _ text => lit "> " ++ text
  | Hr _ => lit "---"
  | Other _ raw => JS.orElse (Some raw) []
  end.

(** [toPlainText] *)
Definition toPlainText (tokens : list Token) : str :=
  JS.join [10%N; 10%N] (List.map tokenToPlainText tokens).

(** [tokenToJSON] *)
Definition tokenToJSON (token : Token) : JSON.value :=
  let base := [("type", JStr (lit (type token)))]%string in
  match token with
  | Heading _ depth text =>
      JObj (base ++ [("level", JNum (Z.of_nat depth)); ("text", JStr text)]%string)
  | Paragraph _ text =>
      JObj (base ++ [("text", JStr text)]%string)
  | TList _ ordered items =>
      JObj (base ++ [("ordered", JBool ordered);
                     ("items",
                      JArr (List.map
                              (fun item =>
                                 JObj [("type", JStr (lit "list_item"));
                                       ("text", JStr (item_text item))])
                              items))]%string)
  | Code _ lang text =>
      JObj (base ++ [("language", JStr (JS.orElse lang (lit "text")));
                     ("code", JStr text)]%string)
  | Blockquote _ text =>
      JObj (base ++ [("text", JStr text)]%string)
  | Hr raw | Other _ raw =>
      JObj (base ++ [("raw", JStr raw)]%string)
  end.

(** [toJSON] *)
Definition toJSON (tokens : list Token) : JSON.value :=
  JObj [("type", JStr (lit "document"));
        ("children", JArr (List.map tokenToJSON tokens))]%string.

(** [parse], in the library configuration [st] of the time of the call *)
Definition parse (this : t) (st : Marked.State) (env : Env) (markdown : str)
  : result ParsedMarkdown :=
  let o := options this in
  tokens <- marked_lexer P (s_options st) markdown ;;
  html <- marked_parser P st tokens ;;
  html <- (if sanitize o && hasWindow env
           then purify P purifyConfig html
           else Ok html) ;;
  let plainText := toPlainText tokens in
  Ok (mkParsed html tokens plainText).

End WithPlatform.

End MarkdownParser.

(* ===================================================================== *)
(** ** lib/converters.ts                                                  *)
(* ===================================================================== *)

Module Converters.
Import RegExp.

Record ConversionResult := mkResult {
  content : str;
  filename : str;
  mimeType : str;
  success : bool;
  error : option str
}.

Record ConversionOptions := mkConvOptions {
  originalFilename : option str;
  prettify : option bool;
  includeMetadata : option bool
}.

(** [options = {}] *)
Definition noOptions : ConversionOptions := mkConvOptions None None None.

Definition truthy (o : option bool) : bool :=
  match o with Some b => b | None => false end.

(** The class: its only field is the parser built by the constructor. *)
Record FileConverter := mkConverter { parser : MarkdownParser.t }.

(** [/\.[^/.]+$/] *)
Definition reExtension : RegExp.t :=
  re1 [one (isChr "."); Cls (isNot ["/"; "."]%char) Plus; Eol].

(** [/></g] *)
Definition reAdjacentTags : RegExp.t := re1 (word "><").

(** [/^\s+|\s+$/gm] *)
Definition reLineBlanks : RegExp.t :=
  RegExp.mk [[Bol; Cls JS.isSpace Plus]; [Cls JS.isSpace Plus; Eol]] true.

Definition defaultName (env : Env) : str := lit "converted_" ++ JS.ofZ (dateNow env).

(** [getBaseFilename] *)
Definition getBaseFilename (env : Env) (originalFilename : option str) : str :=
  match originalFilename with
  | None | Some [] => defaultName env
  | Some name =>
      let nameWithoutExt := replace reExtension [] name in
      JS.orElse (Some (Security.sanitizeFilename nameWithoutExt)) (defaultName env)
  end.

(** [getHTMLStyles()] *)
Definition getHTMLStyles : str :=
  lit "
      body {
        font-family: -apple-system, BlinkMacSystemFont, 'Segoe UI', 'Roboto', 'Oxygen', 'Ubuntu', 'Cantarell', sans-serif;
        line-height: 1.6;
        color: #333;
        max-width: 800px;
        margin: 0 auto;
        padding: 2rem;
        background-color: #fff;
      }
      
      .markdown-content {
        font-size: 16px;
      }
      
      h1, h2, h3, h4, h5, h6 {
        margin-top: 2rem;
        margin-bottom: 1rem;
        font-weight: 600;
        line-height: 1.25;
      }
      
      h1 { font-size: 2rem; border-bottom: 2px solid #eaecef; padding-bottom: 0.3rem; }
      h2 { font-size: 1.5rem; border-bottom: 1px solid #eaecef; padding-bottom: 0.3rem; }
      h3 { font-size: 1.25rem; }
      h4 { font-size: 1rem; }
      h5 { font-size: 0.875rem; }
      h6 { font-size: 0.85rem; color: #6a737d; }
      
      p { margin-bottom: 1rem; }
      
      a {
        color: #0366d6;
        text-decoration: none;
      }
      
      a:hover {
        text-decoration: underline;
      }
      
      blockquote {
        padding: 0 1rem;
        color: #6a737d;
        border-left: 4px solid #dfe2e5;
        margin: 1rem 0;
      }
      
      code {
        padding: 0.2rem 0.4rem;
        margin: 0;
        font-size: 85%;
        background-color: rgba(27,31,35,0.05);
        border-radius: 3px;
        font-family: 'SFMono-Regular', Consolas, 'Liberation Mono', Menlo, monospace;
      }
      
      pre {
        padding: 1rem;
        overflow: auto;
        font-size: 85%;
        line-height: 1.45;
        background-color: #f6f8fa;
        border-radius: 6px;
        margin: 1rem 0;
      }
      
      pre code {
        background: transparent;
        padding: 0;
        margin: 0;
        font-size: 100%;
      }
      
      ul, ol {
        padding-left: 2rem;
        margin: 1rem 0;
      }
      
      li {
        margin: 0.25rem 0;
      }
      
      table {
        border-collapse: collapse;
        width: 100%;
        margin: 1rem 0;
      }
      
      th, td {
        border: 1px solid #dfe2e5;
        padding: 6px 13px;
        text-align: left;
      }
      
      th {
        background-color: #f6f8fa;
        font-weight: 600;
      }
      
      img {
        max-width: 100%;
        height: auto;
        border-radius: 6px;
      }
      
      hr {
        border: none;
        border-top: 2px solid #eaecef;
        margin: 2rem 0;
      }
    ".

(** [generateMetadata()], with the value of [new Date().toISOString()]. *)
Definition generateMetadata (iso : str) : str :=
  lit "
    <meta name=" ++ JS.dq ++ lit "generator" ++ JS.dq ++ lit " content=" ++ JS.dq ++ lit "Markdown Converter" ++ JS.dq ++ lit ">
    <meta name=" ++ JS.dq ++ lit "converted-at" ++ JS.dq ++ lit " content=" ++ JS.dq
  ++ iso ++
  JS.dq ++ lit ">
    <meta name=" ++ JS.dq ++ lit "format" ++ JS.dq ++ lit " content=" ++ JS.dq ++ lit "html" ++ JS.dq ++ lit ">".

(** The document shell of [convertToHTML]. *)
Definition htmlShell (baseFilename styles metadata html : str) : str :=
  lit "<!DOCTYPE html>
<html lang=" ++ JS.dq ++ lit "en" ++ JS.dq ++ lit ">
<head>
    <meta charset=" ++ JS.dq ++ lit "UTF-8" ++ JS.dq ++ lit ">
    <meta name=" ++ JS.dq ++ lit "viewport" ++ JS.dq ++ lit " content=" ++ JS.dq ++ lit "width=device-width, initial-scale=1.0" ++ JS.dq ++ lit ">
    <title>"
  ++ baseFilename ++
  lit "</title>
    <style>"
  ++ styles ++
  lit "</style>
    "
  ++ metadata ++
  lit "
</head>
<body>
    <article class=" ++ JS.dq ++ lit "markdown-content" ++ JS.dq ++ lit ">
        "
  ++ html ++
  lit "
    </article>
</body>
</html>".

(** [prettifyHTML] *)
Definition prettifyHTML (html : str) : str :=
  JS.join [10%N]
    (filter (fun line => negb (JS.isEmpty line))
       (List.map JS.trim
          (JS.split 10%N
             (replaceAll reLineBlanks []
                (replaceAll reAdjacentTags (lit ">" ++ [10%N] ++ lit "<") html))))).

(** [convertToHTML] *)
Definition convertToHTML (env : Env) (parsed : MarkdownParser.ParsedMarkdown)
           (baseFilename : str) (options : ConversionOptions) : ConversionResult :=
  let metadata := if truthy (includeMetadata options)
                  then generateMetadata (isoString env) else [] in
  let styles := getHTMLStyles in
  let htmlContent := htmlShell baseFilename styles metadata (MarkdownParser.html parsed) in
  mkResult (if truthy (prettify options) then prettifyHTML htmlContent else htmlContent)
           (baseFilename ++ lit ".html")
           (lit "text/html")
           true
           None.

(** The object [jsonData] of [convertToJSON]. *)
Definition jsonData (env : Env) (parsed : MarkdownParser.ParsedMarkdown)
           (baseFilename : str) (options : ConversionOptions) : JSON.value :=
  JObj [("metadata",
         JObj ([("filename", JStr baseFilename);
                ("convertedAt", JStr (isoString env));
                ("format", JStr (lit "json"))]
               ++ (if truthy (includeMetadata options)
                   then [("generator", JStr (lit "Markdown Converter"));
                         ("version", JStr (lit "1.0.0"))]
                   else [])));
        ("content",
         JObj [("structure", MarkdownParser.toJSON (MarkdownParser.tokens parsed));
               ("html", JStr (MarkdownParser.html parsed));
               ("plainText", JStr (MarkdownParser.plainText parsed))])]%string.

(** [convertToJSON] *)
Definition convertToJSON (env : Env) (parsed : MarkdownParser.ParsedMarkdown)
           (baseFilename : str) (options : ConversionOptions) : ConversionResult :=
  let data := jsonData env parsed baseFilename options in
  let jsonString := if truthy (prettify options)
                    then JSON.stringify2 data
                    else JSON.stringify data in
  mkResult jsonString (baseFilename ++ lit ".json") (lit "application/json") true None.

(** [convertToPlainText] *)
Definition convertToPlainText (env : Env) (parsed : MarkdownParser.ParsedMarkdown)
           (baseFilename : str) (options : ConversionOptions) : ConversionResult :=
  let textContent := MarkdownParser.plainText parsed in
  let textContent :=
    if truthy (includeMetadata options) then
      let metadata :=
        JS.join [10%N]
          [lit "File: " ++ baseFilename;
           lit "Converted: " ++ localeString env;
           lit "Format: Plain Text";
           JS.repeat (lit "=") 50;
           []] in
      metadata ++ textContent
    else textContent in
  mkResult textContent (baseFilename ++ lit ".txt") (lit "text/plain") true None.

Section WithPlatform.
Variable P : Platform.

(** [new FileConverter()] *)
Definition newFileConverter (st : Marked.State) : FileConverter * Marked.State :=
  let (p, st') :=
    MarkdownParser.new P
      (MarkdownParser.mkParserOptions (Some true) (Some false) (Some true) (Some true))
      st in
  (mkConverter p, st').

(** The [try] block of [convert]; [format] is the string received at run
    time, so that the [default] case is reachable. *)
Definition convertBody (this : FileConverter) (st : Marked.State) (env : Env)
           (markdownContent : str) (format : str) (options : ConversionOptions)
  : result ConversionResult :=
  parsed <- MarkdownParser.parse P (parser this) st env markdownContent ;;
  let baseFilename := getBaseFilename env (originalFilename options) in
  if JS.eqb format (lit "html") then
    Ok (convertToHTML env parsed baseFilename options)
  else if JS.eqb format (lit "json") then
    Ok (convertToJSON env parsed baseFilename options)
  else if JS.eqb format (lit "txt") then
    Ok (convertToPlainText env parsed baseFilename options)
  else
    Throw (ErrorObj (lit "Unsupported format: " ++ format)).

(** The [catch] block of [convert]. *)
Definition conversionFailure (e : thrown) : ConversionResult :=
  mkResult [] [] [] false
           (Some (match e with
                  | ErrorObj message => message
                  | NonError => lit "Unknown error occurred"
                  end)).

(** [convert] *)
Definition convert (this : FileConverter) (st : Marked.State) (env : Env)
           (markdownContent : str) (format : str) (options : ConversionOptions)
  : ConversionResult :=
  tryCatch (convertBody this st env markdownContent format options) conversionFailure.

End WithPlatform.

End Converters.

(* ===================================================================== *)
(** ** components/ConversionPanel.tsx                                     *)
(* ===================================================================== *)

Module ConversionPanel.
Import Converters.

(** The per-format entry of [ConversionState]. *)
Record FormatState := mkState {
  result : option ConversionResult;
  isConverting : bool;
  stateError : option str
}.

Definition initialState : FormatState := mkState None false None.

(** [handleConvert(format)], as the entry of [format] after its state
    updates. *)
Definition handleConvert (P : Platform) (converter : FileConverter)
           (st : Marked.State) (env : Env)
           (markdownContent originalFilename : str) (format : str)
           (prev : FormatState) : FormatState :=
  if Security.detectMaliciousContent markdownContent then
    mkState (result prev) (isConverting prev)
            (Some (lit "Content contains potentially malicious elements"))
  else
    let r := convert P converter st env markdownContent format
                     (mkConvOptions (Some originalFilename) (Some true) (Some true)) in
    mkState (Some r) false
            (if success r then None
             else Some (JS.orElse (error r) (lit "Conversion failed"))).

End ConversionPanel.

(* ===================================================================== *)
(** ** A reference platform                                               *)
(* ===================================================================== *)

(** The source delegates tokenizing and HTML rendering to the marked
    library, the allow-list pass to DOMPurify and URL parsing to the
    platform; none of them is part of the repository.  The modules below
    model them, to run the source on concrete documents.  The constructs
    are those of the specification (sections 4.1 to 4.3); where the
    specification is silent or differs from the libraries that the source
    imports (the token of a blank line, the text of a token, the [id] of a
    heading, the attributes that the pass keeps), the models follow the
    libraries: marked in its version 4 and DOMPurify in its version 3,
    with the settings that the source leaves at their defaults. *)

Module MarkedModel.
Import Marked.
Local Open Scope N_scope.

(** *** Lines *)

(** Modelled from the spec: the block tokenizer and the HTML renderer of
    the marked library, whose code is not in the repository; this module
    builds them up to [lexer] and [parser], the two functions that the
    source calls.  The tokenizer reads the document line by line: a line,
    with or without its line feed. *)
Record Line := mkLine { l_text : str; l_nl : bool }.

Definition lineRaw (l : Line) : str := l_text l ++ (if l_nl l then [10] else []).

Definition rawOf (ls : list Line) : str := flat_map lineRaw ls.

Definition textOf (ls : list Line) : str := JS.join [10] (List.map l_text ls).

(** The lines of a text; [cur] is the line being read, in reverse. *)
Fixpoint linesFrom (cur : str) (s : str) : list Line :=
  match s with
  | [] => match cur with [] => [] | _ :: _ => [mkLine (rev cur) false] end
  | c :: s' =>
      if N.eqb c 10 then mkLine (rev cur) true :: linesFrom [] s'
      else linesFrom (c :: cur) s'
  end.

(** [src.replace(/\r\n|\r/g, '\n')] *)
Fixpoint newlines (s : str) : str :=
  match s with
  | [] => []
  | c :: s' =>
      if N.eqb c 13 then
        10 :: match s' with
              | d :: s'' => if N.eqb d 10 then newlines s'' else newlines s'
              | [] => []
              end
      else c :: newlines s'
  end.

Definition isSp (c : N) : bool := N.eqb c 32.
Definition isTab (c : N) : bool := N.eqb c 9.
Definition isSpTab (c : N) : bool := isSp c || isTab c.

(** The tabs after the leading spaces of a line count four spaces each. *)
Definition expandTabs (l : Line) : Line :=
  let sp := JS.takeWhile isSp (l_text l) in
  let r := skipn (List.length sp) (l_text l) in
  let tabs := JS.takeWhile isTab r in
  mkLine (sp ++ List.repeat 32 (4 * List.length tabs) ++ skipn (List.length tabs) r)
         (l_nl l).

Definition linesOf (s : str) : list Line := List.map expandTabs (linesFrom [] s).

Definition trimEnd (s : str) : str := rev (JS.trimStart (rev s)).

Definition indent (l : str) : nat := List.length (JS.takeWhile isSp l).

(** The line without its indentation of at most three spaces. *)
Definition unindent (limit : nat) (l : str) : option str :=
  if Nat.leb (indent l) limit then Some (skipn (indent l) l) else None.

Definition unindent3 : str -> option str := unindent 3.

Definition isBlank (l : Line) : bool := forallb isSp (l_text l).

Definition allSpace (l : str) : bool := forallb JS.isSpace l.

Fixpoint countPrefix (c : N) (l : str) : nat :=
  match l with
  | x :: l' => if N.eqb x c then S (countPrefix c l') else O
  | [] => O
  end.

Definition nonEmpty (s : str) : option str :=
  match s with [] => None | _ :: _ => Some s end.

(** The index of the first code unit that is not a space. *)
Definition firstNonSpace (l : str) : option nat :=
  if Nat.eqb (indent l) (List.length l) then None else Some (indent l).

Definition geIndex (i : option nat) (n : nat) : bool :=
  match i with Some k => Nat.leb n k | None => false end.

(** The blank lines at the head of [ls]. *)
Fixpoint blankRun (ls : list Line) : list Line :=
  match ls with
  | l :: rest => if isBlank l then l :: blankRun rest else []
  | [] => []
  end.

(** The empty lines at the head of [ls]: the line feeds that follow a
    line feed. *)
Fixpoint emptyRun (ls : list Line) : list Line :=
  match ls with
  | l :: rest => if JS.isEmpty (l_text l) && l_nl l then l :: emptyRun rest else []
  | [] => []
  end.

(** *** The block rules *)

Definition isPunct (c : N) : bool :=
  (N.leb 33 c && N.leb c 47) || (N.leb 58 c && N.leb c 64)
  || (N.leb 91 c && N.leb c 96) || (N.leb 123 c && N.leb c 126).

(** A backslash before a punctuation character is dropped. *)
Fixpoint unbackslash (s : str) : str :=
  match s with
  | [] => []
  | c :: s' =>
      if N.eqb c 92 then
        match s' with
        | d :: s'' => if isPunct d then d :: unbackslash s'' else c :: unbackslash s'
        | [] => [c]
        end
      else c :: unbackslash s'
  end.

(** An opening fence: three or more backticks or tildes, then the info
    string, which has no backtick after backticks, then a line feed. *)
Definition fenceOpen (l : Line) : option (N * nat * str) :=
  match unindent3 (l_text l) with
  | Some (c :: r) =>
      if N.eqb c 96 || N.eqb c 126 then
        let n := countPrefix c (c :: r) in
        let info := skipn n (c :: r) in
        if Nat.leb 3 n && l_nl l && (N.eqb c 126 || negb (existsb (N.eqb 96) info))
        then Some (c, n, info)
        else None
      else None
  | _ => None
  end.

(** A closing fence: the opening one, more fence characters, spaces. *)
Definition fenceClose (c : N) (n : nat) (l : Line) : bool :=
  match unindent3 (l_text l) with
  | Some r =>
      Nat.leb n (countPrefix c r)
      && forallb isSp (JS.dropWhile (fun x => N.eqb x 96 || N.eqb x 126) (skipn n r))
  | None => false
  end.

(** The lines of the body up to the closing fence, that fence if there
    is one, and the number of lines read. *)
Fixpoint fenceBody (c : N) (n : nat) (ls : list Line) : list Line * option Line :=
  match ls with
  | [] => ([], None)
  | l :: rest =>
      if fenceClose c n l then ([], Some l)
      else let (body, cl) := fenceBody c n rest in (l :: body, cl)
  end.

(** The indentation of a backtick fence is taken off the lines of its
    body that have as much. *)
Definition compensate (c : N) (opening : str) (body : list Line) : list str :=
  let w := List.length (JS.takeWhile JS.isSpace opening) in
  List.map
    (fun l =>
       if N.eqb c 96 && Nat.ltb 0 w
          && Nat.leb w (List.length (JS.takeWhile JS.isSpace (l_text l)))
       then skipn w (l_text l) else l_text l)
    body.

(** The text of a heading: trimmed, without its closing sequence. *)
Definition headingText (s : str) : str :=
  let text := JS.trim s in
  if JS.headIs 35 (rev text) then
    let trimmed := rev (JS.dropWhile (N.eqb 35) (rev text)) in
    match rev trimmed with
    | [] => []
    | c :: _ => if isSp c then JS.trim trimmed else text
    end
  else text.

Definition noLineSeparator (s : str) : bool :=
  forallb (fun c => negb (N.eqb c 8232 || N.eqb c 8233)) s.

(** An ATX heading: one to six [#], then whitespace or the end of the
    line. *)
Definition headingOf (l : str) : option (nat * str) :=
  match unindent3 l with
  | Some r =>
      let n := countPrefix 35 r in
      if Nat.leb 1 n && Nat.leb n 6 && noLineSeparator r then
        match skipn n r with
        | [] => Some (n, [])
        | c :: rest => if JS.isSpace c then Some (n, headingText (c :: rest)) else None
        end
      else None
  | None => None
  end.

(** A horizontal rule: three or more of one of [-], [_], [*], with
    spaces or tabs after any of them, and nothing else. *)
Definition isRule (tabs : bool) (limit : nat) (l : str) : bool :=
  match unindent limit l with
  | Some (c :: r) =>
      (N.eqb c 45 || N.eqb c 95 || N.eqb c 42)
      && forallb (fun x => N.eqb x c || isSp x || (tabs && isTab x)) r
      && Nat.leb 3 (List.length (filter (N.eqb c) (c :: r)))
  | _ => false
  end.

Definition isHr (l : str) : bool := isRule true 3 l.

Definition isQuoteStart (l : str) : bool :=
  match unindent3 l with
  | Some r => JS.headIs 62 r
  | None => false
  end.

(** The marker of a list item: a bullet, or up to nine digits and a
    delimiter. *)
Record Marker := mkMarker {
  m_ordered : bool;
  m_char : N;            (* the bullet, or the delimiter *)
  m_width : nat;         (* indentation and marker *)
  m_rest : str           (* what follows the marker on the line *)
}.

Definition markerOf (limit : nat) (l : str) : option Marker :=
  match unindent limit l with
  | Some (c :: r) =>
      if N.eqb c 42 || N.eqb c 43 || N.eqb c 45
      then Some (mkMarker false c (S (indent l)) r)
      else
        let digits := JS.takeWhile JS.isDigit (c :: r) in
        let k := List.length digits in
        if Nat.leb 1 k && Nat.leb k 9 then
          match skipn k (c :: r) with
          | d :: r' =>
              if N.eqb d 46 || N.eqb d 41
              then Some (mkMarker true d (indent l + k + 1) r')
              else None
          | [] => None
          end
        else None
  | _ => None
  end.

(** A marker that is followed by a space, a tab or the end of the
    line. *)
Definition bulletOf (limit : nat) (l : str) : option Marker :=
  match markerOf limit l with
  | Some m =>
      match m_rest m with
      | [] => Some m
      | c :: _ => if isSpTab c then Some m else None
      end
  | None => None
  end.

(** The first line of a list: after the marker, nothing, or a space or
    a tab and something more. *)
Definition listStart (l : str) : option Marker :=
  match bulletOf 3 l with
  | Some m =>
      match m_rest m with
      | [] => Some m
      | [_] => None
      | _ => Some m
      end
  | None => None
  end.

Definition sameList (a b : Marker) : bool :=
  Bool.eqb (m_ordered a) (m_ordered b) && N.eqb (m_char a) (m_char b).

(** Raw HTML *)

Definition blockTags : list string :=
  ["address"; "article"; "aside"; "base"; "basefont"; "blockquote"; "body";
   "caption"; "center"; "col"; "colgroup"; "dd"; "details"; "dialog"; "dir";
   "div"; "dl"; "dt"; "fieldset"; "figcaption"; "figure"; "footer"; "form";
   "frame"; "frameset"; "h1"; "h2"; "h3"; "h4"; "h5"; "h6"; "head"; "header";
   "hr"; "html"; "iframe"; "legend"; "li"; "link"; "main"; "menu"; "menuitem";
   "meta"; "nav"; "noframes"; "ol"; "optgroup"; "option"; "p"; "param";
   "section"; "source"; "summary"; "table"; "tbody"; "td"; "tfoot"; "th";
   "thead"; "title"; "tr"; "track"; "ul"]%string.

Definition rawTags : list string := ["script"; "pre"; "style"; "textarea"]%string.

Definition lower (s : str) : str := List.map JS.asciiLower s.

(** The name among [names] that [s] starts with and that [after]
    accepts what follows. *)
Definition startsWithName (names : list string) (after : str -> bool) (s : str)
  : option string :=
  find (fun n => JS.startsWith (lit n) s && after (skipn (String.length n) s)) names.

(** After the name of a block-level tag: spaces, the end of a line that
    has its line feed, [>] or [/>]. *)
Definition afterBlockTag (nl : bool) (r : str) : bool :=
  match r with
  | [] => nl
  | c :: r' => isSp c || N.eqb c 62 || (N.eqb c 47 && JS.headIs 62 r')
  end.

(** After the name of [script], [pre], [style] or [textarea]: whitespace
    or [>]. *)
Definition afterRawTag (nl : bool) (r : str) : bool :=
  match r with
  | [] => nl
  | c :: _ => JS.isSpace c || N.eqb c 62
  end.

Definition isWordChar (c : N) : bool := JS.isAlpha c || JS.isDigit c || N.eqb c 95.

Definition isNameChar (c : N) : bool := isWordChar c || N.eqb c 45.

(** After a quote: the text after the closing quote, on the same
    line. *)
Fixpoint afterQuote (q : N) (s : str) : option str :=
  match s with
  | [] => None
  | c :: s' => if N.eqb c q then Some s' else afterQuote q s'
  end.

Definition isUnquoted (c : N) : bool :=
  negb (JS.isSpace c || N.eqb c 34 || N.eqb c 39 || N.eqb c 61 || N.eqb c 60
        || N.eqb c 62 || N.eqb c 96).

(** After the name of an attribute: what follows its value, if it has
    one. *)
Definition afterValue (s : str) : str :=
  match JS.dropWhile isSp s with
  | e :: r =>
      if N.eqb e 61 then
        match JS.dropWhile isSp r with
        | q :: r' =>
            if N.eqb q 34 || N.eqb q 39 then
              match afterQuote q r' with
              | Some rest => rest
              | None => s
              end
            else
              match JS.takeWhile isUnquoted (q :: r') with
              | [] => s
              | v => skipn (List.length v) (q :: r')
              end
        | [] => s
        end
      else s
  | [] => s
  end.

(** After the name of a tag: its attributes up to [>] or [/>], and what
    follows. *)
Fixpoint tagEnd (fuel : nat) (s : str) : option str :=
  match fuel with
  | O => None
  | S f =>
      match JS.dropWhile isSp s with
      | c :: r =>
          if N.eqb c 62 then Some r
          else if N.eqb c 47 && JS.headIs 62 r then Some (tl r)
          else if JS.headIs 32 s
                  && (JS.isAlpha c || N.eqb c 58 || N.eqb c 95) then
            let k := JS.takeWhile (fun x => isNameChar x || N.eqb x 46 || N.eqb x 58)
                                  (c :: r) in
            tagEnd f (afterValue (skipn (List.length k) (c :: r)))
          else None
      | [] => None
      end
  end.

(** A complete opening or closing tag, other than the four above, with
    nothing but spaces and tabs after it on its line. *)
Definition isLoneTag (l : str) : bool :=
  match l with
  | c :: r =>
      if N.eqb c 47 then
        match r with
        | d :: _ =>
            JS.isAlpha d
            && negb (existsb (fun n => JS.startsWith (lit n) (lower r)) rawTags)
            && match JS.dropWhile JS.isSpace (JS.dropWhile isNameChar r) with
               | e :: rest => N.eqb e 62 && forallb isSpTab rest
               | [] => false
               end
        | [] => false
        end
      else
        JS.isAlpha c
        && negb (existsb (fun n => JS.startsWith (lit n) (lower l)) rawTags)
        && match tagEnd (S (List.length l)) (JS.dropWhile isNameChar l) with
           | Some rest => forallb isSpTab rest
           | None => false
           end
  | [] => false
  end.

(** The kinds of raw HTML that open a block. *)
Inductive htmlStart :=
| HRaw (name : string)      (* script, pre, style, textarea: up to the closing tag *)
| HComment                  (* up to the end of the comment *)
| HBlock.                   (* up to a blank line *)

Definition isCommentStart (r : str) : bool :=
  JS.startsWith (lit "!--") r
  && negb (JS.startsWith (lit ">") (skipn 3 r))
  && negb (JS.startsWith (lit "->") (skipn 3 r)).

Definition htmlOf (l : Line) : option htmlStart :=
  match unindent3 (l_text l) with
  | Some (c :: r) =>
      if N.eqb c 60 then
        match startsWithName rawTags (afterRawTag (l_nl l)) (lower r) with
        | Some n => Some (HRaw n)
        | None =>
            if isCommentStart r then Some HComment
            else
              match startsWithName blockTags (afterBlockTag (l_nl l))
                                   (lower (JS.skipChar 47 r)) with
              | Some _ => Some HBlock
              | None => if isLoneTag r then Some HBlock else None
              end
        end
      else None
  | _ => None
  end.

(** The raw HTML that ends a paragraph: at the start of the line, a
    block-level tag in lower case, or the start of one of the four tags
    above or of a comment. *)
Definition htmlInterrupts (l : Line) : bool :=
  match l_text l with
  | c :: r =>
      N.eqb c 60
      && (match startsWithName blockTags (afterBlockTag (l_nl l)) (JS.skipChar 47 r) with
          | Some _ => true
          | None => false
          end
          || existsb (fun n => JS.startsWith (lit n) r) rawTags
          || JS.startsWith (lit "!--") r)
  | [] => false
  end.

(** The lines that end a paragraph. *)
Definition interrupts (l : Line) : bool :=
  isHr (l_text l)
  || match unindent3 (l_text l) with
     | Some r =>
         let n := countPrefix 35 r in
         (Nat.leb 1 n && Nat.leb n 6 && JS.headIs 32 (skipn n r))
         || JS.headIs 62 r
     | None => false
     end
  || match fenceOpen l with Some _ => true | None => false end
  || match markerOf 3 (l_text l) with
     | Some m =>
         JS.headIs 32 (m_rest m)
         && (negb (m_ordered m)
             || JS.eqb (JS.takeWhile JS.isDigit (skipn (indent (l_text l)) (l_text l)))
                       (lit "1"))
     | None => false
     end
  || htmlInterrupts l.

(** A line that goes on with the paragraph before it. *)
Definition continues (l : Line) : bool :=
  negb (JS.isEmpty (l_text l)) && negb (isBlank l && l_nl l) && negb (interrupts l).

(** Tables (with the [gfm] option) *)

(** The cells of a row: the texts between the pipes that no backslash
    escapes; [cur] is the cell being read, in reverse, [slashes] the
    number of backslashes just before. *)
Fixpoint cellsFrom (cur : str) (slashes : nat) (s : str) : list str :=
  match s with
  | [] => [rev cur]
  | c :: s' =>
      if N.eqb c 124 && Nat.even slashes then rev cur :: cellsFrom [] 0 s'
      else cellsFrom (c :: cur) (if N.eqb c 92 then S slashes else O) s'
  end.

(** An escaped pipe is a pipe. *)
Fixpoint unpipe (s : str) : str :=
  match s with
  | [] => []
  | c :: s' =>
      if N.eqb c 92 && JS.headIs 124 s' then unpipe s' else c :: unpipe s'
  end.

Definition dropBlankHead (cells : list str) : list str :=
  match cells with
  | c :: rest => if allSpace c then rest else cells
  | [] => []
  end.

(** The cells of a row, without the empty ones outside the first and
    the last pipe. *)
Definition rowCells (row : str) : list str :=
  List.map (fun c => unpipe (JS.trim c))
           (rev (dropBlankHead (rev (dropBlankHead (cellsFrom [] 0 row))))).

(** The cells of a row, cut or filled up to [count]. *)
Definition splitCells (count : nat) (row : str) : list str :=
  let cells := rowCells row in
  firstn count cells ++ List.repeat [] (count - List.length cells).

(** A cell of the delimiter row: hyphens, with a colon at either end. *)
Definition isAlignCell (c : str) : bool :=
  let body := JS.skipChar 58 (rev (JS.skipChar 58 (rev c))) in
  negb (JS.isEmpty body) && forallb (N.eqb 45) body.

(** The cells of the delimiter row under the header of a table. *)
Definition alignCells (l : str) : option (list str) :=
  match unindent3 l with
  | Some r =>
      let r1 := if JS.headIs 124 r then JS.dropWhile isSp (tl r) else r in
      let r2 := rev (JS.dropWhile isSp (rev r1)) in
      let r3 := if JS.headIs 124 (rev r2)
                then rev (JS.dropWhile isSp (tl (rev r2))) else r2 in
      let cells :=
        List.map (fun c => rev (JS.dropWhile isSp (rev (JS.dropWhile isSp c))))
                 (JS.split 124 r3) in
      if forallb isAlignCell cells then Some cells else None
  | None => None
  end.

(** The header of a table: something before a pipe, and a line feed. *)
Definition isTableHeader (l : Line) : bool :=
  l_nl l
  && match JS.dropWhile isSp (l_text l) with
     | _ :: r => existsb (N.eqb 124) r
     | [] => false
     end.

(** The two lines that open a table. *)
Definition opensTable (gfm : bool) (l : Line) (rest : list Line) : bool :=
  gfm && isTableHeader l
  && match rest with
     | d :: _ => match alignCells (l_text d) with Some _ => true | None => false end
     | [] => false
     end.

(** The lines that go on with a paragraph: up to a line that is empty
    or ends it, or to the two lines that open a table. *)
Fixpoint continuation (gfm : bool) (ls : list Line) : list Line :=
  match ls with
  | l :: rest =>
      if continues l && negb (opensTable gfm l rest)
      then l :: continuation gfm rest else []
  | [] => []
  end.

(** The rows of a table: the lines up to a blank line or a line that
    ends a paragraph or is indented code. *)
Fixpoint tableRows (ls : list Line) : list Line :=
  match ls with
  | l :: rest =>
      if (isBlank l && l_nl l) || JS.isEmpty (l_text l) || interrupts l
         || Nat.leb 4 (indent (l_text l))
      then [] else l :: tableRows rest
  | [] => []
  end.

(** The underline of a setext heading. *)
Definition underlineOf (l : str) : option nat :=
  match unindent3 l with
  | Some (c :: r) =>
      if (N.eqb c 61 || N.eqb c 45)
         && forallb isSp (JS.dropWhile (N.eqb c) r)
      then Some (if N.eqb c 61 then 1%nat else 2%nat)
      else None
  | _ => None
  end.

(** The lines of a setext heading after its first line, up to the
    underline: none of them is empty. *)
Fixpoint setextBody (ls : list Line) : option (list Line * nat) :=
  match ls with
  | [] => None
  | l :: rest =>
      match underlineOf (l_text l) with
      | Some d => Some ([], d)
      | None =>
          if JS.isEmpty (l_text l) || negb (l_nl l) then None
          else match setextBody rest with
               | Some (body, d) => Some (l :: body, d)
               | None => None
               end
      end
  end.

(** The lines of a blockquote: lines that start with [>], each followed
    by the lines that go on with its paragraph. *)
Fixpoint quoteLines (lazy : bool) (ls : list Line) : list Line :=
  match ls with
  | [] => []
  | l :: rest =>
      match unindent3 (l_text l) with
      | Some (c :: r) =>
          if N.eqb c 62
          then l :: quoteLines (negb (JS.isEmpty (JS.skipChar 32 r))) rest
          else if lazy && continues l then l :: quoteLines true rest
          else []
      | _ => if lazy && continues l then l :: quoteLines true rest else []
      end
  end.

(** A line of a blockquote without its marker. *)
Definition unquote (l : str) : str :=
  match JS.dropWhile isSp l with
  | c :: r =>
      if N.eqb c 62 then
        match r with
        | d :: r' => if isSpTab d then r' else r
        | [] => r
        end
      else l
  | [] => l
  end.

(** Indented code: lines indented by four spaces or more, and the blank
    lines between and after them. *)
Definition isIndented (l : Line) : bool :=
  Nat.leb 4 (indent (l_text l)) && negb (isBlank l).

Fixpoint indentedLines (ls : list Line) : list Line :=
  match ls with
  | l :: rest =>
      if isIndented l || (isBlank l && l_nl l) then l :: indentedLines rest
      else if isBlank l then [l] else []
  | [] => []
  end.

(** The lines of [ls] up to and including the first one that [p]
    accepts, all of them when there is none. *)
Fixpoint through (p : Line -> bool) (ls : list Line) : list Line :=
  match ls with
  | [] => []
  | l :: rest => if p l then [l] else l :: through p rest
  end.

(** The lines of [ls] up to the first line that has its line feed and
    is followed by a blank line with its own; all of them when there is
    none. *)
Fixpoint untilBlank (ls : list Line) : list Line :=
  match ls with
  | [] => []
  | l :: rest =>
      match rest with
      | b :: _ => if l_nl l && isBlank b && l_nl b then [l] else l :: untilBlank rest
      | [] => [l]
      end
  end.

(** The blank lines at the head of [ls] that have their line feed. *)
Fixpoint blankFed (ls : list Line) : list Line :=
  match ls with
  | l :: rest => if isBlank l && l_nl l then l :: blankFed rest else []
  | [] => []
  end.

(** *** List items *)

Definition beginsFence (limit : nat) (l : str) : bool :=
  match unindent limit l with
  | Some r => JS.startsWith (lit "```") r || JS.startsWith (lit "~~~") r
  | None => false
  end.

Definition beginsHeading (limit : nat) (l : str) : bool :=
  match unindent limit l with
  | Some r => JS.headIs 35 r
  | None => false
  end.

Definition beginsBullet (limit : nat) (l : str) : bool :=
  match bulletOf limit l with Some _ => true | None => false end.


(** The lines after the first line of an item that belong to it, and
    what they add to its text.  [width] is the indentation of the text of
    the item, [blank] whether a blank line has been read, [line] the line
    before, without the indentation. *)
Fixpoint itemLines (width : nat) (blank : bool) (line : str) (ls : list Line)
  : list Line * str :=
  match ls with
  | [] => ([], [])
  | l :: rest =>
      let next := l_text l in
      let limit := Nat.min 3 (width - 1) in
      if beginsFence limit next || beginsHeading limit next
         || beginsBullet limit next || isRule false limit next
      then ([], [])
      else
        let more added :=
          let (ls', text) :=
            itemLines width (blank || allSpace next) (skipn width next) rest in
          (l :: ls', 10 :: added ++ text) in
        if geIndex (firstNonSpace next) width || allSpace next
        then more (skipn width next)
        else if blank
                || geIndex (firstNonSpace line) 4
                || beginsFence limit line || beginsHeading limit line
                || isRule false limit line
        then ([], [])
        else more next
  end.

(** A task marker at the head of the text of an item. *)
Definition taskOf (text : str) : option bool :=
  match text with
  | a :: c :: b :: d :: _ =>
      if N.eqb a 91 && N.eqb b 93 && N.eqb d 32 then
        if N.eqb c 32 then Some false
        else if N.eqb c 120 || N.eqb c 88 then Some true
        else None
      else None
  | _ => None
  end.

Definition untask (gfm : bool) (text : str) : str :=
  match (if gfm then taskOf text else None) with
  | Some _ => JS.dropWhile isSp (skipn 3 text)
  | None => text
  end.

(** An item that starts at the head of [ls]: its lines, and its text. *)
Definition itemAt (gfm : bool) (m : Marker) (l : Line) (rest : list Line)
  : list Line * str :=
  let cap2 := m_rest m in
  let tabs := List.length (JS.takeWhile isTab cap2) in
  let line := List.repeat 32 (3 * tabs) ++ skipn tabs cap2 in
  let search :=
    match firstNonSpace cap2 with
    | Some k => Some k
    | None => if l_nl l then Some (List.length cap2) else None
    end in
  let contents :=
    match search with
    | Some k => skipn (if Nat.ltb 4 k then 1 else k) line
    | None => skipn (List.length line - 1) line
    end in
  let width :=
    match search with
    | Some k => (if Nat.ltb 4 k then 1 else k) + m_width m
    | None => m_width m - 1
    end%nat in
  if JS.isEmpty line
     && match rest with
        | b :: _ => isBlank b
        | [] => true
        end
  then (l :: firstn 1 rest, untask gfm contents)
  else
    let (ls, text) := itemLines width false line rest in
    (l :: ls, untask gfm (contents ++ text)).

(** The raw text of an item: each of its lines and a line feed. *)
Definition itemRaw (ls : list Line) : str :=
  flat_map (fun l => l_text l ++ [10]) ls.

(** The items of the list that starts at the head of [ls], as long as
    their markers are those of [m], and the lines read. *)
Fixpoint listItems (fuel : nat) (gfm : bool) (m : Marker) (ls : list Line)
  : list ListItem * list Line :=
  match fuel with
  | O => ([], [])
  | S f =>
      match ls with
      | [] => ([], [])
      | l :: rest =>
          match bulletOf 3 (l_text l) with
          | Some m' =>
              if sameList m m' && negb (isHr (l_text l)) then
                let (mine, text) := itemAt gfm m' l rest in
                let (items, read) :=
                  listItems f gfm m (skipn (List.length mine) (l :: rest)) in
                (mkItem (itemRaw mine) text :: items, mine ++ read)
              else ([], [])
          | None => ([], [])
          end
      end
  end.

(** The last item of a list ends where its text ends. *)
Fixpoint trimLast (items : list ListItem) : list ListItem :=
  match items with
  | [] => []
  | [i] => [mkItem (trimEnd (item_raw i)) (trimEnd (item_text i))]
  | i :: rest => i :: trimLast rest
  end.

(** *** The tokens *)

(** A block at the head of the lines: its token, the number of lines it
    reads, and what it leaves of the last of them. *)
Definition block := (Token * nat * str)%type.

Definition feed (l : Line) : str := if l_nl l then [10] else [].

Definition lastFeed (ls : list Line) : str :=
  match rev ls with
  | l :: _ => feed l
  | [] => []
  end.

(** The raw text of lines, without the line feed of the last one. *)
Definition rawOpen (ls : list Line) : str :=
  match rev ls with
  | l :: before => rawOf (rev before) ++ l_text l
  | [] => []
  end.

Definition fenceAt (l : Line) (rest : list Line) : option block :=
  match fenceOpen l with
  | Some (c, n, info) =>
      let (body, cl) := fenceBody c n rest in
      let lang :=
        match info with
        | [] => None
        | _ => nonEmpty (unbackslash (JS.trim info))
        end in
      let text := JS.join [10] (compensate c (l_text l) body) in
      match cl with
      | Some e =>
          Some (Code (lineRaw l ++ rawOf body ++ l_text e) lang text,
                S (S (List.length body)), feed e)
      | None =>
          if JS.eqb (lastFeed (l :: body)) [10]
          then Some (Code (lineRaw l ++ rawOf body) lang text,
                     S (List.length body), [])
          else None
      end
  | None => None
  end.

Definition headingAt (l : Line) (rest : list Line) : option block :=
  match headingOf (l_text l) with
  | Some (d, text) =>
      let fed := if l_nl l then emptyRun rest else [] in
      Some (Heading (lineRaw l ++ rawOf fed) d text, S (List.length fed), [])
  | None => None
  end.

Definition hrAt (l : Line) (rest : list Line) : option block :=
  if isHr (l_text l) then
    let fed := if l_nl l then emptyRun rest else [] in
    Some (Hr (lineRaw l ++ rawOf fed), S (List.length fed), [])
  else None.

Definition quoteAt (l : Line) (rest : list Line) : option block :=
  if isQuoteStart (l_text l) then
    let ls := quoteLines false (l :: rest) in
    Some (Blockquote (rawOf ls)
                     (JS.join [10] (List.map (fun x => unquote (l_text x)) ls)
                      ++ lastFeed ls),
          List.length ls, [])
  else None.

Definition listAt (gfm : bool) (l : Line) (rest : list Line) : option block :=
  match listStart (l_text l) with
  | Some m =>
      if isHr (l_text l) then None
      else
        let (items, read) := listItems (S (List.length rest)) gfm m (l :: rest) in
        let raw := trimEnd (rawOf read) in
        Some (TList raw (m_ordered m) (trimLast items),
              List.length read, skipn (List.length raw) (rawOf read))
  | None => None
  end.

Definition htmlAt (l : Line) (rest : list Line) : option block :=
  match htmlOf l with
  | Some (HRaw n) =>
      let ls :=
        through (fun x => JS.includes (lit "</" ++ lit n ++ lit ">") (lower (l_text x))
                          && l_nl x)
                (l :: rest) in
      let fed := if JS.eqb (lastFeed ls) [10]
                 then emptyRun (skipn (List.length ls) (l :: rest)) else [] in
      Some (Other KHtml (rawOf ls ++ rawOf fed), List.length ls + List.length fed, [])%nat
  | Some HComment =>
      let first := mkLine (skipn (indent (l_text l) + 4) (l_text l)) (l_nl l) in
      let ls := through (fun x => JS.includes (lit "-->") (l_text x)) (first :: rest) in
      let fed := if JS.eqb (lastFeed ls) [10]
                 then emptyRun (skipn (List.length ls) (l :: rest)) else [] in
      Some (Other KHtml (rawOf (firstn (List.length ls) (l :: rest)) ++ rawOf fed),
            List.length ls + List.length fed, [])%nat
  | Some HBlock =>
      let ls := untilBlank (l :: rest) in
      let fed := if JS.eqb (lastFeed ls) [10]
                 then blankFed (skipn (List.length ls) (l :: rest)) else [] in
      Some (Other KHtml (rawOf ls ++ rawOf fed), List.length ls + List.length fed, [])%nat
  | None => None
  end.

Definition codeAt (l : Line) (rest : list Line) : option block :=
  if isIndented l then
    let ls := indentedLines (l :: rest) in
    let text :=
      JS.join [10]
        (List.map (fun x => skipn (Nat.min 4 (indent (l_text x))) (l_text x)) ls)
      ++ lastFeed ls in
    Some (Code (rawOf ls) None (rev (JS.dropWhile (N.eqb 10) (rev text))),
          List.length ls, [])
  else None.

Definition setextAt (l : Line) (rest : list Line) : option block :=
  if l_nl l then
    match setextBody rest with
    | Some (body, d) =>
        let under := nth (List.length body) rest (mkLine [] false) in
        let after := skipn (S (List.length body)) rest in
        let fed := if l_nl under then emptyRun after else [] in
        Some (Heading (rawOf (l :: body) ++ lineRaw under ++ rawOf fed) d
                      (textOf (l :: body)),
              S (S (List.length body)) + List.length fed, [])%nat
    | None => None
    end
  else None.

Definition tableAt (gfm : bool) (l : Line) (rest : list Line) : option block :=
  if opensTable gfm l rest then
    match rest with
    | d :: rows =>
        match alignCells (l_text d) with
        | Some aligns =>
            if Nat.eqb (List.length (rowCells (l_text l))) (List.length aligns) then
              let body := if l_nl d then tableRows rows else [] in
              let after := skipn (List.length body) rows in
              let fed := if JS.eqb (lastFeed (d :: body)) [10]
                         then emptyRun after else [] in
              Some (Other KTable (rawOf (l :: d :: body) ++ rawOf fed),
                    S (S (List.length body + List.length fed)), [])
            else None
        | None => None
        end
    | [] => None
    end
  else None.

Definition paragraphAt (gfm : bool) (l : Line) (rest : list Line) : block :=
  let ls := l :: (if l_nl l then continuation gfm rest else []) in
  (Paragraph (rawOpen ls) (textOf ls), List.length ls, lastFeed ls).

(** Inside a list item there are no paragraphs: a line of text is a
    token of type [text], which the lines of text and the indented lines
    after it join; the token holds the text. *)
Fixpoint textLines (gfm : bool) (ls : list Line) : list Line :=
  match ls with
  | [] => []
  | l :: rest =>
      if isBlank l then []
      else if isIndented l then l :: textLines gfm rest
      else
        match fenceAt l rest, headingAt l rest, hrAt l rest, quoteAt l rest,
              listAt gfm l rest, htmlAt l rest, tableAt gfm l rest,
              setextAt l rest with
        | None, None, None, None, None, None, None, None => l :: textLines gfm rest
        | _, _, _, _, _, _, _, _ => []
        end
  end.

Definition textAt (gfm : bool) (l : Line) (rest : list Line) : block :=
  let ls := l :: (if l_nl l then textLines gfm rest else []) in
  (Other KText
         (JS.join [10]
            (l_text l
             :: List.map (fun x => if isIndented x
                                   then skipn (Nat.min 4 (indent (l_text x))) (l_text x)
                                   else l_text x)
                         (tl ls))),
   List.length ls, lastFeed ls).

Definition orTry {A} (a : option A) (b : option A) : option A :=
  match a with Some _ => a | None => b end.

(** The block rules, in the order of the library. *)
Definition ruleAt (gfm top : bool) (l : Line) (rest : list Line) : block :=
  match orTry (codeAt l rest)
       (orTry (fenceAt l rest)
       (orTry (headingAt l rest)
       (orTry (hrAt l rest)
       (orTry (quoteAt l rest)
       (orTry (listAt gfm l rest)
       (orTry (htmlAt l rest)
       (orTry (tableAt gfm l rest)
              (setextAt l rest)))))))) with
  | Some b => b
  | None => if top then paragraphAt gfm l rest else textAt gfm l rest
  end.

Definition addRaw (t : Token) (s : str) : Token :=
  match t with
  | Heading r d x => Heading (r ++ s) d x
  | Paragraph r x => Paragraph (r ++ s) x
  | TList r o i => TList (r ++ s) o i
  | Code r l x => Code (r ++ s) l x
  | Blockquote r x => Blockquote (r ++ s) x
  | Hr r => Hr (r ++ s)
  | Other KText r => Other KText r
  | Other k r => Other k (r ++ s)
  end.

(** The tokens of the block at the head of the lines and of the blank
    lines after it, and the number of lines read.  The blank lines are a
    token of type [space]; when they come to a single code unit it goes
    to the token before as a line feed. *)
Definition blockAt (gfm top : bool) (l : Line) (rest : list Line)
  : list Token * nat :=
  if isBlank l then
    let ls := blankRun (l :: rest) in
    ([Other KSpace (rawOf ls)], List.length ls)
  else
    let '(t, n, carry) := ruleAt gfm top l rest in
    let blanks := blankRun (skipn n (l :: rest)) in
    let gap := carry ++ rawOf blanks in
    (match gap with
     | [] => [t]
     | [_] => [addRaw t [10]]
     | _ => [t; Other KSpace gap]
     end,
     (n + List.length blanks)%nat).

(** The tokens of the lines; the first [skip] lines have been read. *)
Fixpoint blocksFrom (gfm top : bool) (skip : nat) (ls : list Line) : list Token :=
  match ls with
  | [] => []
  | l :: rest =>
      match skip with
      | S k => blocksFrom gfm top k rest
      | O =>
          let (ts, n) := blockAt gfm top l rest in
          ts ++ blocksFrom gfm top (n - 1) rest
      end
  end.

Definition blockTokens (gfm top : bool) (s : str) : list Token :=
  blocksFrom gfm top 0 (linesOf s).

(** Modelled from the spec: the tokenizer ([marked.lexer] in the source,
    a dependency whose code is not in the repository).  Section 4.2 gives
    the blocks: fenced code, ATX headings, blockquotes, lists, horizontal
    rules, paragraphs, and a fallback node that keeps the text of any
    other construct.  The rules are those of marked, which the source
    imports: the blank lines between two blocks are a token of type
    [space], so that the raw texts of the tokens make up the document;
    raw HTML is a token of type [html]; a heading may be underlined
    (setext), code may be indented, and with the [gfm] option a header
    and a delimiter row open a table, a token of type [table].  Link
    reference definitions are left out: their lines are read as
    paragraphs. *)
Definition lexer (o : Marked.Options) (src : str) : list Token :=
  blockTokens (m_gfm o) true (newlines src).

(** *** Inline text *)

Definition escapeChar (c : N) : str :=
  if N.eqb c 38 then lit "&amp;"
  else if N.eqb c 60 then lit "&lt;"
  else if N.eqb c 62 then lit "&gt;"
  else if N.eqb c 34 then lit "&quot;"
  else if N.eqb c 39 then lit "&#39;"
  else [c].

Definition escape (s : str) : str := flat_map escapeChar s.

Definition isHex (c : N) : bool :=
  JS.isDigit c || (N.leb 65 c && N.leb c 70) || (N.leb 97 c && N.leb c 102).

(** After [&]: a character reference, up to its semicolon. *)
Definition isReference (s : str) : bool :=
  if JS.headIs 35 s then
    let r := tl s in
    let d := JS.takeWhile JS.isDigit r in
    (Nat.leb 1 (List.length d) && Nat.leb (List.length d) 7
     && JS.headIs 59 (skipn (List.length d) r))
    || match r with
       | x :: r' =>
           let h := JS.takeWhile isHex r' in
           (N.eqb x 120 || N.eqb x 88)
           && Nat.leb 1 (List.length h) && Nat.leb (List.length h) 6
           && JS.headIs 59 (skipn (List.length h) r')
       | [] => false
       end
  else
    let w := JS.takeWhile isWordChar s in
    Nat.leb 1 (List.length w) && JS.headIs 59 (skipn (List.length w) s).

(** Text is escaped, but for the [&] of a character reference. *)
Fixpoint escapeText (s : str) : str :=
  match s with
  | [] => []
  | c :: s' =>
      (if N.eqb c 38 && isReference s' then [c] else escapeChar c) ++ escapeText s'
  end.

(** The text before and after the first occurrence of [d]. *)
Fixpoint splitOn (d : str) (s : str) : option (str * str) :=
  if JS.startsWith d s then Some ([], skipn (List.length d) s)
  else match s with
       | [] => None
       | x :: s' =>
           match splitOn d s' with
           | Some (a, b) => Some (x :: a, b)
           | None => None
           end
       end.

(** A title after the destination of a link: in double quotes, in
    single quotes or in parentheses. *)
Definition titleOf (t : str) : option (str * str) :=
  match t with
  | q :: r =>
      if N.eqb q 34 || N.eqb q 39 || N.eqb q 40 then
        match splitOn [if N.eqb q 40 then 41 else q] r with
        | Some (title, rest) => Some (title, rest)
        | None => None
        end
      else None
  | [] => None
  end.

(** After [[]: the text, the destination, the title and the rest. *)
Definition linkOf (s : str) : option (str * str * option str * str) :=
  match splitOn (lit "](") s with
  | Some (text, r) =>
      let r1 := JS.dropWhile JS.isSpace r in
      let dest :=
        if JS.headIs 60 r1
        then match splitOn (lit ">") (tl r1) with
             | Some (d, _) => 60 :: d ++ [62]
             | None => []
             end
        else JS.takeWhile (fun c => negb (JS.isSpace c || N.eqb c 41 || N.ltb c 32)) r1 in
      let url := if JS.headIs 60 dest then rev (tl (rev (tl dest))) else dest in
      let r2 := skipn (List.length dest) r1 in
      let r3 := JS.dropWhile JS.isSpace r2 in
      match r3 with
      | c :: rest =>
          if N.eqb c 41 then Some (text, url, None, rest)
          else if Nat.eqb (List.length r2) (List.length r3) then None
          else
            match titleOf r3 with
            | Some (title, r4) =>
                match JS.dropWhile JS.isSpace r4 with
                | e :: rest' =>
                    if N.eqb e 41 then Some (text, url, Some title, rest') else None
                | [] => None
                end
            | None => None
            end
      | [] => None
      end
  | None => None
  end.

(** After [<]: a raw tag up to its [>] or a comment up to its end, and
    the rest. *)
Definition rawTagOf (s : str) : option (str * str) :=
  if isCommentStart s then
    match splitOn (lit "-->") (skipn 3 s) with
    | Some (body, rest) => Some (lit "<!--" ++ body ++ lit "-->", rest)
    | None => Some (60 :: s, [])
    end
  else
    match JS.skipChar 47 s with
    | c :: _ =>
        if JS.isAlpha c then
          match splitOn (lit ">") s with
          | Some (body, rest) => Some (60 :: body ++ lit ">", rest)
          | None => None
          end
        else None
    | [] => None
    end.

Definition isAlnum (c : N) : bool := JS.isAlpha c || JS.isDigit c.

(** After [<]: a link in angle brackets, a scheme and a colon and no
    space up to the [>], and the rest. *)
Definition autolinkOf (s : str) : option (str * str) :=
  let scheme := JS.takeWhile (fun c => isAlnum c || N.eqb c 43 || N.eqb c 46 || N.eqb c 45) s in
  match s with
  | c :: _ =>
      if JS.isAlpha c && Nat.leb 2 (List.length scheme) && Nat.leb (List.length scheme) 32
         && JS.headIs 58 (skipn (List.length scheme) s)
      then
        let url := JS.takeWhile (fun x => negb (JS.isSpace x || N.ltb x 32 || N.eqb x 60
                                                || N.eqb x 62)) s in
        if JS.headIs 62 (skipn (List.length url) s)
        then Some (url, skipn (S (List.length url)) s)
        else None
      else None
  | [] => None
  end.

(** The punctuation that ends a sentence and not a link. *)
Definition isTrailing (c : N) : bool :=
  existsb (N.eqb c) [63; 33; 46; 44; 58; 59; 42; 95; 39; 34; 126; 41].

(** A link written out in the text: [http://], [https://], [ftp://] or
    [www.], a host name, and what follows up to a space or [<], without
    the punctuation at its end.  The address and the text of the link,
    and the rest. *)
Definition urlOf (s : str) : option (str * str * str) :=
  match find (fun p => JS.startsWith (lit p) s)
             ["http://"; "https://"; "ftp://"; "www."]%string with
  | Some p =>
      match skipn (String.length p) s with
      | c :: _ =>
          if isAlnum c || N.eqb c 45 then
            let whole := JS.takeWhile (fun x => negb (JS.isSpace x || N.eqb x 60)) s in
            let text := rev (JS.dropWhile isTrailing (rev whole)) in
            if Nat.ltb (String.length p) (List.length text) then
              Some (if String.eqb p "www." then lit "http://" ++ text else text,
                    text, skipn (List.length text) s)
            else None
          else None
      | [] => None
      end
  | None => None
  end.

(** The text before and after the first run of exactly [n] backticks;
    [run] is what is left of a run of another length. *)
Fixpoint closingRun (n : nat) (run : nat) (s : str) : option (str * str) :=
  match s with
  | [] => None
  | c :: s' =>
      let more (k : nat) :=
        match closingRun n k s' with
        | Some (a, b) => Some (c :: a, b)
        | None => None
        end in
      match run with
      | S k => more k
      | O =>
          if N.eqb c 96 then
            if Nat.eqb (countPrefix 96 s) n then Some ([], skipn n s)
            else more (countPrefix 96 s')
          else more O
      end
  end.

(** The text before and after the first occurrence of [d], when the text
    before is not empty. *)
Definition nonEmptySplit (d : str) (s : str) : option (str * str) :=
  match splitOn d s with
  | Some (x :: body, rest) => Some (x :: body, rest)
  | _ => None
  end.

(** Emphasis: the text up to the closing mark [d], which has no space
    at either end; an underscore does not close before a letter or a
    digit. *)
Definition emphasisOf (d : str) (s : str) : option (str * str) :=
  match nonEmptySplit d s with
  | Some (body, rest) =>
      if negb (JS.isSpace (hd 32 body)) && negb (JS.isSpace (hd 32 (rev body)))
         && negb (JS.headIs 95 d
                  && match rest with x :: _ => isAlnum x | [] => false end)
      then Some (body, rest)
      else None
  | None => None
  end.

(** The inline spans of section 4.2, and the pieces of text that are not
    spans: raw HTML tags, line breaks, escaped characters and words. *)
Inductive span :=
| SCode (code : str)
| SImage (alt url : str) (title : option str)
| SLink (text url : str) (title : option str)
| SUrl (text url : str)
| SStrong (body : str)
| SEm (body : str)
| SDel (body : str)
| SHtml (tag : str)
| SBreak
| SChar (c : N)
| SText (c : N)
| SRun (text : str).

(** The text inside a span that is rendered in its turn. *)
Definition inner (sp : span) : str :=
  match sp with
  | SLink text _ _ => text
  | SStrong body | SEm body | SDel body => body
  | _ => []
  end.

(** A line feed breaks the line when something other than whitespace
    follows it. *)
Definition breaksLine (after : str) : bool := negb (allSpace after).

(** The span that starts with the code unit [c], followed by [s'], and
    the text after the span.  With the [breaks] option a line feed breaks
    the line; two spaces or a backslash before it always do.  With the
    [gfm] option a link written out in the text is a link, and tildes
    strike text through. *)
Definition nextSpan (o : Options) (c : N) (s' : str) : span * str :=
  let plain := (SText c, s') in
  if N.eqb c 96 then
    let n := countPrefix 96 s' in
    match closingRun (S n) 0 (skipn n s') with
    | Some (x :: code, rest) => (SCode (x :: code), rest)
    | _ => (SRun (List.repeat 96 (S n)), skipn n s')
    end
  else if N.eqb c 33 && JS.headIs 91 s' then
    match linkOf (tl s') with
    | Some (alt, url, title, rest) => (SImage alt url title, rest)
    | None => plain
    end
  else if N.eqb c 91 then
    match linkOf s' with
    | Some (text, url, title, rest) => (SLink text url title, rest)
    | None => plain
    end
  else if N.eqb c 42 || N.eqb c 95 then
    if JS.headIs c s' then
      match emphasisOf [c; c] (tl s') with
      | Some (body, rest) => (SStrong body, rest)
      | None => (SRun [c; c], tl s')
      end
    else
      match emphasisOf [c] s' with
      | Some (body, rest) => (SEm body, rest)
      | None => plain
      end
  else if N.eqb c 126 && m_gfm o then
    let d := if JS.headIs 126 s' then [c; c] else [c] in
    match emphasisOf d (skipn (List.length d - 1) s') with
    | Some (body, rest) =>
        if existsb (N.eqb 126) body || JS.headIs 126 rest
        then (SRun d, skipn (List.length d - 1) s')
        else (SDel body, rest)
    | None => (SRun d, skipn (List.length d - 1) s')
    end
  else if N.eqb c 60 then
    match autolinkOf s' with
    | Some (url, rest) => (SUrl url url, rest)
    | None =>
        match rawTagOf s' with
        | Some (tag, rest) => (SHtml tag, rest)
        | None => plain
        end
    end
  else if N.eqb c 10 then
    if m_breaks o && breaksLine s' then (SBreak, s') else plain
  else if N.eqb c 32 then
    let after := JS.dropWhile isSp s' in
    if JS.headIs 10 after && breaksLine (tl after)
       && (m_breaks o || negb (JS.headIs 10 s'))
    then (SBreak, tl after) else plain
  else if N.eqb c 92 then
    match s' with
    | d :: r =>
        if N.eqb d 10 && breaksLine r then (SBreak, r)
        else if isPunct d then (SChar d, r)
        else plain
    | [] => plain
    end
  else if isAlnum c then
    match (if m_gfm o then urlOf (c :: s') else None) with
    | Some (url, text, _) => (SUrl text url, skipn (List.length text - 1) s')
    | None =>
        let word := JS.takeWhile (fun x => isAlnum x || N.eqb x 95) s' in
        (SRun (c :: word), skipn (List.length word) s')
    end
  else plain.

(** The text of a code span: line feeds are spaces, and one space at
    each end goes when there is one at both and the text is not all
    spaces. *)
Definition codeText (code : str) : str :=
  let text := List.map (fun c => if N.eqb c 10 then 32 else c) code in
  if negb (forallb isSp text) && JS.headIs 32 text && JS.headIs 32 (rev text)
  then rev (tl (rev (tl text)))
  else text.

Definition renderHtml (R : Renderer) (raw : str) : str :=
  match r_html R with
  | Some f => f raw
  | None => raw
  end.

Definition titleAttr (title : option str) : str :=
  match title with
  | Some (c :: t) => lit " title=" ++ JS.dq ++ (c :: t) ++ JS.dq
  | _ => []
  end.

Definition renderLink (R : Renderer) (href : str) (title : option str) (text : str) : str :=
  match r_link R with
  | Some f => f href title text
  | None =>
      lit "<a href=" ++ JS.dq ++ escape href ++ JS.dq ++ titleAttr title
      ++ lit ">" ++ text ++ lit "</a>"
  end.

Definition renderImage (R : Renderer) (href : str) (title : option str) (text : str) : str :=
  match r_image R with
  | Some f => f href title text
  | None =>
      lit "<img src=" ++ JS.dq ++ escape href ++ JS.dq
      ++ lit " alt=" ++ JS.dq ++ text ++ JS.dq ++ titleAttr title ++ lit ">"
  end.

Definition element (name : string) (body : str) : str :=
  lit "<" ++ lit name ++ lit ">" ++ body ++ lit "</" ++ lit name ++ lit ">".

Definition escapedTitle (title : option str) : option str :=
  option_map (fun t => escapeText (unbackslash t)) title.

(** The inline renderer.  The title of a link or an image, and the text
    of an image, reach the renderer escaped.  With [plain] the spans are
    rendered as their text alone, as the library does for the [id] of a
    heading. *)
Fixpoint inline (fuel : nat) (R : Renderer) (o : Options) (plain : bool) (s : str)
  : str :=
  match fuel with
  | O => []
  | S f =>
      match s with
      | [] => []
      | c :: s' =>
          let (sp, rest) := nextSpan o c s' in
          match sp with
          | SCode code =>
              if plain then escape (codeText code)
              else element "code" (escape (codeText code))
          | SImage alt url title =>
              if plain then escapeText alt
              else renderImage R (unbackslash url) (escapedTitle title) (escapeText alt)
          | SLink text url title =>
              if plain then inline f R o plain text
              else renderLink R (unbackslash url) (escapedTitle title)
                              (inline f R o plain text)
          | SUrl text url =>
              if plain then escapeText text
              else renderLink R url None (escapeText text)
          | SStrong body =>
              if plain then inline f R o plain body
              else element "strong" (inline f R o plain body)
          | SEm body =>
              if plain then inline f R o plain body
              else element "em" (inline f R o plain body)
          | SDel body =>
              if plain then inline f R o plain body
              else element "del" (inline f R o plain body)
          | SHtml tag => if plain then tag else renderHtml R tag
          | SBreak => if plain then [] else lit "<br>"
          | SChar x => escapeChar x
          | SText x => if N.eqb x 38 && isReference rest then [x] else escapeChar x
          | SRun text => text
          end ++ inline f R o plain rest
      end
  end.

Definition inlineText (R : Renderer) (o : Options) (s : str) : str :=
  inline (S (List.length s)) R o false s.

Definition inlinePlain (R : Renderer) (o : Options) (s : str) : str :=
  inline (S (List.length s)) R o true s.

(** *** The [id] of a heading *)

Definition hexValue (c : N) : N :=
  if JS.isDigit c then c - 48
  else if N.leb 97 c then c - 87 else c - 55.

Definition numberOf (base : N) (digits : str) : N :=
  fold_left (fun n c => n * base + hexValue c) digits 0.

(** After [&]: what the reference stands for in an [id], and the number
    of code units of the reference. *)
Definition referenceAt (s : str) : option (str * nat) :=
  let semi (n : nat) := if JS.headIs 59 (skipn n s) then S n else n in
  if JS.headIs 35 s then
    let r := tl s in
    match JS.takeWhile JS.isDigit r with
    | (_ :: _) as d =>
        Some ([N.modulo (numberOf 10 d) 65536], semi (S (List.length d)))
    | [] =>
        match r with
        | x :: r' =>
            match JS.takeWhile isHex r' with
            | (_ :: _) as h =>
                if N.eqb x 120 || N.eqb x 88
                then Some ([N.modulo (numberOf 16 h) 65536],
                           semi (S (S (List.length h))))
                else None
            | [] => None
            end
        | [] => None
        end
    end
  else
    match JS.takeWhile isWordChar s with
    | (_ :: _) as w =>
        Some (if JS.eqb (lower w) (lit "colon") then lit ":" else [],
              semi (List.length w))
    | [] => None
    end.

(** The character references of a text, replaced. *)
Fixpoint unescapeFrom (skip : nat) (s : str) : str :=
  match s with
  | [] => []
  | c :: s' =>
      match skip with
      | S k => unescapeFrom k s'
      | O =>
          if N.eqb c 38 then
            match referenceAt s' with
            | Some (text, n) => text ++ unescapeFrom n s'
            | None => c :: unescapeFrom 0 s'
            end
          else c :: unescapeFrom 0 s'
      end
  end.

Definition unescape (s : str) : str := unescapeFrom 0 s.

(** The tags of a text, removed: from [<] and a letter, [/] or [!] to
    the next [>] on the line. *)
Fixpoint untagFrom (skip : nat) (s : str) : str :=
  match s with
  | [] => []
  | c :: s' =>
      match skip with
      | S k => untagFrom k s'
      | O =>
          if N.eqb c 60
             && match s' with
                | d :: _ => JS.isAlpha d || N.eqb d 33 || N.eqb d 47
                | [] => false
                end
          then
            let body := JS.takeWhile (fun x => negb (N.eqb x 62 || JS.isLineTerminator x))
                                     (tl s') in
            if JS.headIs 62 (skipn (List.length body) (tl s'))
            then untagFrom (S (S (List.length body))) s'
            else c :: untagFrom 0 s'
          else c :: untagFrom 0 s'
      end
  end.

Definition isSlugPunct (c : N) : bool :=
  (N.leb 8192 c && N.leb c 8303) || (N.leb 11776 c && N.leb c 11903)
  || (isPunct c && negb (N.eqb c 45) && negb (N.eqb c 95)).

Definition slugOf (s : str) : str :=
  List.map (fun c => if JS.isSpace c then 45 else c)
           (filter (fun c => negb (isSlugPunct c))
                   (untagFrom 0 (JS.trim (lower s)))).

(** The slugs given out so far, each with the number of its repeats. *)
Definition Seen := list (str * nat).

Fixpoint seenGet (k : str) (seen : Seen) : option nat :=
  match seen with
  | [] => None
  | (k', v) :: rest => if JS.eqb k k' then Some v else seenGet k rest
  end.

Fixpoint freeSlug (fuel : nat) (seen : Seen) (slug : str) (n : nat) : str * nat :=
  let candidate := slug ++ lit "-" ++ JS.ofNat (S n) in
  match fuel with
  | O => (candidate, S n)
  | S f =>
      match seenGet candidate seen with
      | Some _ => freeSlug f seen slug (S n)
      | None => (candidate, S n)
      end
  end.

Definition nextSlug (seen : Seen) (slug : str) : str * Seen :=
  match seenGet slug seen with
  | Some n =>
      let (fresh, n') := freeSlug (List.length seen) seen slug n in
      (fresh, (fresh, O) :: (slug, n') :: seen)
  | None => (slug, (slug, O) :: seen)
  end.

(** *** The HTML renderer *)

(** The number that an ordered list starts from. *)
Definition startOf (raw : str) : N :=
  numberOf 10 (JS.takeWhile JS.isDigit (JS.dropWhile isSp raw)).

Definition endsBlank (raw : str) : bool :=
  match JS.dropWhile isSp (rev raw) with
  | c :: r => N.eqb c 10 && JS.headIs 10 (JS.dropWhile isSp r)
  | [] => false
  end.

(** A list is loose when an item before the last ends with a blank line,
    or when the text of an item has one. *)
Fixpoint looseFrom (ended : bool) (items : list ListItem) : bool :=
  match items with
  | [] => false
  | i :: rest => ended || looseFrom (endsBlank (item_raw i)) rest
  end.

Definition hasBlankLine (gfm : bool) (text : str) : bool :=
  existsb (fun t =>
             match t with
             | Other KSpace raw => Nat.leb 2 (List.length (filter (N.eqb 10) raw))
             | _ => false
             end)
          (blockTokens gfm false text).

Definition isLoose (gfm : bool) (items : list ListItem) : bool :=
  looseFrom false items || existsb (fun i => hasBlankLine gfm (item_text i)) items.

(** The task marker of an item, read off its raw text. *)
Definition itemTask (gfm : bool) (i : ListItem) : option bool :=
  if gfm then
    match bulletOf 3 (JS.takeWhile (fun c => negb (N.eqb c 10)) (item_raw i)) with
    | Some m => taskOf (JS.dropWhile isSp (m_rest m))
    | None => None
    end
  else None.

Definition checkbox (checked : bool) : str :=
  lit "<input " ++ (if checked then lit "checked=" ++ JS.dq ++ JS.dq ++ lit " " else [])
  ++ lit "disabled=" ++ JS.dq ++ JS.dq ++ lit " type=" ++ JS.dq ++ lit "checkbox"
  ++ JS.dq ++ lit "> ".

Definition codeLang (lang : option str) : str :=
  match lang with
  | Some l => JS.takeWhile (fun c => negb (JS.isSpace c)) l
  | None => []
  end.

Section Blocks.
Variable R : Renderer.
Variable o : Options.
(** The blocks of a nested text, rendered. *)
Variable nested : bool -> Seen -> list Token -> str * Seen.

Definition renderItem (loose : bool) (seen : Seen) (i : ListItem) : str * Seen :=
  let tokens := blockTokens (m_gfm o) false (item_text i) in
  match itemTask (m_gfm o) i with
  | Some checked =>
      if loose then
        (* the box is a text token of its own, which the text after it joins *)
        match tokens with
        | Other KText text :: rest =>
            let (body, seen') := nested loose seen rest in
            (lit "<li>"
             ++ element "p" (checkbox checked ++ [10] ++ inlineText R o text)
             ++ [10] ++ body ++ lit "</li>" ++ [10], seen')
        | _ =>
            let (body, seen') := nested loose seen tokens in
            (lit "<li>" ++ element "p" (checkbox checked) ++ [10] ++ body
             ++ lit "</li>" ++ [10], seen')
        end
      else
        let (body, seen') := nested loose seen tokens in
        (lit "<li>" ++ checkbox checked ++ body ++ lit "</li>" ++ [10], seen')
  | None =>
      let (body, seen') := nested loose seen tokens in
      (lit "<li>" ++ body ++ lit "</li>" ++ [10], seen')
  end.

Fixpoint renderItems (loose : bool) (seen : Seen) (items : list ListItem) : str * Seen :=
  match items with
  | [] => ([], seen)
  | i :: rest =>
      let (a, seen1) := renderItem loose seen i in
      let (b, seen2) := renderItems loose seen1 rest in
      (a ++ b, seen2)
  end.

(** A table, from its raw text: the header, the delimiter row and the
    rows. *)
Definition alignOf (c : str) : str :=
  match JS.headIs 58 c, JS.headIs 58 (rev c) with
  | true, true => lit "center"
  | true, false => lit "left"
  | false, true => lit "right"
  | false, false => []
  end.

Definition renderCell (header : bool) (align body : str) : str :=
  let type := if header then "th"%string else "td"%string in
  lit "<" ++ lit type
  ++ match align with
     | [] => []
     | a => lit " align=" ++ JS.dq ++ a ++ JS.dq
     end
  ++ lit ">" ++ body ++ lit "</" ++ lit type ++ lit ">" ++ [10].

Definition renderRow (header : bool) (aligns : list str) (cells : list str) : str :=
  lit "<tr>" ++ [10]
  ++ flat_map (fun ca => renderCell header (alignOf (snd ca))
                                    (inlineText R o (fst ca)))
              (combine cells aligns)
  ++ lit "</tr>" ++ [10].

Definition renderTable (raw : str) : str :=
  match linesFrom [] raw with
  | h :: d :: rows =>
      match alignCells (l_text d) with
      | Some aligns =>
          let count := List.length aligns in
          let body :=
            flat_map (fun l => renderRow false aligns (splitCells count (l_text l)))
                     (filter (fun l => negb (allSpace (l_text l))) rows) in
          lit "<table>" ++ [10] ++ lit "<thead>" ++ [10]
          ++ renderRow true aligns (rowCells (l_text h))
          ++ lit "</thead>" ++ [10]
          ++ match body with
             | [] => []
             | _ => lit "<tbody>" ++ body ++ lit "</tbody>"
             end
          ++ lit "</table>" ++ [10]
      | None => []
      end
  | _ => []
  end.

Definition renderToken (top : bool) (seen : Seen) (t : Token) : str * Seen :=
  match t with
  | Heading _ depth text =>
      let h := lit "h" ++ JS.ofNat depth in
      let (id, seen') := nextSlug seen (slugOf (unescape (inlinePlain R o text))) in
      (lit "<" ++ h ++ lit " id=" ++ JS.dq ++ id ++ JS.dq ++ lit ">"
       ++ inlineText R o text ++ lit "</" ++ h ++ lit ">" ++ [10], seen')
  | Paragraph _ text => (element "p" (inlineText R o text) ++ [10], seen)
  | TList raw ordered items =>
      let l := if ordered then "ol"%string else "ul"%string in
      let start := startOf raw in
      let (body, seen') := renderItems (isLoose (m_gfm o) items) seen items in
      (lit "<" ++ lit l
       ++ (if ordered && negb (N.eqb start 1)
           then lit " start=" ++ JS.dq ++ JS.decimal start ++ JS.dq else [])
       ++ lit ">" ++ [10] ++ body ++ lit "</" ++ lit l ++ lit ">" ++ [10], seen')
  | Code _ lang text =>
      (lit "<pre><code"
       ++ match codeLang lang with
          | [] => []
          | l => lit " class=" ++ JS.dq ++ lit "language-" ++ escapeText l ++ JS.dq
          end
       ++ lit ">" ++ escape (rev (JS.skipChar 10 (rev text))) ++ [10]
       ++ lit "</code></pre>" ++ [10], seen)
  | Blockquote _ text =>
      let (body, seen') := nested true seen (blockTokens (m_gfm o) true text) in
      (lit "<blockquote>" ++ [10] ++ body ++ lit "</blockquote>" ++ [10], seen')
  | Hr _ => (lit "<hr>" ++ [10], seen)
  | Other KHtml raw => (renderHtml R raw, seen)
  | Other KText text =>
      let body := inlineText R o text in
      (if top then element "p" body ++ [10] else body, seen)
  | Other KTable raw => (renderTable raw, seen)
  | Other _ _ => ([], seen)
  end.

Fixpoint renderTokens (top : bool) (seen : Seen) (ts : list Token) : str * Seen :=
  match ts with
  | [] => ([], seen)
  | t :: rest =>
      let (a, seen1) := renderToken top seen t in
      let (b, seen2) := renderTokens top seen1 rest in
      (a ++ b, seen2)
  end.

End Blocks.

(** The blocks of a document, with those of blockquotes and list items
    down to the depth [fuel]. *)
Fixpoint blocks (fuel : nat) (R : Renderer) (o : Options)
         (top : bool) (seen : Seen) (ts : list Token) : str * Seen :=
  match fuel with
  | O => ([], seen)
  | S f => renderTokens R o (blocks f R o) top seen ts
  end.

(** The size of the texts in which a token can have blocks of its own:
    no nesting is deeper. *)
Definition depthOf (t : Token) : nat :=
  match t with
  | TList _ _ items => list_max (List.map (fun i => List.length (item_text i)) items)
  | Blockquote _ text => List.length text
  | _ => O
  end.

(** Modelled from the spec: the HTML renderer ([marked.parser] in the
    source).  Sections 4.2 and 4.3: blocks map to [h1..h6], [p],
    [ul/ol > li], [pre > code], [blockquote], [hr]; inline spans (bold,
    italic, inline code, links, images) are recognised at rendering time;
    links, images and raw HTML go through the renderer overrides of the
    source; other text is escaped.  As in marked, a heading carries an
    [id] made from its text (in lower case, for the letters of ASCII,
    without punctuation, with hyphens for spaces, and numbered when it
    comes again), the items of a loose list are paragraphs,
    the tokens of blank lines give no markup, and a table is written
    from its rows.  Reference links are left out, and emphasis is
    delimited by the next closing mark. *)
Definition parser (st : Marked.State) (tokens : list Token) : str :=
  fst (blocks (S (S (list_max (List.map depthOf tokens))))
              (s_renderer st) (s_options st) true [] tokens).

End MarkedModel.


Module PurifyModel.
Import DOMPurify.
Local Open Scope N_scope.

(** Modelled from the spec: the allow-list pass ([DOMPurify.sanitize] in
    the source, a dependency whose code is not in the repository).  By
    section 4.3 the markup is restricted to a fixed tag set and a fixed
    attribute set, and the forbidden tags and attributes are stripped
    even if allow-listed.  The settings that the source leaves at their
    defaults are those of DOMPurify: a removed element leaves its content
    behind, except [script], [style] and the like, whose content goes
    with them; [data-] and [aria-] attributes are kept beside the
    allow-listed ones; an allow-listed attribute that is not plain text
    keeps a value that is a link of a known scheme or no link at all;
    comments are removed.  The document is written back from its parsed
    form: character references are resolved, and [&], [<], [>] and the
    no-break space are written as references.  The model reads markup
    whose tags are balanced, as the renderer writes it; of the named
    references it knows [amp], [lt], [gt], [quot], [apos] and [nbsp]. *)
Record tag := mkTag {
  closing : bool;
  name : str;
  attrs : list (str * str)
}.

Definition isAlnum (c : N) : bool := JS.isAlpha c || JS.isDigit c.

(** A code unit of an attribute name. *)
Definition isAttrChar (c : N) : bool :=
  negb (JS.isSpace c || N.eqb c 61 || N.eqb c 62 || N.eqb c 47
        || N.eqb c 34 || N.eqb c 39 || N.eqb c 60).

Definition lower (s : str) : str := List.map JS.asciiLower s.

(** *** Character references *)

Definition references : list (string * N) :=
  [("amp;", 38); ("lt;", 60); ("gt;", 62); ("quot;", 34); ("apos;", 39);
   ("nbsp;", 160)]%string.

Definition isHex (c : N) : bool :=
  JS.isDigit c || (N.leb 65 c && N.leb c 70) || (N.leb 97 c && N.leb c 102).

Definition hexValue (c : N) : N :=
  if JS.isDigit c then c - 48
  else if N.leb 97 c then c - 87 else c - 55.

Definition numberOf (base : N) (digits : str) : N :=
  fold_left (fun n c => n * base + hexValue c) digits 0.

(** The code units of a code point. *)
Definition codeUnits (n : N) : str :=
  if N.eqb n 0 || (N.leb 55296 n && N.leb n 57343) || N.ltb 1114111 n then [65533]
  else if N.leb n 65535 then [n]
  else [55296 + N.div (n - 65536) 1024; 56320 + N.modulo (n - 65536) 1024].

(** After [&]: the text that the reference stands for, and the number of
    code units of the reference. *)
Definition referenceAt (s : str) : option (str * nat) :=
  match find (fun r => JS.startsWith (lit (fst r)) s) references with
  | Some (n, c) => Some ([c], String.length n)
  | None =>
      if JS.headIs 35 s then
        let r := tl s in
        match JS.takeWhile JS.isDigit r with
        | (_ :: _) as d =>
            if JS.headIs 59 (skipn (List.length d) r)
            then Some (codeUnits (numberOf 10 d), S (S (List.length d)))
            else None
        | [] =>
            match r with
            | x :: r' =>
                match JS.takeWhile isHex r' with
                | (_ :: _) as h =>
                    if (N.eqb x 120 || N.eqb x 88)
                       && JS.headIs 59 (skipn (List.length h) r')
                    then Some (codeUnits (numberOf 16 h), S (S (S (List.length h))))
                    else None
                | [] => None
                end
            | [] => None
            end
        end
      else None
  end.

(** The text that a piece of markup stands for. *)
Fixpoint decodeFrom (skip : nat) (s : str) : str :=
  match s with
  | [] => []
  | c :: s' =>
      match skip with
      | S k => decodeFrom k s'
      | O =>
          if N.eqb c 38 then
            match referenceAt s' with
            | Some (text, n) => text ++ decodeFrom n s'
            | None => c :: decodeFrom 0 s'
            end
          else c :: decodeFrom 0 s'
      end
  end.

Definition decode (s : str) : str := decodeFrom 0 s.

(** Text, as it is written back. *)
Definition encodeChar (c : N) : str :=
  if N.eqb c 38 then lit "&amp;"
  else if N.eqb c 60 then lit "&lt;"
  else if N.eqb c 62 then lit "&gt;"
  else if N.eqb c 160 then lit "&nbsp;"
  else [c].

(** *** Tags *)

(** The text up to the first [d], and the text after it. *)
Fixpoint upTo (d : N) (s : str) : option (str * str) :=
  match s with
  | [] => None
  | x :: s' =>
      if N.eqb x d then Some ([], s')
      else match upTo d s' with
           | Some (a, b) => Some (x :: a, b)
           | None => None
           end
  end.

(** After [=]: the value of an attribute, quoted or not, and the text
    after it. *)
Definition valueOf (r : str) : option (str * str) :=
  match r with
  | q :: r' =>
      if N.eqb q 34 || N.eqb q 39 then upTo q r'
      else
        let v := JS.takeWhile (fun x => negb (JS.isSpace x || N.eqb x 62)) r in
        Some (v, skipn (List.length v) r)
  | [] => Some ([], [])
  end.

(** After the name of an attribute: its value, empty when there is no
    [=], and the text after it. *)
Definition afterName (r : str) : option (str * str) :=
  match r with
  | e :: r' => if N.eqb e 61 then valueOf r' else Some ([], r)
  | [] => Some ([], r)
  end.

(** The attributes of a tag up to its [>], and the text after it. *)
Fixpoint attrsOf (fuel : nat) (s : str) : option (list (str * str) * str) :=
  match fuel with
  | O => None
  | S f =>
      match JS.dropWhile JS.isSpace s with
      | [] => None
      | c :: rest =>
          if N.eqb c 62 then Some ([], rest)
          else if N.eqb c 47 then attrsOf f rest
          else
            let k := JS.takeWhile isAttrChar (c :: rest) in
            match k with
            | [] => None
            | _ :: _ =>
                match afterName (skipn (List.length k) (c :: rest)) with
                | Some (v, r) =>
                    match attrsOf f r with
                    | Some (l, r') => Some ((lower k, decode v) :: l, r')
                    | None => None
                    end
                | None => None
                end
            end
      end
  end.

(** After [<]: a tag and the text after it. *)
Definition tagOf (s : str) : option (tag * str) :=
  let s1 := JS.skipChar 47 s in
  match s1 with
  | c :: _ =>
      if JS.isAlpha c then
        let n := JS.takeWhile isAlnum s1 in
        match attrsOf (S (List.length s1)) (skipn (List.length n) s1) with
        | Some (l, rest) => Some (mkTag (JS.headIs 47 s) (lower n) l, rest)
        | None => None
        end
      else None
  | [] => None
  end.

Definition inList (l : list string) (s : str) : bool :=
  existsb (fun a => JS.eqb s (lit a)) l.

Definition tagAllowed (cfg : Config) (n : str) : bool :=
  inList (ALLOWED_TAGS cfg) n && negb (inList (FORBID_TAGS cfg) n).

(** *** Attributes *)

Definition isWordChar (c : N) : bool := JS.isAlpha c || JS.isDigit c || N.eqb c 95.

(** [data-] and a name of word characters, [-], [.] and code units from
    [U+00B7] on. *)
Definition isDataAttr (k : str) : bool :=
  JS.startsWith (lit "data-") k
  && negb (JS.isEmpty (skipn 5 k))
  && forallb (fun c => isWordChar c || N.eqb c 45 || N.eqb c 46 || N.leb 183 c)
             (skipn 5 k).

(** [aria-] and a name of word characters and [-]. *)
Definition isAriaAttr (k : str) : bool :=
  JS.startsWith (lit "aria-") k
  && negb (JS.isEmpty (skipn 5 k))
  && forallb (fun c => isWordChar c || N.eqb c 45) (skipn 5 k).

(** The attribute names that the pass keeps. *)
Definition attrAllowed (cfg : Config) (k : str) : bool :=
  (isDataAttr k && negb (inList (FORBID_ATTR cfg) k))
  || isAriaAttr k
  || (inList (ALLOWED_ATTR cfg) k && negb (inList (FORBID_ATTR cfg) k)).

(** The attributes whose value is never a link. *)
Definition uriSafe : list string :=
  ["alt"; "class"; "for"; "id"; "label"; "name"; "pattern"; "placeholder";
   "role"; "summary"; "title"; "value"; "style"; "xmlns"]%string.

Definition schemes : list string :=
  ["ftp:"; "ftps:"; "http:"; "https:"; "mailto:"; "tel:"; "callto:"; "sms:";
   "cid:"; "xmpp:"; "matrix:"]%string.

Definition isAttrSpace (c : N) : bool :=
  N.leb c 32 || N.eqb c 160 || N.eqb c 5760 || N.eqb c 6158
  || (N.leb 8192 c && N.leb c 8233) || N.eqb c 8287 || N.eqb c 12288.

Definition isSchemeChar (c : N) : bool :=
  JS.isAlpha c || N.eqb c 43 || N.eqb c 46 || N.eqb c 45.

(** A value that is a link of a known scheme, or no link with a scheme
    at all. *)
Definition uriAllowed (value : str) : bool :=
  let v := lower (filter (fun c => negb (isAttrSpace c)) value) in
  existsb (fun s => JS.startsWith (lit s) v) schemes
  || match v with
     | c :: _ =>
         negb (JS.isAlpha c)
         || negb (JS.headIs 58 (JS.dropWhile isSchemeChar v))
     | [] => false
     end.

Definition dataUriTags : list string :=
  ["audio"; "image"; "img"; "source"; "video"]%string.

(** The attributes of the tag [n] that the pass keeps. *)
Definition attrKept (cfg : Config) (n : str) (kv : str * str) : bool :=
  let k := fst kv in
  attrAllowed cfg k
  && ((isDataAttr k && negb (inList (FORBID_ATTR cfg) k))
      || isAriaAttr k
      || inList uriSafe k
      || uriAllowed (snd kv)
      || (inList ["src"; "href"; "xlink:href"]%string k
          && JS.startsWith (lit "data:") (snd kv) && inList dataUriTags n)
      || JS.isEmpty (snd kv)).

Definition keepAttrs (cfg : Config) (t : tag) : tag :=
  mkTag (closing t) (name t)
        (if closing t then []
         else filter (attrKept cfg (name t)) (attrs t)).

Definition escapeValue (c : N) : str :=
  if N.eqb c 38 then lit "&amp;"
  else if N.eqb c 34 then lit "&quot;"
  else if N.eqb c 60 then lit "&lt;"
  else if N.eqb c 62 then lit "&gt;"
  else if N.eqb c 160 then lit "&nbsp;"
  else [c].

Definition writeAttr (kv : str * str) : str :=
  lit " " ++ fst kv ++ lit "=" ++ JS.dq ++ flat_map escapeValue (snd kv) ++ JS.dq.

Definition writeTag (t : tag) : str :=
  60 :: (if closing t then [47] else []) ++ name t
     ++ flat_map writeAttr (attrs t) ++ [62].

(** *** The pass *)

(** The elements whose content goes with them. *)
Definition dropsContent : list string :=
  ["annotation-xml"; "audio"; "colgroup"; "desc"; "foreignobject"; "head";
   "iframe"; "math"; "mi"; "mn"; "mo"; "ms"; "mtext"; "noembed"; "noframes";
   "noscript"; "plaintext"; "script"; "style"; "svg"; "template"; "thead";
   "title"; "video"; "xmp"]%string.

(** The number of code units up to the end of the closing tag of [n],
    all of them when there is none. *)
Fixpoint throughClosing (n : str) (s : str) : nat :=
  match s with
  | [] => O
  | c :: s' =>
      if N.eqb c 60 && JS.startsWith (47 :: n) (lower s')
         && match skipn (S (List.length n)) s' with
            | x :: _ => negb (isAlnum x)
            | [] => true
            end
      then
        match upTo 62 s' with
        | Some (a, _) => S (S (List.length a))
        | None => S (List.length s')
        end
      else S (throughClosing n s')
  end.

(** The number of code units up to the end of a comment. *)
Fixpoint throughComment (s : str) : nat :=
  match s with
  | [] => O
  | _ :: s' => if JS.startsWith (lit "-->") s then 3%nat else S (throughComment s')
  end.

(** The document from [s], written back; the first [skip] code units
    have been read. *)
Fixpoint sanitizeFrom (skip : nat) (cfg : Config) (s : str) : str :=
  match s with
  | [] => []
  | c :: s' =>
      match skip with
      | S k => sanitizeFrom k cfg s'
      | O =>
          if N.eqb c 60 then
            if JS.startsWith (lit "!--") s' then
              sanitizeFrom (3 + throughComment (skipn 3 s')) cfg s'
            else if JS.headIs 33 s' || JS.headIs 63 s' then
              (* a declaration or a processing instruction is a comment *)
              sanitizeFrom (match upTo 62 s' with
                            | Some (a, _) => S (List.length a)
                            | None => List.length s'
                            end) cfg s'
            else
              match tagOf s' with
              | Some (t, rest) =>
                  let read := (List.length s' - List.length rest)%nat in
                  if tagAllowed cfg (name t)
                  then writeTag (keepAttrs cfg t) ++ sanitizeFrom read cfg s'
                  else if inList dropsContent (name t) && negb (closing t)
                  then sanitizeFrom (read + throughClosing (name t) rest) cfg s'
                  else sanitizeFrom read cfg s'
              | None => lit "&lt;" ++ sanitizeFrom 0 cfg s'
              end
          else if N.eqb c 38 then
            match referenceAt s' with
            | Some (text, n) => flat_map encodeChar text ++ sanitizeFrom n cfg s'
            | None => lit "&amp;" ++ sanitizeFrom 0 cfg s'
            end
          else encodeChar c ++ sanitizeFrom 0 cfg s'
      end
  end.

(** Modelled from the spec: [DOMPurify.sanitize], as the allow-list
    pass of section 4.3. *)
Definition sanitize (cfg : Config) (s : str) : str := sanitizeFrom 0 cfg s.

(** The names of the tags of a document: at every [<], the letters and
    digits that follow it (after [/] in a closing tag), lower-cased. *)
Definition tagNameAt (s : str) : str :=
  lower (JS.takeWhile isAlnum (JS.skipChar 47 s)).

Fixpoint tagNames (s : str) : list str :=
  match s with
  | [] => []
  | c :: s' =>
      if N.eqb c 60
      then match tagNameAt s' with
           | [] => tagNames s'
           | n => n :: tagNames s'
           end
      else tagNames s'
  end.

(** A document made of text without [<] and of tags that [cfg] allows,
    with allowed attributes only. *)
Inductive Clean (cfg : Config) : str -> Prop :=
| CleanNil : Clean cfg []
| CleanText c s : c <> 60 -> Clean cfg s -> Clean cfg (c :: s)
| CleanTag t s :
    tagAllowed cfg (name t) = true ->
    Forall (fun kv => attrAllowed cfg (fst kv) = true) (attrs t) ->
    Clean cfg s ->
    Clean cfg (writeTag t ++ s).

End PurifyModel.

Module URLModel.
Local Open Scope N_scope.

(** Modelled from the spec: the URL parser ([new URL(url)], part of the
    platform).  Section 4.1 uses the scheme of the parsed URL and the
    failure of the parse only; the model keeps the scheme: after leading
    and trailing spaces and control characters, a URL starts with a
    letter, goes on with letters, digits, [+], [-] or [.] and a colon, and
    its protocol is that scheme in lower case with the colon.  Anything
    else fails to parse, as a relative reference without a base does. *)
Definition isC0OrSpace (c : N) : bool := N.leb c 32.

Definition isSchemeChar (c : N) : bool :=
  JS.isAlpha c || JS.isDigit c || N.eqb c 43 || N.eqb c 45 || N.eqb c 46.

Definition schemeOf (url : str) : option str :=
  let s := JS.dropWhile isC0OrSpace url in
  match s with
  | c :: _ =>
      if JS.isAlpha c then
        let sch := JS.takeWhile isSchemeChar s in
        match skipn (List.length sch) s with
        | 58 :: _ => Some (List.map JS.asciiLower sch)
        | _ => None
        end
      else None
  | [] => None
  end.

(** Modelled from the spec: [new URL(url)], which throws when the
    string does not parse (section 4.1). *)
Definition newURL (url : str) : result URL :=
  match schemeOf url with
  | Some sch => Ok (mkURL (sch ++ [58]))
  | None => Throw (ErrorObj (lit "Invalid URL"))
  end.

End URLModel.

(** Modelled from the spec: the platform made of the three models
    above, none of which throws on a string. *)
Definition referencePlatform : Platform :=
  mkPlatform
    (fun o src => Ok (MarkedModel.lexer o src))
    (fun st tokens => Ok (MarkedModel.parser st tokens))
    (fun cfg html => Ok (PurifyModel.sanitize cfg html))
    URLModel.newURL.

(** A browser and a server-side run, at the same instant. *)
Definition browserEnv : Env := mkEnv true 1700000000000 (lit "2023-11-14T22:13:20.000Z") (lit "11/14/2023, 10:13:20 PM").
Definition serverEnv : Env := mkEnv false 1700000000000 (lit "2023-11-14T22:13:20.000Z") (lit "11/14/2023, 10:13:20 PM").

(* ===================================================================== *)
(** ** Specification-side definitions                                     *)
(* ===================================================================== *)

Module Spec.
Local Open Scope N_scope.

(** The filename rules in the words of the specification: every
    character outside [[A-Za-z0-9._-]] becomes [_], leading and trailing
    dots are stripped, the result is cut to 255 characters. *)
Definition isDot (c : N) : bool := N.eqb c 46.

Definition replaceUnsafe (c : N) : N := if Security.safeChar c then c else 95.

Definition stripLeadingDots (s : str) : str := JS.dropWhile isDot s.

Fixpoint stripTrailingDots (s : str) : str :=
  match s with
  | [] => []
  | x :: s' => if forallb isDot (x :: s') then [] else x :: stripTrailingDots s'
  end.

Definition sanitizeFilenameSpec (name : str) : str :=
  firstn 255 (stripTrailingDots (stripLeadingDots (List.map replaceUnsafe name))).

(** Calls on a rate limiter, each with the value of the clock it reads. *)
Inductive call := CanMakeRequest | GetRemainingRequests.

Definition step (rl : Security.RateLimiter) (c : call * Z) : Security.RateLimiter :=
  match fst c with
  | CanMakeRequest => snd (Security.canMakeRequest (snd c) rl)
  | GetRemainingRequests => snd (Security.getRemainingRequests (snd c) rl)
  end.

Definition run (calls : list (call * Z)) (rl : Security.RateLimiter)
  : Security.RateLimiter :=
  fold_left step calls rl.

(** The URLs that [sanitizeUrl] is to let through: they parse, and their
    scheme is [http], [https] or [mailto]. *)
Definition allowedUrl (P : Platform) (url : str) : Prop :=
  exists u, newURL P url = Ok u /\
            (protocol u = lit "http:" \/ protocol u = lit "https:"
             \/ protocol u = lit "mailto:").

(** The constructions of the repository: [new FileConverter()] in
    [ConversionPanel] and [new MarkdownParser()] in [MarkdownPreview],
    each of which configures the library again. *)
Inductive construction := NewFileConverter | NewPreviewParser.

Definition construct (P : Platform) (st : Marked.State) (c : construction)
  : Marked.State :=
  match c with
  | NewFileConverter => snd (Converters.newFileConverter P st)
  | NewPreviewParser => snd (MarkdownParser.new P MarkdownParser.noOptions st)
  end.

Definition configured (P : Platform) (cs : list construction) (st : Marked.State)
  : Marked.State :=
  fold_left (construct P) cs st.

(** The converter of the application, and the library as its constructor
    leaves it. *)
Definition appConverter (P : Platform) : Converters.FileConverter :=
  fst (Converters.newFileConverter P Marked.initial).

Definition appState (P : Platform) : Marked.State :=
  snd (Converters.newFileConverter P Marked.initial).

(** The state that every call on a rate limiter leaves behind: at most
    [maxRequests] timestamps, each younger than the window at the time
    [now] of that call. *)
Definition settled (now : Z) (rl : Security.RateLimiter) : Prop :=
  (Z.of_nat (List.length (Security.requests rl)) <= Security.maxRequests rl)%Z
  /\ Forall (fun t => (now - t < Security.windowMs rl)%Z) (Security.requests rl).

(** The lines of a rendered list: one per item, in order, each with its
    marker. *)
Definition listLines (ordered : bool) (items : list Marked.ListItem) : list str :=
  MarkdownParser.mapi
    (fun item index =>
       (if ordered then JS.ofNat (index + 1) ++ lit "."
        else MarkdownParser.bulletLiteral)
       ++ lit " " ++ Marked.item_text item) items.

(** [content.structure.children] of the object given to
    [JSON.stringify]. *)
Definition structureChildren (data : JSON.value) : option (list JSON.value) :=
  match JSON.get "content" data with
  | Some c =>
      match JSON.get "structure" c with
      | Some s =>
          match JSON.get "children" s with
          | Some ch => JSON.elements ch
          | None => None
          end
      | None => None
      end
  | None => None
  end.

(** The documents of the specification's examples. *)
Definition scenario : str :=
  lit "# Title

- a
- b

```js
console.log(1)
```".

Definition scriptExample : str :=
  lit "# Hi

<script>alert(1)</script>

Some *text*".

Definition onclickText : str :=
  lit "click <a onclick=" ++ JS.dq ++ lit "evil()" ++ JS.dq ++ lit ">here</a>".

(** A sanitizer configuration whose tag names are lower-case letters and
    digits and whose attribute names have no [<]. *)
Definition isLowerAlnum (c : N) : bool := JS.isLower c || JS.isDigit c.

Definition wellFormed (cfg : DOMPurify.Config) : bool :=
  forallb (fun a => negb (JS.isEmpty (lit a)) && forallb isLowerAlnum (lit a))
          (DOMPurify.ALLOWED_TAGS cfg)
  && forallb (fun a => forallb (fun c => negb (N.eqb c 60)) (lit a))
             (DOMPurify.ALLOWED_ATTR cfg).

(** A sanitizer that keeps to the allow-lists of the source: under the
    configuration that [parse] passes, what it returns is text and tags of
    the allow-list, with attributes that the configuration lets through. *)
Definition keepsAllowList (P : Platform) : Prop :=
  forall dirty clean,
    purify P MarkdownParser.purifyConfig dirty = Ok clean ->
    PurifyModel.Clean MarkdownParser.purifyConfig clean.

(** The parse of the example with a script, by the parser of the
    converter in a browser, on the reference platform. *)
Definition scriptParsed : MarkdownParser.ParsedMarkdown :=
  match MarkdownParser.parse referencePlatform
          (Converters.parser (appConverter referencePlatform))
          (appState referencePlatform) browserEnv scriptExample with
  | Ok r => r
  | Throw _ => MarkdownParser.mkParsed [] [] []
  end.

End Spec.

(* ===================================================================== *)
(** * The rest of the application                                         *)
(* ===================================================================== *)

(** The functions around the conversion core, from the same sources:
    - [lib/security.ts]: [validateFile];
    - [lib/converters.ts]: [detectMarkdownFeatures];
    - [lib/file-handler.ts]: [downloadFile], [downloadMultipleFiles],
      [validateFileType], [getFileExtension];
    - [components/FileUpload.tsx]: [handleFileSelection];
    - [components/ConversionPanel.tsx]: [handleConvertAll],
      [handleDownload], [downloadAll].

    What the browser does with a download, the reading of a file and
    [String.prototype.toLowerCase] are parameters. *)

(* ===================================================================== *)
(** ** More strings                                                       *)
(* ===================================================================== *)

Module Str.

(** [s.endsWith(suffix)] *)
Definition endsWith (suffix s : str) : bool := JS.startsWith (rev suffix) (rev s).

(** [s.lastIndexOf(c)] for a one-unit search string: [-1] when [c] is not
    in [s]. *)
Fixpoint lastIndexOf (c : N) (s : str) : Z :=
  match s with
  | [] => (-1)%Z
  | x :: s' =>
      let r := lastIndexOf c s' in
      if (0 <=? r)%Z then (r + 1)%Z
      else if N.eqb x c then 0%Z else (-1)%Z
  end.

(** [n >>> 0]: the integer [n] as an unsigned 32-bit integer. *)
Definition uint32 (n : Z) : Z := (n mod 2 ^ 32)%Z.

(** [s.slice(start)] for an integer [start]: a negative [start] counts
    from the end. *)
Definition slice (start : Z) (s : str) : str :=
  if (start <? 0)%Z
  then skipn (Z.to_nat (Z.max 0 (Z.of_nat (List.length s) + start))) s
  else skipn (Z.to_nat start) s.

(** [Math.round(n / d)] for integers [n] and [d > 0]: the nearest
    integer, halves going up. *)
Definition roundDiv (n d : Z) : Z := ((2 * n + d) / (2 * d))%Z.

(** How many times the code unit [c] occurs in [s]. *)
Definition occurrences (c : N) (s : str) : nat := List.length (filter (N.eqb c) s).

End Str.

(* ===================================================================== *)
(** ** lib/security.ts: the validation of files                           *)
(* ===================================================================== *)

Module Validation.
Local Open Scope Z_scope.

(** What the source reads of a [File]. *)
Record File := mkFile { size : Z; name : str; type : str }.

Record FileValidationResult := mkValidation {
  isValid : bool;
  error : option str
}.

Record FileValidationOptions := mkValidationOptions {
  o_maxSize : option Z;
  o_allowedExtensions : option (list str);
  o_maxContentLength : option Z
}.

Record Options := mkOptions {
  maxSize : Z;
  allowedExtensions : list str;
  maxContentLength : Z
}.

Definition DEFAULT_OPTIONS : Options :=
  mkOptions (10 * 1024 * 1024)
            [lit ".md"; lit ".markdown"; lit ".txt"]
            (1024 * 1024).

Definition noOptions : FileValidationOptions := mkValidationOptions None None None.

Definition orDefault {A} (d : A) (o : option A) : A :=
  match o with Some x => x | None => d end.

(** [{ ...DEFAULT_OPTIONS, ...options }] *)
Definition mergeOptions (o : FileValidationOptions) : Options :=
  mkOptions (orDefault (maxSize DEFAULT_OPTIONS) (o_maxSize o))
            (orDefault (allowedExtensions DEFAULT_OPTIONS) (o_allowedExtensions o))
            (orDefault (maxContentLength DEFAULT_OPTIONS) (o_maxContentLength o)).

Section WithLowerCase.
(** [String.prototype.toLowerCase], a function of the platform. *)
Variable toLowerCase : str -> str.

(** [validateFile] *)
Definition validateFile (file : File) (options : FileValidationOptions)
  : FileValidationResult :=
  let opts := mergeOptions options in
  if size file >? maxSize opts then
    mkValidation false
      (Some (lit "File size exceeds limit of "
             ++ JS.ofZ (Str.roundDiv (maxSize opts) (1024 * 1024)) ++ lit "MB"))
  else
    let fileName := toLowerCase (name file) in
    let hasValidExtension :=
      existsb (fun ext => Str.endsWith (toLowerCase ext) fileName)
              (allowedExtensions opts) in
    if negb hasValidExtension then
      mkValidation false
        (Some (lit "Invalid file type. Allowed: "
               ++ JS.join (lit ", ") (allowedExtensions opts)))
    else mkValidation true None.

End WithLowerCase.

End Validation.

(* ===================================================================== *)
(** ** lib/converters.ts: detectMarkdownFeatures                          *)
(* ===================================================================== *)

Module Features.
Import RegExp.

Record MarkdownFeatures := mkFeatures {
  hasHeaders : bool;
  hasLists : bool;
  hasCodeBlocks : bool;
  hasLinks : bool;
  hasImages : bool;
  hasTable : bool
}.

(** [.]: any code unit but a line terminator; [[\s\S]]: any code unit. *)
Definition dot (c : N) : bool := negb (JS.isLineTerminator c).
Definition any (c : N) : bool := true.

(** [/^#{1,6}\s/]: the bounded repetition, longest first. *)
Definition reHeaders : RegExp.t :=
  RegExp.mk
    (List.map (fun k => Bol :: List.repeat (one (isChr "#")) k ++ [one JS.isSpace])
              [6; 5; 4; 3; 2; 1]%nat)
    false.

(** [/^[\s]*[-*+]\s|^[\s]*\d+\.\s/m] *)
Definition reLists : RegExp.t :=
  RegExp.mk
    [[Bol; Cls JS.isSpace Star;
      one (fun c => isChr "-" c || isChr "*" c || isChr "+" c); one JS.isSpace];
     [Bol; Cls JS.isSpace Star; Cls JS.isDigit Plus; one (isChr "."); one JS.isSpace]]
    true.

(** [/```[\s\S]*?```/]; for [test] a lazy repetition matches where the
    greedy one does. *)
Definition reCodeBlocks : RegExp.t :=
  re1 (word "```" ++ [Cls any Star] ++ word "```").

(** [/\[.*?\]\(.*?\)/] *)
Definition linkBody : branch :=
  word "[" ++ [Cls dot Star] ++ word "](" ++ [Cls dot Star] ++ word ")".

Definition reLinks : RegExp.t := re1 linkBody.

(** [/!\[.*?\]\(.*?\)/] *)
Definition reImages : RegExp.t := re1 (word "!" ++ linkBody).

(** [/\|.*\|/] *)
Definition reTable : RegExp.t := re1 (word "|" ++ [Cls dot Star] ++ word "|").

Definition detectMarkdownFeatures (content : str) : MarkdownFeatures :=
  mkFeatures (test reHeaders content)
             (test reLists content)
             (test reCodeBlocks content)
             (test reLinks content)
             (test reImages content)
             (test reTable content).

End Features.

(* ===================================================================== *)
(** ** lib/file-handler.ts                                                *)
(* ===================================================================== *)

Module FileHandler.
Import Converters.

Record DownloadOptions := mkDownloadOptions {
  o_filename : option str;
  saveAsDialog : option bool
}.

Definition noOptions : DownloadOptions := mkDownloadOptions None None.

(** What the browser is asked to save: the content and type of the blob
    and the [download] name of the link. *)
Record Download := mkDownload {
  blobContent : str;
  blobType : str;
  downloadName : str
}.

Definition messageOf (e : thrown) (fallback : str) : str :=
  match e with
  | ErrorObj message => message
  | NonError => fallback
  end.

Section WithBrowser.
(** The [try] block of [downloadFile] (the blob, its URL, the temporary
    link and its click), as one action of the browser, which may throw. *)
Variable save : Download -> Exn.result unit.

(** [downloadFile] *)
Definition downloadFile (result : ConversionResult) (options : DownloadOptions)
  : Exn.result unit :=
  if negb (success result) then
    Throw (ErrorObj (JS.orElse (error result) (lit "Conversion failed")))
  else
    let filename := JS.orElse (o_filename options) (filename result) in
    let sanitizedFilename := Security.sanitizeFilename filename in
    match save (mkDownload (content result) (mimeType result) sanitizedFilename) with
    | Ok u => Ok u
    | Throw e =>
        Throw (ErrorObj (lit "Failed to download file: "
                         ++ messageOf e (lit "Unknown error")))
    end.

(** The loop of [downloadMultipleFiles]: a failed download ends it. *)
Fixpoint downloadEach (validResults : list ConversionResult) : Exn.result unit :=
  match validResults with
  | [] => Ok tt
  | result :: rest =>
      _ <- downloadFile result noOptions ;;
      downloadEach rest
  end.

(** [downloadMultipleFiles], without the pauses between the files *)
Definition downloadMultipleFiles (results : list ConversionResult) : Exn.result unit :=
  let validResults := filter success results in
  match validResults with
  | [] => Throw (ErrorObj (lit "No valid files to download"))
  | _ :: _ => downloadEach validResults
  end.

End WithBrowser.

Section WithLowerCase.
Variable toLowerCase : str -> str.

(** [validateFileType] *)
Definition validateFileType (file : Validation.File) : bool :=
  let allowedTypes :=
    [lit "text/markdown"; lit "text/plain"; lit "application/octet-stream"] in
  let allowedExtensions := [lit ".md"; lit ".markdown"; lit ".txt"] in
  if MarkdownParser.includes allowedTypes (Validation.type file) then true
  else
    let fileName := toLowerCase (Validation.name file) in
    existsb (fun ext => Str.endsWith ext fileName) allowedExtensions.

End WithLowerCase.

(** [getFileExtension] *)
Definition getFileExtension (filename : str) : str :=
  Str.slice (Str.uint32 (Str.lastIndexOf 46 filename - 1) + 2)%Z filename.

End FileHandler.

(* ===================================================================== *)
(** ** components/FileUpload.tsx and the actions of ConversionPanel       *)
(* ===================================================================== *)

Module FileUpload.
Import Validation.

(** The callback that [handleFileSelection] ends with. *)
Inductive callback :=
| OnError (message : str)
| OnFileRead (content filename : str).

(** The callback, and the state the component is left in. *)
Record Selection := mkSelection {
  called : callback;
  uploadedFile : option File;
  isProcessing : bool
}.

Section WithPlatform.
Variable toLowerCase : str -> str.
(** [FileHandler.readFile], awaited: the text of the file, or the error
    the promise is rejected with. *)
Variable readFile : File -> Exn.result str.

(** The [try] block of [handleFileSelection]: the callback, and the file
    given to [setUploadedFile] if any. *)
Definition selectionBody (file : File) : Exn.result (callback * option File) :=
  let validation := validateFile toLowerCase file Validation.noOptions in
  if negb (isValid validation) then
    Ok (OnError (JS.orElse (error validation) (lit "File validation failed")), None)
  else if negb (FileHandler.validateFileType toLowerCase file) then
    Ok (OnError (lit "Please select a markdown (.md), text (.txt), or markdown (.markdown) file"),
        None)
  else
    content <- readFile file ;;
    if Nat.eqb (List.length (JS.trim content)) 0 then
      Ok (OnError (lit "File appears to be empty"), None)
    else Ok (OnFileRead content (name file), Some file).

(** [handleFileSelection], from the state [uploaded] of [uploadedFile] *)
Definition handleFileSelection (uploaded : option File) (file : File) : Selection :=
  match selectionBody file with
  | Ok (cb, Some f) => mkSelection cb (Some f) false
  | Ok (cb, None) => mkSelection cb uploaded false
  | Throw e =>
      mkSelection (OnError (FileHandler.messageOf e (lit "Failed to read file")))
                  uploaded false
  end.

End WithPlatform.

End FileUpload.

Module PanelActions.
Import Converters ConversionPanel.

(** The three entries of [ConversionState], in the order of its keys. *)
Record ConversionState := mkPanel {
  html : FormatState;
  json : FormatState;
  txt : FormatState
}.

(** [ConversionFormat], the keys of [formatConfig] and of the state. *)
Inductive ConversionFormat := Html | Json | Txt.

Definition formatName (format : ConversionFormat) : str :=
  match format with
  | Html => lit "html"
  | Json => lit "json"
  | Txt => lit "txt"
  end.

(** [state[format]] and [{ ...state, [format]: entry }] *)
Definition getEntry (format : ConversionFormat) (state : ConversionState) : FormatState :=
  match format with
  | Html => html state
  | Json => json state
  | Txt => txt state
  end.

Definition setEntry (format : ConversionFormat) (entry : FormatState)
           (state : ConversionState) : ConversionState :=
  match format with
  | Html => mkPanel entry (json state) (txt state)
  | Json => mkPanel (html state) entry (txt state)
  | Txt => mkPanel (html state) (json state) entry
  end.

(** The state of a panel that has just been mounted. *)
Definition initialPanel : ConversionState :=
  mkPanel initialState initialState initialState.

Section WithConverter.
Variable P : Platform.
Variable converter : FileConverter.
Variable st : Marked.State.
(** The props of the panel. *)
Variables markdownContent originalFilename : str.

(** [handleConvert(format)] on the state of the panel; [env] is what the
    call observes of its environment. *)
Definition handleConvertIn (env : Env) (format : ConversionFormat)
           (state : ConversionState) : ConversionState :=
  setEntry format
           (handleConvert P converter st env markdownContent originalFilename
                          (formatName format) (getEntry format state))
           state.

(** [handleConvertAll]: the formats in the order of the keys of
    [formatConfig]; [env] gives the environment of each call. *)
Definition handleConvertAll (env : ConversionFormat -> Env)
           (state : ConversionState) : ConversionState :=
  fold_left (fun s format => handleConvertIn (env format) format s)
            [Html; Json; Txt] state.

(** The conversions asked of a panel, each with its environment. *)
Inductive request :=
| Convert (env : Env) (format : ConversionFormat)
| ConvertAll (env : ConversionFormat -> Env).

Definition serve (state : ConversionState) (r : request) : ConversionState :=
  match r with
  | Convert env format => handleConvertIn env format state
  | ConvertAll env => handleConvertAll env state
  end.

End WithConverter.

Section WithBrowser.
Variable save : FileHandler.Download -> Exn.result unit.

(** [handleDownload(format)], on the entry of [format]: the entry after
    the call, and whether [downloadFile] was called. *)
Definition handleDownload (state : FormatState) : FormatState * bool :=
  match result state with
  | Some r =>
      if success r then
        match FileHandler.downloadFile save r FileHandler.noOptions with
        | Ok _ => (state, true)
        | Throw e =>
            (mkState (result state) (isConverting state)
                     (Some (FileHandler.messageOf e (lit "Download failed"))),
             true)
        end
      else (state, false)
  | None => (state, false)
  end.

(** The results that [downloadAll] keeps. *)
Definition validResults (state : ConversionState) : list ConversionResult :=
  flat_map (fun st => match result st with
                      | Some r => if success r then [r] else []
                      | None => []
                      end)
           [html state; json state; txt state].

(** [downloadAll]: [None] when [downloadMultipleFiles] is not called. *)
Definition downloadAll (state : ConversionState) : option (Exn.result unit) :=
  match validResults state with
  | [] => None
  | rs => Some (FileHandler.downloadMultipleFiles save rs)
  end.

End WithBrowser.

End PanelActions.

(* ===================================================================== *)
(** ** Traces of the rate limiter                                         *)
(* ===================================================================== *)

Module Traces.
Import Security Spec.
Local Open Scope Z_scope.

(** The times of the requests that a sequence of calls admits. *)
Fixpoint admitted (calls : list (call * Z)) (rl : RateLimiter) : list Z :=
  match calls with
  | [] => []
  | (CanMakeRequest, now) :: rest =>
      (if fst (canMakeRequest now rl) then [now] else [])
      ++ admitted rest (snd (canMakeRequest now rl))
  | (GetRemainingRequests, now) :: rest =>
      admitted rest (snd (getRemainingRequests now rl))
  end.

(** A clock that never goes back: the times, from [t] on. *)
Fixpoint clockFrom (t : Z) (times : list Z) : Prop :=
  match times with
  | [] => True
  | x :: rest => t <= x /\ clockFrom x rest
  end.

(** The times in the window of length [w] that starts at [a]. *)
Definition inWindow (a w : Z) (t : Z) : bool := (a <=? t) && (t <? a + w).

End Traces.

(* ===================================================================== *)
(** ** What the matcher decides                                           *)
(* ===================================================================== *)

Module Matcher.
Import RegExp.

(** The code unit before the position that is reached by reading [pre]
    from a position that [prev] is before. *)
Fixpoint prevAfter (prev : option N) (pre : str) : option N :=
  match pre with
  | [] => prev
  | x :: pre' => prevAfter (Some x) pre'
  end.

(** [matches ml r prev s]: the sequence [r] matches a prefix of [s],
    [prev] being the code unit before [s]. *)
Fixpoint matches (ml : bool) (r : branch) (prev : option N) (s : str) : Prop :=
  match r with
  | [] => True
  | Bol :: r' => atBol ml prev = true /\ matches ml r' prev s
  | Eol :: r' => atEol ml s = true /\ matches ml r' prev s
  | Cls c One :: r' =>
      exists x t, s = x :: t /\ c x = true /\ matches ml r' (Some x) t
  | Cls c Star :: r' =>
      exists pre t, s = pre ++ t /\ forallb c pre = true
                    /\ matches ml r' (prevAfter prev pre) t
  | Cls c Plus :: r' =>
      exists x pre t, s = x :: pre ++ t /\ c x = true /\ forallb c pre = true
                      /\ matches ml r' (prevAfter (Some x) pre) t
  end.

(** A sequence without [^] and [$]. *)
Definition anchorFree (r : branch) : bool :=
  forallb (fun a => match a with Cls _ _ => true | _ => false end) r.

(** A class that does not tell an ASCII letter from its lower case. *)
Definition caseBlind (c : N -> bool) : Prop :=
  forall x, c (JS.asciiLower x) = c x.

Definition caseBlindAtom (a : atom) : Prop :=
  match a with
  | Cls c _ => caseBlind c
  | _ => False
  end.

End Matcher.

(** The shapes that [detectMarkdownFeatures] looks for. *)
Module Shapes.

(** A position at the start of the text or just after a line
    terminator; [before] is the text before it. *)
Definition lineStart (before : str) : Prop :=
  before = [] \/ exists b l, before = b ++ [l] /\ JS.isLineTerminator l = true.

(** [-], [*] or [+], then a white space. *)
Definition bulletMarker (item : str) : Prop :=
  exists m sp, item = [m; sp]
               /\ (m = JS.chr "-" \/ m = JS.chr "*" \/ m = JS.chr "+")
               /\ JS.isSpace sp = true.

(** Digits, a dot, then a white space. *)
Definition numberMarker (item : str) : Prop :=
  exists digits sp, item = digits ++ lit "." ++ [sp]
                    /\ digits <> [] /\ forallb JS.isDigit digits = true
                    /\ JS.isSpace sp = true.

(** No line terminator in [s]. *)
Definition oneLine (s : str) : Prop := forallb Features.dot s = true.

(** A line of text for [prettifyHTML]: not empty, without a line
    terminator, without white space at its ends and without two adjacent
    tags. *)
Definition textLine (s : str) : Prop :=
  s <> [] /\ oneLine s /\ JS.trim s = s /\ JS.includes (lit "><") s = false.

End Shapes.

(** The lower-casing of ASCII letters, which [toLowerCase] is on ASCII
    strings. *)
Definition asciiToLowerCase (s : str) : str := List.map JS.asciiLower s.

(* ===================================================================== *)
(** * Theorems                                                            *)
(* ===================================================================== *)

Unset Implicit Arguments.

(** ** Strings and the matcher *)

Lemma eqb_eq (a b : str) : JS.eqb a b = true <-> a = b.
Proof.
  revert b; induction a as [|x a IH]; intros [|y b]; simpl; split; intro H;
    try reflexivity; try discriminate.
  - apply andb_true_iff in H as [Hx Hr].
    apply N.eqb_eq in Hx; apply IH in Hr; congruence.
  - injection H as -> ->. rewrite N.eqb_refl. simpl. apply IH. reflexivity.
Qed.

Lemma eqb_refl (a : str) : JS.eqb a a = true.
Proof. apply eqb_eq. reflexivity. Qed.

Lemma skipn_takeWhile p (s : str) :
  skipn (List.length (JS.takeWhile p s)) s = JS.dropWhile p s.
Proof.
  induction s as [|x s IH]; simpl; [reflexivity|].
  destruct (p x); simpl; [apply IH | reflexivity].
Qed.

Lemma takeWhile_dropWhile p (s : str) :
  JS.takeWhile p s ++ JS.dropWhile p s = s.
Proof.
  induction s as [|x s IH]; simpl; [reflexivity|].
  destruct (p x); simpl; [now rewrite IH | reflexivity].
Qed.

Lemma takeWhile_all p (s : str) : forallb p (JS.takeWhile p s) = true.
Proof.
  induction s as [|x s IH]; simpl; [reflexivity|].
  destruct (p x) eqn:E; simpl; [now rewrite E | reflexivity].
Qed.

(** The matcher on a few strings. *)
Example test_script_tag :
  RegExp.test (nth 0 Security.suspiciousPatterns (RegExp.re1 []))
              (lit "x <SCRIPT src=a.js> y") = true.
Proof. vm_compute. reflexivity. Qed.

Example test_onload_spaced :
  Security.detectMaliciousContent (lit "<body ONLOAD  = go()>") = true
  /\ Security.detectMaliciousContent (lit "download the script") = false.
Proof. split; vm_compute; reflexivity. Qed.

Example replace_extension :
  RegExp.replace Converters.reExtension [] (lit "notes.v2.md") = lit "notes.v2"
  /\ RegExp.replace Converters.reExtension [] (lit "dir.d/notes") = lit "dir.d/notes".
Proof. split; vm_compute; reflexivity. Qed.

Example replaceAll_empty_matches :
  RegExp.replaceAll (RegExp.re1 [RegExp.Cls (RegExp.isChr "X") RegExp.Star])
                    (lit "-") (lit "aXb") = lit "-a--b-".
Proof. vm_compute. reflexivity. Qed.

Example prettifyHTML_lines :
  Converters.prettifyHTML (lit "<ul><li>a</li>
   <li>b</li>  </ul>")
  = lit "<ul>
<li>a</li>
<li>b</li>  </ul>".
Proof. vm_compute. reflexivity. Qed.

Section FilenamePatterns.
Import RegExp Security Spec.

Lemma isChr_dot x : isChr "." x = isDot x.
Proof. apply N.eqb_sym. Qed.

Lemma forallb_isChr_dot s : forallb (isChr ".") s = forallb isDot s.
Proof.
  induction s as [|x s IH]; simpl; [reflexivity|].
  now rewrite isChr_dot, IH.
Qed.

Lemma takeWhile_ext p q (s : str) :
  (forall x, p x = q x) -> JS.takeWhile p s = JS.takeWhile q s.
Proof.
  intro H; induction s as [|x s IH]; simpl; [reflexivity|].
  rewrite H, IH. reflexivity.
Qed.

(** With nothing behind it, a greedy class takes the whole run. *)
Lemma greedy_run c prev s :
  greedy c (matchHere false []) prev s = Some (List.length (JS.takeWhile c s)).
Proof.
  revert prev; induction s as [|x s IH]; intro prev; simpl; [reflexivity|].
  destruct (c x); simpl; [now rewrite IH | reflexivity].
Qed.

(** Before the end anchor, a greedy class must take everything. *)
Lemma greedy_to_end c prev s :
  greedy c (matchHere false [Eol]) prev s =
  if forallb c s then Some (List.length s) else None.
Proof.
  revert prev; induction s as [|x s IH]; intro prev; simpl; [reflexivity|].
  destruct (c x); simpl; [|reflexivity].
  rewrite IH. destruct (forallb c s); reflexivity.
Qed.

(** [/[^a-zA-Z0-9._-]/g] replaces code unit by code unit. *)
Lemma replaceAll_unsafe prev s :
  replaceAllFrom reUnsafe (lit "_") prev s 0 = List.map replaceUnsafe s.
Proof.
  revert prev; induction s as [|x s IH]; intro prev; [reflexivity|].
  cbn [replaceAllFrom List.map]. unfold matchAt, replaceUnsafe. cbn.
  destruct (safeChar x); cbn; now rewrite IH.
Qed.

(** [/^\.+/] cannot match after the first position. *)
Lemma leading_only_at_start x s : search reLeadingDots (Some x) s = None.
Proof.
  revert x; induction s as [|y s IH]; intro x; cbn; [reflexivity|].
  now rewrite IH.
Qed.

Lemma replace_leading s : replace reLeadingDots [] s = stripLeadingDots s.
Proof.
  unfold replace, stripLeadingDots.
  destruct s as [|x s]; [reflexivity|].
  cbn [search]. unfold matchAt. cbn [multiline alts reLeadingDots re1 matchAlts matchHere atBol].
  rewrite isChr_dot. cbn [JS.dropWhile].
  destruct (isDot x) eqn:E.
  - rewrite greedy_run. cbn [option_map firstn app Nat.add skipn].
    rewrite (takeWhile_ext _ isDot) by apply isChr_dot.
    apply skipn_takeWhile.
  - rewrite leading_only_at_start. reflexivity.
Qed.

Lemma matchAt_trailing prev s :
  matchAt reTrailingDots prev s =
  match s with
  | [] => None
  | _ :: _ => if forallb isDot s then Some (List.length s) else None
  end.
Proof.
  unfold matchAt. cbn [multiline alts reTrailingDots re1 matchAlts matchHere].
  destruct s as [|x s]; [reflexivity|].
  rewrite isChr_dot. cbn [forallb].
  destruct (isDot x); cbn [andb]; [|reflexivity].
  rewrite greedy_to_end, forallb_isChr_dot.
  destruct (forallb isDot s); reflexivity.
Qed.

Lemma replace_trailing_from prev s :
  match search reTrailingDots prev s with
  | Some (i, n) => firstn i s ++ [] ++ skipn (i + n) s
  | None => s
  end = stripTrailingDots s.
Proof.
  revert prev; induction s as [|x s IH]; intro prev; [reflexivity|].
  cbn [search stripTrailingDots]. rewrite matchAt_trailing.
  destruct (forallb isDot (x :: s)) eqn:E.
  - cbn [firstn app Nat.add]. apply skipn_all.
  - specialize (IH (Some x)).
    destruct (search reTrailingDots (Some x) s) as [[i n]|];
      cbn [firstn app Nat.add skipn] in *; congruence.
Qed.

Lemma replace_trailing s : replace reTrailingDots [] s = stripTrailingDots s.
Proof. apply replace_trailing_from. Qed.

(** The source and the wording of the specification agree. *)
Lemma sanitizeFilename_refines s : sanitizeFilename s = sanitizeFilenameSpec s.
Proof.
  unfold sanitizeFilename, sanitizeFilenameSpec, JS.substring0, replaceAll.
  now rewrite replaceAll_unsafe, replace_leading, replace_trailing.
Qed.

End FilenamePatterns.

(** ** Filename sanitization *)

Section Filenames.
Import Security Spec.

Lemma replaceUnsafe_safe c : safeChar (replaceUnsafe c) = true.
Proof. unfold replaceUnsafe. destruct (safeChar c) eqn:E; [exact E | reflexivity]. Qed.

Lemma all_dots_repeat s : forallb isDot s = true -> s = List.repeat 46%N (List.length s).
Proof.
  induction s as [|x s IH]; simpl; intro H; [reflexivity|].
  apply andb_true_iff in H as [Hx Hs]. apply N.eqb_eq in Hx. subst x.
  now rewrite <- IH.
Qed.

Lemma dropWhile_split p (s : str) :
  exists pre, s = pre ++ JS.dropWhile p s /\ forallb p pre = true.
Proof.
  exists (JS.takeWhile p s). split.
  - symmetry. apply takeWhile_dropWhile.
  - apply takeWhile_all.
Qed.

Lemma dropWhile_head p (s : str) c :
  hd_error (JS.dropWhile p s) = Some c -> p c = false.
Proof.
  induction s as [|x s IH]; simpl; [discriminate|].
  destruct (p x) eqn:E; [exact IH|]. simpl. intros [= <-]. exact E.
Qed.

Lemma stripTrailing_nil s : stripTrailingDots s = [] <-> forallb isDot s = true.
Proof.
  destruct s as [|x s]; cbn [stripTrailingDots]; [now split|].
  destruct (forallb isDot (x :: s)); split; congruence.
Qed.

Lemma stripTrailing_split s :
  exists k, s = stripTrailingDots s ++ List.repeat 46%N k.
Proof.
  induction s as [|x s [k IH]]; [exists O; reflexivity|].
  cbn [stripTrailingDots]. destruct (forallb isDot (x :: s)) eqn:E.
  - exists (List.length (x :: s)). now apply all_dots_repeat.
  - exists k. cbn [app]. now rewrite <- IH.
Qed.

Lemma stripTrailing_last s : List.last (stripTrailingDots s) 0%N <> 46%N.
Proof.
  induction s as [|x s IH]; [discriminate|].
  cbn [stripTrailingDots]. destruct (forallb isDot (x :: s)) eqn:E; [discriminate|].
  destruct (stripTrailingDots s) as [|y r] eqn:R.
  - apply stripTrailing_nil in R. cbn [forallb] in E. rewrite R, andb_true_r in E.
    cbn [List.last]. intros ->. discriminate.
  - exact IH.
Qed.

Lemma stripTrailing_head s c :
  hd_error (stripTrailingDots s) = Some c -> hd_error s = Some c.
Proof.
  destruct s as [|x s]; cbn [stripTrailingDots]; [discriminate|].
  destruct (forallb isDot (x :: s)); [discriminate | exact (fun H => H)].
Qed.

Lemma stripTrailing_incl s c : In c (stripTrailingDots s) -> In c s.
Proof.
  induction s as [|x s IH]; cbn [stripTrailingDots]; [easy|].
  destruct (forallb isDot (x :: s)); [easy|].
  intros [->|H]; [now left | right; auto].
Qed.

Lemma dropWhile_incl p (s : str) c : In c (JS.dropWhile p s) -> In c s.
Proof.
  induction s as [|x s IH]; simpl; [easy|].
  destruct (p x); [right; auto | exact (fun H => H)].
Qed.

Lemma firstn_head (s : str) n c :
  hd_error (firstn n s) = Some c -> hd_error s = Some c.
Proof. destruct n, s; simpl; congruence. Qed.

Lemma firstn_incl (s : str) n c : In c (firstn n s) -> In c s.
Proof.
  revert s; induction n as [|n IH]; intros [|x s]; simpl; try easy.
  intros [->|H]; [now left | right; auto].
Qed.

(** C5: [sanitizeFilename] replaces every code unit outside
    [[A-Za-z0-9._-]] by [_], strips the leading and the trailing dots and
    keeps at most 255 code units; on ["../../etc/passwd.md"] the result
    has no [/] and no leading dot. *)
Theorem C5_sanitizeFilename (name : str) :
  sanitizeFilename name
  = firstn 255 (stripTrailingDots (stripLeadingDots (List.map replaceUnsafe name)))
  /\ (exists i core k,
         List.map replaceUnsafe name
         = List.repeat 46%N i ++ core ++ List.repeat 46%N k
         /\ hd_error core <> Some 46%N
         /\ List.last core 0%N <> 46%N
         /\ sanitizeFilename name = firstn 255 core)
  /\ List.length (sanitizeFilename name) <= 255
  /\ Forall (fun c => safeChar c = true) (sanitizeFilename name)
  /\ ~ In 47%N (sanitizeFilename name)
  /\ hd_error (sanitizeFilename name) <> Some 46%N
  /\ sanitizeFilename (lit "../../etc/passwd.md") = lit "_.._etc_passwd.md"
  /\ JS.includes (lit "/") (sanitizeFilename (lit "../../etc/passwd.md")) = false
  /\ JS.startsWith (lit ".") (sanitizeFilename (lit "../../etc/passwd.md")) = false.
Proof.
  assert (Href := sanitizeFilename_refines name).
  unfold sanitizeFilenameSpec in Href.
  set (m := List.map replaceUnsafe name) in *.
  assert (Hsafe : forall c, In c (sanitizeFilename name) -> safeChar c = true).
  { intros c Hc. rewrite Href in Hc.
    apply firstn_incl, stripTrailing_incl, dropWhile_incl in Hc.
    apply in_map_iff in Hc as [d [<- _]]. apply replaceUnsafe_safe. }
  assert (Hhd : hd_error (stripTrailingDots (stripLeadingDots m)) <> Some 46%N).
  { intro H. apply stripTrailing_head, dropWhile_head in H. discriminate. }
  split; [exact Href|]. split; [|split; [|split; [|split; [|split]]]].
  - destruct (dropWhile_split isDot m) as [pre [Hm Hpre]].
    destruct (stripTrailing_split (stripLeadingDots m)) as [k Hk].
    exists (List.length pre), (stripTrailingDots (stripLeadingDots m)), k.
    repeat split.
    + rewrite <- Hk. rewrite <- (all_dots_repeat _ Hpre). exact Hm.
    + exact Hhd.
    + apply stripTrailing_last.
    + exact Href.
  - rewrite Href. apply firstn_le_length.
  - apply Forall_forall. exact Hsafe.
  - intro H. apply Hsafe in H. discriminate.
  - rewrite Href. intro H. apply firstn_head in H. now apply Hhd.
  - repeat split; vm_compute; reflexivity.
Qed.

End Filenames.

(** ** The rate limiter *)

Section RateLimiting.
Import Security Spec.
Local Open Scope Z_scope.

Lemma prune_In now rl t :
  In t (prune now rl) <-> In t (requests rl) /\ now - t < windowMs rl.
Proof.
  unfold prune. rewrite filter_In. rewrite Z.ltb_lt. reflexivity.
Qed.

Lemma prune_length now rl :
  (List.length (prune now rl) <= List.length (requests rl))%nat.
Proof. apply filter_length_le. Qed.

(** An admitted request is recorded after the timestamps that survive the
    pruning. *)
Lemma canMakeRequest_admits now rl :
  Z.of_nat (List.length (prune now rl)) < maxRequests rl ->
  canMakeRequest now rl
  = (true, mkRL (prune now rl ++ [now]) (maxRequests rl) (windowMs rl)).
Proof.
  intro H. unfold canMakeRequest.
  destruct (Z.geb_spec (Z.of_nat (List.length (prune now rl))) (maxRequests rl));
    [lia | reflexivity].
Qed.

(** A refused request is not recorded. *)
Lemma canMakeRequest_refuses now rl :
  maxRequests rl <= Z.of_nat (List.length (prune now rl)) ->
  canMakeRequest now rl
  = (false, mkRL (prune now rl) (maxRequests rl) (windowMs rl)).
Proof.
  intro H. unfold canMakeRequest.
  destruct (Z.geb_spec (Z.of_nat (List.length (prune now rl))) (maxRequests rl));
    [reflexivity | lia].
Qed.

(** C6: with [maxRequests = 2] and [windowMs = 1000], three calls within
    one window answer [true], [true], [false] and a call after the window
    of the accepted requests answers [true] again; in general a call
    prunes the timestamps of age [windowMs] or more, then admits and
    records the request when fewer than [maxRequests] remain, and refuses
    without recording otherwise. *)
Theorem C6_canMakeRequest (t1 t2 t3 t4 : Z) :
  t1 <= t2 <= t3 -> t3 - t1 < 1000 -> 1000 <= t4 - t2 ->
  (let rl0 := newRateLimiter (Some 2) (Some 1000) in
   let (r1, rl1) := canMakeRequest t1 rl0 in
   let (r2, rl2) := canMakeRequest t2 rl1 in
   let (r3, rl3) := canMakeRequest t3 rl2 in
   let (r4, rl4) := canMakeRequest t4 rl3 in
   [r1; r2; r3; r4] = [true; true; false; true]
   /\ requests rl3 = [t1; t2] /\ requests rl4 = [t4])
  /\ (forall now rl,
         (forall t, In t (prune now rl) <-> In t (requests rl) /\ now - t < windowMs rl)
         /\ (Z.of_nat (List.length (prune now rl)) < maxRequests rl ->
             canMakeRequest now rl
             = (true, mkRL (prune now rl ++ [now]) (maxRequests rl) (windowMs rl)))
         /\ (maxRequests rl <= Z.of_nat (List.length (prune now rl)) ->
             canMakeRequest now rl
             = (false, mkRL (prune now rl) (maxRequests rl) (windowMs rl)))).
Proof.
  intros H12 H31 H42. split.
  - unfold newRateLimiter, canMakeRequest, prune. cbn.
    replace (t2 - t1 <? 1000) with true by (symmetry; apply Z.ltb_lt; lia).
    cbn.
    replace (t3 - t1 <? 1000) with true by (symmetry; apply Z.ltb_lt; lia).
    replace (t3 - t2 <? 1000) with true by (symmetry; apply Z.ltb_lt; lia).
    cbn.
    replace (t4 - t1 <? 1000) with false by (symmetry; apply Z.ltb_ge; lia).
    replace (t4 - t2 <? 1000) with false by (symmetry; apply Z.ltb_ge; lia).
    cbn. repeat split.
  - intros now rl. split; [|split].
    + intro t. apply prune_In.
    + apply canMakeRequest_admits.
    + apply canMakeRequest_refuses.
Qed.

Lemma C6_canMakeRequest_witness :
  let rl0 := newRateLimiter (Some 2) (Some 1000) in
  let (r1, rl1) := canMakeRequest 0 rl0 in
  let (r2, rl2) := canMakeRequest 10 rl1 in
  let (r3, rl3) := canMakeRequest 999 rl2 in
  let (r4, rl4) := canMakeRequest 1010 rl3 in
  [r1; r2; r3; r4] = [true; true; false; true]
  /\ requests rl3 = [0; 10] /\ requests rl4 = [1010].
Proof.
  apply (C6_canMakeRequest 0 10 999 1010); lia.
Defined.

Lemma step_params rl c :
  maxRequests (step rl c) = maxRequests rl /\ windowMs (step rl c) = windowMs rl.
Proof.
  destruct c as [[|] now]; unfold step, canMakeRequest, getRemainingRequests; cbn;
    [destruct (_ >=? _)|]; split; reflexivity.
Qed.

Lemma run_params calls rl :
  maxRequests (run calls rl) = maxRequests rl /\ windowMs (run calls rl) = windowMs rl.
Proof.
  revert rl; induction calls as [|c calls IH]; intro rl; [split; reflexivity|].
  change (run (c :: calls) rl) with (run calls (step rl c)).
  destruct (IH (step rl c)) as [-> ->]. apply step_params.
Qed.

Lemma prune_young now rl :
  Forall (fun t => now - t < windowMs rl) (prune now rl).
Proof. apply Forall_forall. intros t H. apply prune_In in H. tauto. Qed.

(** One call: the bound on the length is kept, and what is retained is
    within the window of this call. *)
Lemma step_settled rl now k :
  0 < windowMs rl ->
  Z.of_nat (List.length (requests rl)) <= maxRequests rl ->
  settled now (step rl (k, now)).
Proof.
  intros Hw Hlen. pose proof (prune_length now rl) as Hp.
  pose proof (prune_young now rl) as Hy.
  destruct k; unfold step, settled; cbn [fst snd].
  - unfold canMakeRequest.
    destruct (Z.geb_spec (Z.of_nat (List.length (prune now rl))) (maxRequests rl));
      cbn [snd requests maxRequests windowMs].
    + split; [lia | exact Hy].
    + split.
      * rewrite length_app. cbn. lia.
      * apply Forall_app. split; [exact Hy|]. constructor; [lia | constructor].
  - unfold getRemainingRequests. cbn [snd requests maxRequests windowMs].
    split; [lia | exact Hy].
Qed.

Lemma run_length calls rl :
  0 < windowMs rl ->
  Z.of_nat (List.length (requests rl)) <= maxRequests rl ->
  Z.of_nat (List.length (requests (run calls rl))) <= maxRequests (run calls rl).
Proof.
  revert rl; induction calls as [|[k now] calls IH]; intros rl Hw Hlen; [exact Hlen|].
  change (run ((k, now) :: calls) rl) with (run calls (step rl (k, now))).
  destruct (step_params rl (k, now)) as [Hm Hwin].
  apply IH; [now rewrite Hwin|].
  apply (step_settled rl now k Hw Hlen).
Qed.

(** C10: after any sequence of [canMakeRequest] and
    [getRemainingRequests] calls on a fresh limiter, at most
    [maxRequests] timestamps are retained, each of them within [windowMs]
    of the time of the last call, which pruned; and
    [getRemainingRequests] answers between [0] and [maxRequests]. *)
Theorem C10_rate_limiter_invariant (maxR win : Z) (calls : list (call * Z)) :
  0 <= maxR -> 0 < win ->
  let rl := run calls (newRateLimiter (Some maxR) (Some win)) in
  Z.of_nat (List.length (requests rl)) <= maxR
  /\ (forall before k now,
         calls = before ++ [(k, now)] ->
         Forall (fun t => now - t < win) (requests rl))
  /\ (forall now,
         0 <= fst (getRemainingRequests now rl) <= maxR
         /\ fst (getRemainingRequests now rl)
            = maxR - Z.of_nat (List.length (prune now rl))).
Proof.
  intros Hm Hw rl.
  set (rl0 := newRateLimiter (Some maxR) (Some win)) in *.
  assert (H0 : Z.of_nat (List.length (requests rl0)) <= maxRequests rl0) by (cbn; lia).
  assert (Hw0 : 0 < windowMs rl0) by exact Hw.
  destruct (run_params calls rl0) as [HmaxR Hwin].
  fold rl in HmaxR, Hwin. cbn in HmaxR, Hwin.
  assert (Hlen : Z.of_nat (List.length (requests rl)) <= maxR).
  { rewrite <- HmaxR. apply run_length; assumption. }
  split; [exact Hlen|]. split.
  - intros before k now ->. unfold rl, run. rewrite fold_left_app. cbn [fold_left].
    fold (run before rl0).
    destruct (run_params before rl0) as [Hm' Hw'].
    destruct (step_settled (run before rl0) now k) as [_ Hy].
    + now rewrite Hw'.
    + apply run_length; assumption.
    + destruct (step_params (run before rl0) (k, now)) as [_ Hw''].
      rewrite Hw'', Hw' in Hy. exact Hy.
  - intro now. unfold getRemainingRequests. cbn [fst]. rewrite HmaxR.
    pose proof (prune_length now rl). split; lia.
Qed.

Lemma C10_rate_limiter_invariant_witness :
  let rl := run [(CanMakeRequest, 5); (GetRemainingRequests, 7); (CanMakeRequest, 70000)]
                rateLimiter in
  Z.of_nat (List.length (requests rl)) <= 10
  /\ (forall before k now,
         [(CanMakeRequest, 5); (GetRemainingRequests, 7); (CanMakeRequest, 70000)]
         = before ++ [(k, now)] ->
         Forall (fun t => now - t < 60000) (requests rl))
  /\ (forall now,
         0 <= fst (getRemainingRequests now rl) <= 10
         /\ fst (getRemainingRequests now rl)
            = 10 - Z.of_nat (List.length (prune now rl))).
Proof.
  apply (C10_rate_limiter_invariant 10 60000
           [(CanMakeRequest, 5); (GetRemainingRequests, 7); (CanMakeRequest, 70000)]);
    lia.
Defined.

End RateLimiting.

(** ** The plain-text and JSON renderers *)

Section Renderers.
Import Marked MarkdownParser Spec.

Lemma repeat_hash n : JS.repeat (lit "#") n = List.repeat 35%N n.
Proof. induction n as [|n IH]; [reflexivity|]. cbn. now rewrite <- IH. Qed.

Lemma mapi_from_nth {A B} (f : A -> nat -> B) (l : list A) (i k : nat) (x : A) :
  nth_error l k = Some x -> nth_error (mapi_from f i l) k = Some (f x (i + k)).
Proof.
  revert i k; induction l as [|y l IH]; intros i [|k]; cbn; try discriminate.
  - intros [= ->]. now rewrite Nat.add_0_r.
  - intro H. rewrite (IH (S i) k H). f_equal. f_equal. lia.
Qed.

Lemma mapi_from_length {A B} (f : A -> nat -> B) (l : list A) (i : nat) :
  List.length (mapi_from f i l) = List.length l.
Proof. revert i; induction l as [|y l IH]; intro i; cbn; [reflexivity | now rewrite IH]. Qed.

(** C8: what [tokenToPlainText] gives for each block, and how
    [toPlainText] joins the blocks.  Headings, ordered items, code
    blocks, blockquotes and rules are as the specification says; the
    marker of an unordered item is the three code units U+00E2 U+20AC
    U+00A2 of the source literal, not the bullet U+2022. *)
Theorem C8_plain_text_renderer :
  (forall raw n text,
      tokenToPlainText (Heading raw n text) = List.repeat 35%N n ++ lit " " ++ text)
  /\ (forall raw ordered items,
         tokenToPlainText (TList raw ordered items)
         = JS.join [10%N] (listLines ordered items)
         /\ List.length (listLines ordered items) = List.length items
         /\ forall k item,
             nth_error items k = Some item ->
             nth_error (listLines ordered items) k
             = Some ((if ordered then JS.ofNat (k + 1) ++ lit "." else [226; 8364; 162]%N)
                     ++ lit " " ++ item_text item))
  /\ (forall raw lang text,
         tokenToPlainText (Code raw (Some lang) text)
         = lit "```" ++ lang ++ [10%N] ++ text ++ [10%N] ++ lit "```")
  /\ (forall raw text,
         tokenToPlainText (Code raw None text)
         = lit "```" ++ [10%N] ++ text ++ [10%N] ++ lit "```")
  /\ (forall raw text, tokenToPlainText (Blockquote raw text) = lit "> " ++ text)
  /\ (forall raw, tokenToPlainText (Hr raw) = lit "---")
  /\ (forall tokens,
         toPlainText tokens = JS.join [10%N; 10%N] (List.map tokenToPlainText tokens))
  /\ tokenToPlainText
       (TList (lit "- a") false [mkItem (lit "- a") (lit "a")])
     = [226; 8364; 162; 32; 97]%N
  /\ tokenToPlainText
       (TList (lit "- a") false [mkItem (lit "- a") (lit "a")])
     <> [8226; 32; 97]%N
  /\ tokenToPlainText
       (TList (lit "1. a") true [mkItem (lit "1. a") (lit "a"); mkItem (lit "2. b") (lit "b")])
     = lit "1. a" ++ [10%N] ++ lit "2. b".
Proof.
  split; [|split; [|split; [|split; [|split; [|split; [|split; [|split; [|split]]]]]]]].
  - intros raw n text. cbn [tokenToPlainText]. now rewrite repeat_hash.
  - intros raw ordered items. split; [reflexivity|]. split.
    + apply mapi_from_length.
    + intros k item H. unfold listLines, mapi.
      rewrite (mapi_from_nth _ items 0 k item H). reflexivity.
  - intros raw lang text. cbn [tokenToPlainText]. destruct lang; reflexivity.
  - reflexivity.
  - reflexivity.
  - reflexivity.
  - reflexivity.
  - vm_compute. reflexivity.
  - vm_compute. discriminate.
  - vm_compute. reflexivity.
Qed.

(** The discriminant and the typed fields of a child, read back by
    property access. *)
Lemma tokenToJSON_type t : JSON.get "type" (tokenToJSON t) = Some (JStr (lit (type t))).
Proof. destruct t; reflexivity. Qed.

End Renderers.

Section JsonRenderer.
Import Marked MarkdownParser Converters Spec.

Lemma structureChildren_jsonData env parsed base options :
  structureChildren (jsonData env parsed base options)
  = Some (List.map tokenToJSON (tokens parsed)).
Proof. reflexivity. Qed.

(** The children of the scenario of the specification: the heading, the
    list, the blank line between the list and the code, and the code. *)
Lemma scenario_children env name meta :
  exists parsed,
    parse referencePlatform (parser (appConverter referencePlatform))
          (appState referencePlatform) env scenario = Ok parsed
    /\ structureChildren
         (jsonData env parsed (getBaseFilename env name)
                   (mkConvOptions name (Some true) meta))
       = Some [JObj [("type"%string, JStr (lit "heading"));
                                ("level"%string, JNum 1);
                                ("text"%string, JStr (lit "Title"))];
                          JObj [("type"%string, JStr (lit "list"));
                                ("ordered"%string, JBool false);
                                ("items"%string,
                                 JArr [JObj [("type"%string, JStr (lit "list_item"));
                                             ("text"%string, JStr (lit "a"))];
                                       JObj [("type"%string, JStr (lit "list_item"));
                                             ("text"%string, JStr (lit "b"))]])];
                          JObj [("type"%string, JStr (lit "space"));
                                ("raw"%string, JStr [10%N; 10%N])];
                          JObj [("type"%string, JStr (lit "code"));
                                ("language"%string, JStr (lit "js"));
                                ("code"%string, JStr (lit "console.log(1)"))]].
Proof.
  destruct env as [w now iso loc].
  assert (Hp : exists parsed,
             parse referencePlatform (parser (appConverter referencePlatform))
                   (appState referencePlatform) (mkEnv w now iso loc) scenario
             = Ok parsed
             /\ List.map tokenToJSON (tokens parsed)
                = List.map tokenToJSON
                    (MarkedModel.lexer (Marked.mkOptions true true false) scenario)).
  { destruct w; eexists; split; vm_compute; reflexivity. }
  destruct Hp as [parsed [Hp Ht]]. exists parsed. split; [exact Hp|].
  rewrite structureChildren_jsonData, Ht. vm_compute. reflexivity.
Qed.

(** C7, as stated, fails for the scenario: the children are four and not
    three.  The blank line between the list and the code block is a token
    of its own, of type [space], which the renderer writes with its [type]
    and its [raw] text as it does any token without a case of its own; the
    code block is the fourth child, and the third has no language. *)
Lemma C7_counterexample :
  exists parsed,
    parse referencePlatform (parser (appConverter referencePlatform))
          (appState referencePlatform) browserEnv scenario = Ok parsed
    /\ (let options := mkConvOptions None (Some true) None in
        let data := jsonData browserEnv parsed (getBaseFilename browserEnv None) options in
        option_map (List.map (JSON.get "type")) (structureChildren data)
        = Some [Some (JStr (lit "heading")); Some (JStr (lit "list"));
                Some (JStr (lit "space")); Some (JStr (lit "code"))]
        /\ option_map (@List.length JSON.value) (structureChildren data) = Some 4%nat
        /\ ~ (exists a b c, structureChildren data = Some [a; b; c])
        /\ option_map (fun children => JSON.get "language" (nth 2 children JNull))
                      (structureChildren data)
           = Some None
        /\ option_map (fun children => JSON.get "language" (nth 3 children JNull))
                      (structureChildren data)
           = Some (Some (JStr (lit "js")))).
Proof.
  destruct (scenario_children browserEnv None None) as [parsed [Hp Hc]].
  exists parsed. split; [exact Hp|]. cbv zeta. rewrite Hc.
  split; [reflexivity|]. split; [reflexivity|].
  split; [intros [a [b [c H]]]; discriminate|]. split; reflexivity.
Qed.

(** C7, amended: the JSON renderer gives [{type: "document", children}]
    with one child per token, in order; a child carries its discriminant
    and its typed fields, and a token without a case of its own carries
    [type] and [raw]; in the content of a JSON conversion,
    [content.structure.children] is that list.  The scenario of the
    specification, converted with [prettify], has the four children
    [heading], [list], [space], [code]: the blank line between the list
    and the code is a child with its [raw] text, and the code, with
    language [js], is the last. *)
Theorem C7_json_renderer :
  (forall tokens,
      toJSON tokens
      = JObj [("type"%string, JStr (lit "document"));
              ("children"%string, JArr (List.map tokenToJSON tokens))])
  /\ (forall t, JSON.get "type" (tokenToJSON t) = Some (JStr (lit (type t))))
  /\ (forall raw depth text,
         tokenToJSON (Heading raw depth text)
         = JObj [("type"%string, JStr (lit "heading"));
                 ("level"%string, JNum (Z.of_nat depth));
                 ("text"%string, JStr text)])
  /\ (forall raw text,
         tokenToJSON (Paragraph raw text)
         = JObj [("type"%string, JStr (lit "paragraph")); ("text"%string, JStr text)])
  /\ (forall raw ordered items,
         tokenToJSON (TList raw ordered items)
         = JObj [("type"%string, JStr (lit "list"));
                 ("ordered"%string, JBool ordered);
                 ("items"%string,
                  JArr (List.map
                          (fun item =>
                             JObj [("type"%string, JStr (lit "list_item"));
                                   ("text"%string, JStr (item_text item))])
                          items))])
  /\ (forall raw lang text,
         tokenToJSON (Code raw lang text)
         = JObj [("type"%string, JStr (lit "code"));
                 ("language"%string, JStr (JS.orElse lang (lit "text")));
                 ("code"%string, JStr text)])
  /\ (forall raw text,
         tokenToJSON (Blockquote raw text)
         = JObj [("type"%string, JStr (lit "blockquote")); ("text"%string, JStr text)])
  /\ (forall t,
         match t with
         | Hr _ | Other _ _ =>
             tokenToJSON t
             = JObj [("type"%string, JStr (lit (type t))); ("raw"%string, JStr (raw t))]
         | _ => True
         end)
  /\ (forall P this st env md name pretty meta parsed,
         parse P (parser this) st env md = Ok parsed ->
         let options := mkConvOptions name pretty meta in
         let data := jsonData env parsed (getBaseFilename env name) options in
         content (convert P this st env md (lit "json") options)
         = (if truthy pretty then JSON.stringify2 data else JSON.stringify data)
         /\ structureChildren data = Some (List.map tokenToJSON (tokens parsed))
         /\ List.length (List.map tokenToJSON (tokens parsed))
            = List.length (tokens parsed))
  /\ (forall env name meta,
         exists parsed,
           parse referencePlatform (parser (appConverter referencePlatform))
                 (appState referencePlatform) env scenario = Ok parsed
           /\ (let options := mkConvOptions name (Some true) meta in
               let base := getBaseFilename env name in
               let data := jsonData env parsed base options in
               convert referencePlatform (appConverter referencePlatform)
                       (appState referencePlatform) env scenario (lit "json") options
               = mkResult (JSON.stringify2 data) (base ++ lit ".json")
                          (lit "application/json") true None
               /\ structureChildren data
                  = Some [JObj [("type"%string, JStr (lit "heading"));
                                ("level"%string, JNum 1);
                                ("text"%string, JStr (lit "Title"))];
                          JObj [("type"%string, JStr (lit "list"));
                                ("ordered"%string, JBool false);
                                ("items"%string,
                                 JArr [JObj [("type"%string, JStr (lit "list_item"));
                                             ("text"%string, JStr (lit "a"))];
                                       JObj [("type"%string, JStr (lit "list_item"));
                                             ("text"%string, JStr (lit "b"))]])];
                          JObj [("type"%string, JStr (lit "space"));
                                ("raw"%string, JStr [10%N; 10%N])];
                          JObj [("type"%string, JStr (lit "code"));
                                ("language"%string, JStr (lit "js"));
                                ("code"%string, JStr (lit "console.log(1)"))]]))
  /\ (let r := convert referencePlatform (appConverter referencePlatform)
                       (appState referencePlatform) browserEnv scenario (lit "json")
                       (mkConvOptions None (Some true) None) in
      JS.startsWith
        (lit "{" ++ [10%N] ++ lit "  " ++ JS.quoted "metadata" ++ lit ": {" ++ [10%N]
         ++ lit "    " ++ JS.quoted "filename" ++ lit ": ")
        (content r) = true
      /\ JS.includes (JS.quoted "language" ++ lit ": " ++ JS.quoted "js") (content r)
         = true
      /\ JS.includes (JS.quoted "type" ++ lit ": " ++ JS.quoted "space" ++ lit ","
                      ++ [10%N] ++ lit "          " ++ JS.quoted "raw" ++ lit ": "
                      ++ JS.dq ++ lit "\n\n" ++ JS.dq)
                     (content r)
         = true
      /\ filename r = lit "converted_1700000000000.json"
      /\ mimeType r = lit "application/json").
Proof.
  split; [reflexivity|]. split; [apply tokenToJSON_type|].
  do 5 (split; [reflexivity|]).
  split; [intros []; auto; reflexivity|].
  split.
  { intros P this st env md name pretty meta parsed Hp. cbv zeta.
    split; [|split; [reflexivity | apply length_map]].
    unfold convert, convertBody. rewrite Hp. reflexivity. }
  split; [|repeat split; vm_compute; reflexivity].
  intros env name meta.
  destruct (scenario_children env name meta) as [parsed [Hp Hc]].
  exists parsed. split; [exact Hp|]. cbv zeta. split; [|exact Hc].
  unfold convert, convertBody. rewrite Hp. reflexivity.
Qed.

End JsonRenderer.

(** ** URL sanitization *)

Section Urls.
Import MarkdownParser.

Lemma includes_safeProtocols p :
  includes safeProtocols p = true
  <-> p = lit "http:" \/ p = lit "https:" \/ p = lit "mailto:".
Proof.
  unfold includes, safeProtocols. cbn [existsb].
  rewrite !orb_true_iff, !eqb_eq. intuition discriminate.
Qed.

Lemma sanitizeUrl_allowed P url : Spec.allowedUrl P url -> sanitizeUrl P url = url.
Proof.
  intros [u [Hu Hp]]. apply includes_safeProtocols in Hp.
  unfold sanitizeUrl. rewrite Hu. cbn [tryCatch Exn.bind]. now rewrite Hp.
Qed.

Lemma sanitizeUrl_placeholder P url :
  ~ Spec.allowedUrl P url -> sanitizeUrl P url = lit "#".
Proof.
  intro H. unfold sanitizeUrl.
  destruct (newURL P url) as [u|e] eqn:Hu; cbn [tryCatch Exn.bind]; [|reflexivity].
  destruct (includes safeProtocols (protocol u)) eqn:Hp; [|reflexivity].
  exfalso. apply H. exists u. split; [exact Hu|].
  now apply includes_safeProtocols.
Qed.

Lemma allowedUrl_dec P url : Spec.allowedUrl P url \/ ~ Spec.allowedUrl P url.
Proof.
  destruct (newURL P url) as [u|e] eqn:Hu.
  - destruct (includes safeProtocols (protocol u)) eqn:Hp.
    + left. exists u. split; [exact Hu|]. now apply includes_safeProtocols.
    + right. intros [u' [Hu' Hp']]. rewrite Hu in Hu'. injection Hu' as <-.
      apply includes_safeProtocols in Hp'. congruence.
  - right. intros [u' [Hu' _]]. congruence.
Qed.

(** C4: [sanitizeUrl] returns the URL unchanged when it parses and its
    scheme is [http], [https] or [mailto], and the placeholder [#] in
    every other case, a failure of the parse included; so, for every
    input other than the placeholder itself, the result is the input
    exactly when the URL is of that kind. *)
Theorem C4_sanitizeUrl (P : Platform) (url : str) :
  (Spec.allowedUrl P url -> sanitizeUrl P url = url)
  /\ (~ Spec.allowedUrl P url -> sanitizeUrl P url = lit "#")
  /\ (forall e, newURL P url = Throw e -> sanitizeUrl P url = lit "#")
  /\ (url <> lit "#" -> (sanitizeUrl P url = url <-> Spec.allowedUrl P url))
  /\ sanitizeUrl referencePlatform (lit "https://example.com/a?b=1")
     = lit "https://example.com/a?b=1"
  /\ sanitizeUrl referencePlatform (lit "MAILTO:someone@example.com")
     = lit "MAILTO:someone@example.com"
  /\ sanitizeUrl referencePlatform (lit "javascript:alert(1)") = lit "#"
  /\ sanitizeUrl referencePlatform (lit "data:text/html,x") = lit "#"
  /\ sanitizeUrl referencePlatform (lit "not a url") = lit "#".
Proof.
  split; [apply sanitizeUrl_allowed|]. split; [apply sanitizeUrl_placeholder|].
  split; [|split].
  - intros e He. unfold sanitizeUrl. now rewrite He.
  - intro Hne. split; [|apply sanitizeUrl_allowed].
    intro H. destruct (allowedUrl_dec P url) as [Ha|Hn]; [exact Ha|].
    rewrite (sanitizeUrl_placeholder P url Hn) in H. congruence.
  - repeat split; vm_compute; reflexivity.
Qed.

End Urls.

(** ** The converter *)

Section Converter.
Import MarkdownParser Converters.

Lemma convert_cases P this st env md format options :
  let r := convert P this st env md format options in
  (convertBody P this st env md format options = Ok r
   /\ success r = true /\ error r = None)
  \/ (exists e, convertBody P this st env md format options = Throw e
                /\ r = conversionFailure e).
Proof.
  unfold convert, convertBody.
  destruct (parse P (parser this) st env md) as [parsed|e]; cbn [Exn.bind].
  - destruct (JS.eqb format (lit "html")); [left; repeat split|].
    destruct (JS.eqb format (lit "json")); [left; repeat split|].
    destruct (JS.eqb format (lit "txt")); [left; repeat split|].
    right. eexists. split; reflexivity.
  - right. eexists. split; reflexivity.
Qed.

(** The formats of the [switch]. *)
Lemma known_format format :
  (JS.eqb format (lit "html") || JS.eqb format (lit "json")
   || JS.eqb format (lit "txt")) = true
  <-> In format [lit "html"; lit "json"; lit "txt"].
Proof.
  rewrite !orb_true_iff, !eqb_eq. cbn [In]. intuition congruence.
Qed.

(** C2: [convert] returns a result whatever the libraries do: the value
    of the [try] block, which is a success without [error], or, when the
    block throws, the failure result with empty [content], [filename]
    and [mimeType] and the message of what was thrown as [error]: the
    message of the error of the library, [Unknown error occurred] for a
    value that is no [Error], [Unsupported format: ] and the format when
    the format is none of the three.  So a result with [success = false]
    has the three fields empty and an [error], which is empty only when
    a library throws an [Error] whose own message is empty; a result
    with [success = true] has no [error]. *)
Theorem C2_convert_returns_result
        (P : Platform) (this : FileConverter) (st : Marked.State) (env : Env)
        (md format : str) (options : ConversionOptions) :
  let r := convert P this st env md format options in
  let parsing := parse P (parser this) st env md in
  let known := In format [lit "html"; lit "json"; lit "txt"] in
  (forall v, convertBody P this st env md format options = Ok v ->
             r = v /\ success r = true /\ error r = None)
  /\ (forall message,
         convertBody P this st env md format options = Throw (ErrorObj message) ->
         r = mkResult [] [] [] false (Some message))
  /\ (convertBody P this st env md format options = Throw NonError ->
      r = mkResult [] [] [] false (Some (lit "Unknown error occurred")))
  /\ (success r = true ->
      error r = None /\ known /\ exists parsed, parsing = Ok parsed)
  /\ (success r = false ->
      content r = [] /\ filename r = [] /\ mimeType r = []
      /\ exists message,
           error r = Some message
           /\ (parsing = Throw (ErrorObj message)
               \/ (parsing = Throw NonError
                   /\ message = lit "Unknown error occurred")
               \/ ((exists parsed, parsing = Ok parsed) /\ ~ known
                   /\ message = lit "Unsupported format: " ++ format))
           /\ (message = [] -> parsing = Throw (ErrorObj [])))
  /\ (success r = true \/ success r = false).
Proof.
  intros r parsing known.
  assert (Hk : (JS.eqb format (lit "html") || JS.eqb format (lit "json")
                || JS.eqb format (lit "txt")) = true <-> known)
    by apply known_format.
  assert (Hok : forall v,
             success v = true -> error v = None -> known ->
             (exists parsed, parsing = Ok parsed) ->
             (forall v', Ok v = Ok v' -> v = v' /\ success v = true /\ error v = None)
             /\ (forall message, Ok v = Throw (ErrorObj message) ->
                   v = mkResult [] [] [] false (Some message))
             /\ (Ok v = Throw NonError ->
                 v = mkResult [] [] [] false (Some (lit "Unknown error occurred")))
             /\ (success v = true ->
                 error v = None /\ known /\ exists parsed, parsing = Ok parsed)
             /\ (success v = false ->
                 content v = [] /\ filename v = [] /\ mimeType v = []
                 /\ exists message,
                      error v = Some message
                      /\ (parsing = Throw (ErrorObj message)
                          \/ (parsing = Throw NonError
                              /\ message = lit "Unknown error occurred")
                          \/ ((exists parsed, parsing = Ok parsed) /\ ~ known
                              /\ message = lit "Unsupported format: " ++ format))
                      /\ (message = [] -> parsing = Throw (ErrorObj [])))
             /\ (success v = true \/ success v = false)).
  { intros v Hs He Hin Hp. split; [intros v' [= <-]; repeat split; assumption|].
    split; [discriminate|]. split; [discriminate|].
    split; [intros _; repeat split; assumption|].
    split; [congruence | left; exact Hs]. }
  assert (Hfail : forall message,
             (parsing = Throw (ErrorObj message)
              \/ (parsing = Throw NonError /\ message = lit "Unknown error occurred")
              \/ ((exists parsed, parsing = Ok parsed) /\ ~ known
                  /\ message = lit "Unsupported format: " ++ format)) ->
             (message = [] -> parsing = Throw (ErrorObj [])) ->
             let v := mkResult [] [] [] false (Some message) in
             (success v = true ->
              error v = None /\ known /\ exists parsed, parsing = Ok parsed)
             /\ (success v = false ->
                 content v = [] /\ filename v = [] /\ mimeType v = []
                 /\ exists m,
                      error v = Some m
                      /\ (parsing = Throw (ErrorObj m)
                          \/ (parsing = Throw NonError
                              /\ m = lit "Unknown error occurred")
                          \/ ((exists parsed, parsing = Ok parsed) /\ ~ known
                              /\ m = lit "Unsupported format: " ++ format))
                      /\ (m = [] -> parsing = Throw (ErrorObj [])))
             /\ (success v = true \/ success v = false)).
  { intros message Hm He v. subst v. cbn [success content filename mimeType error].
    split; [discriminate|]. split; [|right; reflexivity].
    intros _. repeat split. exists message. repeat split; assumption. }
  subst r. unfold convert, convertBody. fold parsing.
  destruct parsing as [parsed|[message|]] eqn:Ep; cbn [Exn.bind tryCatch].
  - destruct (JS.eqb format (lit "html")) eqn:E1;
      [|destruct (JS.eqb format (lit "json")) eqn:E2;
        [|destruct (JS.eqb format (lit "txt")) eqn:E3]];
      cbn [orb] in Hk; cbn [tryCatch].
    1-3: (apply Hok; [reflexivity | reflexivity | now apply Hk
                     | eexists; reflexivity]).
    assert (Hn : ~ known) by (intro Hx; apply Hk in Hx; discriminate).
    unfold conversionFailure.
    split; [discriminate|]. split; [intros m [= <-]; reflexivity|].
    split; [discriminate|].
    apply Hfail; [|discriminate].
    right; right. split; [eexists; reflexivity|]. split; [exact Hn | reflexivity].
  - unfold conversionFailure.
    split; [discriminate|]. split; [intros m [= <-]; reflexivity|].
    split; [discriminate|].
    apply Hfail; [left; reflexivity | intros ->; reflexivity].
  - unfold conversionFailure.
    split; [discriminate|]. split; [discriminate|].
    split; [intros _; reflexivity|].
    apply Hfail; [right; left; split; reflexivity | discriminate].
Qed.

Lemma convert_success_no_error P this st env md format options :
  success (convert P this st env md format options) = true ->
  error (convert P this st env md format options) = None.
Proof.
  destruct (convert_cases P this st env md format options) as [[_ [_ He]]|[e [_ Hr]]];
    [intros _; exact He|].
  cbv zeta in Hr. rewrite Hr. discriminate.
Qed.

(** A library that throws: the message of the error is what the result
    reports. *)
Lemma convert_lexer_throws P this st env md format options message :
  marked_lexer P (Marked.s_options st) md = Throw (ErrorObj message) ->
  convert P this st env md format options = mkResult [] [] [] false (Some message).
Proof.
  intro H. unfold convert, convertBody, parse. rewrite H. reflexivity.
Qed.

(** When parsing succeeds and the format is one of the three, the
    conversion succeeds: nothing else is consulted. *)
Lemma convert_succeeds P this st env md format options parsed :
  parse P (parser this) st env md = Ok parsed ->
  In format [lit "html"; lit "json"; lit "txt"] ->
  success (convert P this st env md format options) = true.
Proof.
  intros Hp Hf. unfold convert, convertBody. rewrite Hp. cbn [Exn.bind tryCatch].
  destruct Hf as [<-|[<-|[<-|[]]]]; reflexivity.
Qed.

(** The [default] case of the [switch]: the error thrown inside the [try]
    block comes back as a failure result. *)
Example convert_unsupported_format :
  convert referencePlatform (Spec.appConverter referencePlatform)
          (Spec.appState referencePlatform) browserEnv Spec.scenario (lit "pdf")
          Converters.noOptions
  = mkResult [] [] [] false (Some (lit "Unsupported format: pdf")).
Proof. vm_compute. reflexivity. Qed.

End Converter.

(** ** The gate on malicious sources *)

Section MaliciousGate.
Import MarkdownParser Converters ConversionPanel Spec.

(** C3, as stated, fails: [convert] does not look for the signatures; on
    the text of the example, which [detectMaliciousContent] flags, it
    succeeds and returns the text. *)
Lemma C3_counterexample :
  Security.detectMaliciousContent onclickText = true
  /\ (let r := convert referencePlatform (appConverter referencePlatform)
                       (appState referencePlatform) browserEnv
                       onclickText (lit "txt") Converters.noOptions in
      success r = true /\ error r = None /\ content r = onclickText)
  /\ ~ (forall text format options,
           Security.detectMaliciousContent text = true ->
           let r := convert referencePlatform (appConverter referencePlatform)
                            (appState referencePlatform) browserEnv
                            text format options in
           success r = false /\ (exists message, error r = Some message)
           /\ content r = []).
Proof.
  assert (Hd : Security.detectMaliciousContent onclickText = true)
    by (vm_compute; reflexivity).
  assert (Hs : success (convert referencePlatform (appConverter referencePlatform)
                                (appState referencePlatform) browserEnv
                                onclickText (lit "txt") Converters.noOptions) = true)
    by (vm_compute; reflexivity).
  split; [exact Hd|]. split.
  - repeat split; vm_compute; reflexivity.
  - intro H. destruct (H onclickText (lit "txt") Converters.noOptions Hd) as [Hf _].
    rewrite Hs in Hf. discriminate.
Qed.

(** C3, amended: [detectMaliciousContent] flags the example; for a
    flagged text the gate of the caller, [handleConvert], records the
    error and leaves the result as it was, [convert] not being called;
    [convert] itself makes no such check: whenever parsing succeeds and
    the format is one of the three, it succeeds. *)
Theorem C3_malicious_source_gate
        (P : Platform) (converter : FileConverter) (st : Marked.State) (env : Env)
        (md name format : str) (prev : FormatState) :
  Security.detectMaliciousContent md = true ->
  Security.detectMaliciousContent onclickText = true
  /\ handleConvert P converter st env md name format prev
     = mkState (result prev) (isConverting prev)
               (Some (lit "Content contains potentially malicious elements"))
  /\ (forall options parsed,
         parse P (parser converter) st env md = Ok parsed ->
         In format [lit "html"; lit "json"; lit "txt"] ->
         success (convert P converter st env md format options) = true
         /\ error (convert P converter st env md format options) = None).
Proof.
  intro Hd. split; [vm_compute; reflexivity|]. split.
  - unfold handleConvert. now rewrite Hd.
  - intros options parsed Hp Hf.
    pose proof (convert_succeeds P converter st env md format options parsed Hp Hf) as Hs.
    split; [exact Hs|].
    now apply convert_success_no_error.
Qed.

Lemma C3_malicious_source_gate_witness :
  Security.detectMaliciousContent onclickText = true
  /\ handleConvert referencePlatform (appConverter referencePlatform)
                   (appState referencePlatform) browserEnv
                   onclickText (lit "notes.md") (lit "html") initialState
     = mkState None false
               (Some (lit "Content contains potentially malicious elements"))
  /\ (forall options parsed,
         parse referencePlatform (parser (appConverter referencePlatform))
               (appState referencePlatform) browserEnv onclickText
         = Ok parsed ->
         In (lit "html") [lit "html"; lit "json"; lit "txt"] ->
         success (convert referencePlatform (appConverter referencePlatform)
                          (appState referencePlatform) browserEnv
                          onclickText (lit "html") options) = true
         /\ error (convert referencePlatform (appConverter referencePlatform)
                           (appState referencePlatform) browserEnv
                           onclickText (lit "html") options) = None).
Proof.
  apply (C3_malicious_source_gate referencePlatform (appConverter referencePlatform)
           (appState referencePlatform) browserEnv
           onclickText (lit "notes.md") (lit "html") initialState).
  vm_compute. reflexivity.
Defined.

End MaliciousGate.

(** ** Determinism of parsing *)

Section Determinism.
Import Marked MarkdownParser Converters Spec.

(** The tokens and the plain text of a successful parse are those of the
    lexer. *)
Lemma parse_tokens P this st env md r :
  parse P this st env md = Ok r ->
  marked_lexer P (s_options st) md = Ok (tokens r)
  /\ plainText r = toPlainText (tokens r).
Proof.
  unfold parse.
  destruct (marked_lexer P (s_options st) md) as [ts|e];
    cbn [Exn.bind]; [|discriminate].
  destruct (marked_parser P st ts) as [h|e]; cbn [Exn.bind]; [|discriminate].
  destruct (if sanitize (options this) && hasWindow env then _ else _) as [h'|e];
    cbn [Exn.bind]; [|discriminate].
  intros [= <-]. split; reflexivity.
Qed.

(** Each construction of the repository leaves the library in the same
    configuration, whatever it was before. *)
Lemma construct_appState P st c : construct P st c = appState P.
Proof. destruct c; reflexivity. Qed.

Lemma configured_appState P cs st :
  cs <> [] -> configured P cs st = appState P.
Proof.
  revert st; induction cs as [|c cs IH]; intros st H; [congruence|].
  unfold configured. cbn [fold_left]. rewrite construct_appState.
  destruct cs as [|c' cs]; [reflexivity|]. apply IH. discriminate.
Qed.

(** A parser built with other options reconfigures the library for the
    parsers built before it: the configuration in force is that of the
    last construction. *)
Example parse_reads_library_state :
  let this := parser (appConverter referencePlatform) in
  let st := appState referencePlatform in
  let st' := snd (MarkdownParser.new referencePlatform
                    (mkParserOptions None None (Some false) None) st) in
  option_map html
    (match parse referencePlatform this st browserEnv (lit "a
b") with Ok r => Some r | Throw _ => None end)
  = Some (lit "<p>a<br>b</p>" ++ [10%N])
  /\ option_map html
       (match parse referencePlatform this st' browserEnv (lit "a
b") with Ok r => Some r | Throw _ => None end)
     = Some (lit "<p>a" ++ [10%N] ++ lit "b</p>" ++ [10%N]).
Proof. split; vm_compute; reflexivity. Qed.

(** C9, as stated, fails for the HTML: it is not a function of the
    source text alone.  The same parser, in the same configuration of the
    library, renders a rule as [<hr>] where there is no [window] and
    hands it to the sanitizer, which removes it, where there is one; and
    in the same browser, the same parser renders a line feed as [<br>]
    or as a line feed, depending on the options of the parser that was
    constructed last. *)
Lemma C9_counterexample :
  let this := parser (appConverter referencePlatform) in
  let st := appState referencePlatform in
  let st' := snd (MarkdownParser.new referencePlatform
                    (mkParserOptions None None (Some false) None) st) in
  (exists r1 r2,
      parse referencePlatform this st serverEnv (lit "---") = Ok r1
      /\ parse referencePlatform this st browserEnv (lit "---") = Ok r2
      /\ html r1 = lit "<hr>" ++ [10%N]
      /\ JS.includes (lit "<hr") (html r2) = false
      /\ html r1 <> html r2)
  /\ (exists r1 r2,
         parse referencePlatform this st browserEnv (lit "a
b") = Ok r1
         /\ parse referencePlatform this st' browserEnv (lit "a
b") = Ok r2
         /\ html r1 = lit "<p>a<br>b</p>" ++ [10%N]
         /\ html r2 = lit "<p>a" ++ [10%N] ++ lit "b</p>" ++ [10%N]
         /\ html r1 <> html r2)
  /\ ~ (forall (P : Platform) (this : MarkdownParser.t) (st1 st2 : Marked.State)
               (env1 env2 : Env) (md : str) (r1 r2 : ParsedMarkdown),
           parse P this st1 env1 md = Ok r1 -> parse P this st2 env2 md = Ok r2 ->
           html r1 = html r2).
Proof.
  cbv zeta.
  assert (H1 : exists r1 r2,
             parse referencePlatform (parser (appConverter referencePlatform))
                   (appState referencePlatform) serverEnv (lit "---") = Ok r1
             /\ parse referencePlatform (parser (appConverter referencePlatform))
                      (appState referencePlatform) browserEnv (lit "---") = Ok r2
             /\ html r1 = lit "<hr>" ++ [10%N]
             /\ JS.includes (lit "<hr") (html r2) = false
             /\ html r1 <> html r2).
  { eexists. eexists. split; [vm_compute; reflexivity|].
    split; [vm_compute; reflexivity|]. split; [vm_compute; reflexivity|].
    split; [vm_compute; reflexivity|]. vm_compute. discriminate. }
  split; [exact H1|]. split.
  - eexists. eexists. split; [vm_compute; reflexivity|].
    split; [vm_compute; reflexivity|]. split; [vm_compute; reflexivity|].
    split; [vm_compute; reflexivity|]. vm_compute. discriminate.
  - intro H. destruct H1 as [r1 [r2 [Ha [Hb [_ [_ Hne]]]]]].
    exact (Hne (H _ _ _ _ _ _ _ _ _ Ha Hb)).
Qed.

(** C9, amended: parsing reads no clock and no state of its own, and
    leaves the configuration of the library as it is; what it returns is
    a function of the text, of the configuration that the library holds
    at the call, of the [sanitize] option of the parser and of whether
    there is a [window].  The tokens and the plain text depend on the
    text and on the options of the library alone: two runs give the same
    ones, whatever the times and the environments of the two runs, the
    parser that runs, its own options and the renderer.  The HTML, and so
    the whole result, is the same for two parsers with the same
    [sanitize] option in the same configuration of the library, when
    [window] is there in both runs or in neither.  The constructions of
    the repository all leave the same configuration in the library, so
    any two runs of the application with the same [window] give the same
    result. *)
Theorem C9_parse_deterministic
        (P : Platform) (this : MarkdownParser.t) (st : Marked.State)
        (env1 env2 : Env) (md : str) :
  (forall other stA stB rA rB,
      s_options stA = s_options stB ->
      parse P this stA env1 md = Ok rA -> parse P other stB env2 md = Ok rB ->
      tokens rA = tokens rB /\ plainText rA = plainText rB
      /\ plainText rA = toPlainText (tokens rA))
  /\ (forall other,
         sanitize (options this) = sanitize (options other) ->
         hasWindow env1 = hasWindow env2 ->
         parse P this st env1 md = parse P other st env2 md)
  /\ (forall r1 r2,
         parse P this st env1 md = Ok r1 -> parse P this st env2 md = Ok r2 ->
         tokens r1 = tokens r2 /\ plainText r1 = plainText r2
         /\ (hasWindow env1 = hasWindow env2 -> html r1 = html r2))
  /\ (forall cs1 cs2 st1 st2,
         cs1 <> [] -> cs2 <> [] ->
         configured P cs1 st1 = configured P cs2 st2
         /\ (hasWindow env1 = hasWindow env2 ->
             parse P this (configured P cs1 st1) env1 md
             = parse P this (configured P cs2 st2) env2 md)).
Proof.
  assert (Heq : forall other s,
             sanitize (options this) = sanitize (options other) ->
             hasWindow env1 = hasWindow env2 ->
             parse P this s env1 md = parse P other s env2 md).
  { intros other s Hs Hw. unfold parse. now rewrite Hs, Hw. }
  assert (Htok : forall other stA stB rA rB,
             s_options stA = s_options stB ->
             parse P this stA env1 md = Ok rA -> parse P other stB env2 md = Ok rB ->
             tokens rA = tokens rB /\ plainText rA = plainText rB
             /\ plainText rA = toPlainText (tokens rA)).
  { intros other stA stB rA rB Ho HA HB.
    apply parse_tokens in HA as [HA HpA]. apply parse_tokens in HB as [HB HpB].
    rewrite Ho, HB in HA. injection HA as HA.
    rewrite HpA, HpB, HA. repeat split; reflexivity. }
  split; [exact Htok|]. split; [intros other Hs Hw; now apply Heq|]. split.
  - intros r1 r2 H1 H2.
    destruct (Htok this st st r1 r2 eq_refl H1 H2) as [Ht [Hp _]].
    split; [exact Ht|]. split; [exact Hp|].
    intro Hw. rewrite (Heq this st eq_refl Hw), H2 in H1. now injection H1 as ->.
  - intros cs1 cs2 st1 st2 H1 H2.
    rewrite (configured_appState P cs1 st1 H1), (configured_appState P cs2 st2 H2).
    split; [reflexivity|]. intro Hw. now apply Heq.
Qed.

End Determinism.

(** ** The recursion of the models *)

(** The model of the inline renderer recurses on a counter; the counter
    it starts from is never exhausted: any larger one gives the same
    result. *)

Section Fuel.
Import MarkedModel.

Lemma dropWhile_length p (s : str) : List.length (JS.dropWhile p s) <= List.length s.
Proof.
  induction s as [|x s IH]; simpl; [lia|]. destruct (p x); simpl; lia.
Qed.

Lemma takeWhile_length p (s : str) : List.length (JS.takeWhile p s) <= List.length s.
Proof.
  induction s as [|x s IH]; simpl; [lia|]. destruct (p x); simpl; lia.
Qed.

Lemma skipChar_length c (s : str) : List.length (JS.skipChar c s) <= List.length s.
Proof. destruct s as [|x s]; simpl; [lia|]. destruct (N.eqb x c); simpl; lia. Qed.

Lemma tl_length (s : str) : List.length (tl s) <= List.length s.
Proof. destruct s; simpl; lia. Qed.

Lemma splitOn_length d s a b :
  splitOn d s = Some (a, b) -> List.length a + List.length b <= List.length s.
Proof.
  revert a b; induction s as [|x s IH]; intros a b; cbn [splitOn].
  - destruct (JS.startsWith d []); [|discriminate]. intros [= <- <-].
    rewrite length_skipn. cbn [List.length]. lia.
  - destruct (JS.startsWith d (x :: s)).
    + intros [= <- <-]. rewrite length_skipn. cbn [List.length]. lia.
    + destruct (splitOn d s) as [[a' b']|]; [|discriminate].
      intros [= <- <-]. specialize (IH a' b' eq_refl). simpl. lia.
Qed.

Lemma nonEmptySplit_length d s a b :
  nonEmptySplit d s = Some (a, b) -> List.length a + List.length b <= List.length s.
Proof.
  unfold nonEmptySplit. destruct (splitOn d s) as [[[|x body] rest]|] eqn:E;
    try discriminate.
  intros [= <- <-]. now apply (splitOn_length d).
Qed.

Lemma emphasisOf_length d s a b :
  emphasisOf d s = Some (a, b) -> List.length a + List.length b <= List.length s.
Proof.
  unfold emphasisOf. destruct (nonEmptySplit d s) as [[body rest]|] eqn:E;
    [|discriminate].
  destruct (_ && _); [|discriminate].
  intros [= <- <-]. now apply (nonEmptySplit_length d).
Qed.

Lemma closingRun_length n run s a b :
  closingRun n run s = Some (a, b) -> List.length a + List.length b <= List.length s.
Proof.
  revert run a b; induction s as [|c s IH]; intros run a b; cbn [closingRun];
    [discriminate|].
  assert (Hmore : forall k,
             match closingRun n k s with
             | Some (a0, b0) => Some (c :: a0, b0)
             | None => None
             end = Some (a, b) ->
             List.length a + List.length b <= List.length (c :: s)).
  { intros k. destruct (closingRun n k s) as [[a0 b0]|] eqn:E; [|discriminate].
    intros [= <- <-]. apply IH in E. simpl. lia. }
  destruct run as [|k]; [|apply Hmore].
  destruct (N.eqb c 96); [|apply Hmore].
  destruct (Nat.eqb _ n); [|apply Hmore].
  intros [= <- <-]. rewrite length_skipn. cbn [List.length]. lia.
Qed.

Lemma titleOf_length t title rest :
  titleOf t = Some (title, rest) -> List.length rest < List.length t.
Proof.
  unfold titleOf. destruct t as [|q r]; [discriminate|].
  destruct (_ || _); [|discriminate].
  destruct (splitOn _ r) as [[a b]|] eqn:E; [|discriminate].
  intros [= <- <-]. apply splitOn_length in E. simpl. lia.
Qed.

Lemma linkOf_length s text url title rest :
  linkOf s = Some (text, url, title, rest) ->
  List.length text <= List.length s /\ List.length rest <= List.length s.
Proof.
  unfold linkOf.
  destruct (splitOn (lit "](") s) as [[text' r]|] eqn:E1; [|discriminate].
  apply splitOn_length in E1.
  set (r1 := JS.dropWhile JS.isSpace r).
  set (dest := if JS.headIs 60 r1 then _ else _).
  set (r2 := skipn (List.length dest) r1).
  pose proof (dropWhile_length JS.isSpace r) as H1. fold r1 in H1.
  assert (H2 : List.length r2 <= List.length r1)
    by (unfold r2; rewrite length_skipn; lia).
  pose proof (dropWhile_length JS.isSpace r2) as H3.
  destruct (JS.dropWhile JS.isSpace r2) as [|c rest0] eqn:E3; [discriminate|].
  destruct (N.eqb c 41); [intros [= <- _ _ <-]; simpl in H3; lia|].
  destruct (Nat.eqb _ _); [discriminate|].
  destruct (titleOf (c :: rest0)) as [[title' r4]|] eqn:E4; [|discriminate].
  apply titleOf_length in E4.
  pose proof (dropWhile_length JS.isSpace r4) as H5.
  destruct (JS.dropWhile JS.isSpace r4) as [|e rest'] eqn:E5; [discriminate|].
  destruct (N.eqb e 41); [|discriminate].
  intros [= <- _ _ <-]. simpl in *. lia.
Qed.

Lemma rawTagOf_length s tag rest :
  rawTagOf s = Some (tag, rest) -> List.length rest <= List.length s.
Proof.
  unfold rawTagOf. destruct (isCommentStart s).
  - destruct (splitOn (lit "-->") (skipn 3 s)) as [[body rest']|] eqn:E.
    + intros [= _ <-]. apply splitOn_length in E. rewrite length_skipn in E. lia.
    + intros [= _ <-]. simpl. lia.
  - destruct (JS.skipChar 47 s) as [|c r]; [discriminate|].
    destruct (JS.isAlpha c); [|discriminate].
    destruct (splitOn (lit ">") s) as [[body rest']|] eqn:E; [|discriminate].
    intros [= _ <-]. apply splitOn_length in E. lia.
Qed.

Lemma autolinkOf_length s url rest :
  autolinkOf s = Some (url, rest) -> List.length rest <= List.length s.
Proof.
  unfold autolinkOf. destruct s as [|c r]; [discriminate|].
  destruct (_ && _); [|discriminate].
  destruct (JS.headIs 62 _); [|discriminate].
  intros [= _ <-]. rewrite length_skipn. cbn [List.length]. lia.
Qed.

Lemma nextSpan_length o c s' sp rest :
  nextSpan o c s' = (sp, rest) ->
  List.length (inner sp) <= List.length s' /\ List.length rest <= List.length s'.
Proof.
  pose proof (tl_length s') as Htl.
  unfold nextSpan.
  destruct (N.eqb c 96).
  { destruct (closingRun _ 0 _) as [[[|x code] r]|] eqn:E; intros [= <- <-];
      cbn [inner List.length]; rewrite ?length_skipn; try lia.
    apply closingRun_length in E. rewrite length_skipn in E. lia. }
  destruct (N.eqb c 33 && JS.headIs 91 s').
  { destruct (linkOf (tl s')) as [[[[alt url] title] r]|] eqn:E; intros [= <- <-];
      cbn [inner List.length]; [apply linkOf_length in E|]; lia. }
  destruct (N.eqb c 91).
  { destruct (linkOf s') as [[[[text url] title] r]|] eqn:E; intros [= <- <-];
      cbn [inner List.length]; [apply linkOf_length in E|]; lia. }
  destruct (N.eqb c 42 || N.eqb c 95).
  { destruct (JS.headIs c s').
    - destruct (emphasisOf [c; c] (tl s')) as [[body r]|] eqn:E; intros [= <- <-];
        cbn [inner List.length]; [apply emphasisOf_length in E|]; lia.
    - destruct (emphasisOf [c] s') as [[body r]|] eqn:E; intros [= <- <-];
        cbn [inner List.length]; [apply emphasisOf_length in E|]; lia. }
  destruct (N.eqb c 126 && Marked.m_gfm o).
  { destruct (emphasisOf _ _) as [[body r]|] eqn:E.
    - apply emphasisOf_length in E. rewrite length_skipn in E.
      destruct (_ || _); intros [= <- <-]; cbn [inner List.length];
        rewrite ?length_skipn; lia.
    - intros [= <- <-]. cbn [inner List.length]. rewrite length_skipn. lia. }
  destruct (N.eqb c 60).
  { destruct (autolinkOf s') as [[url r]|] eqn:E.
    - intros [= <- <-]. cbn [inner List.length]. apply autolinkOf_length in E. lia.
    - destruct (rawTagOf s') as [[tag r]|] eqn:E'; intros [= <- <-];
        cbn [inner List.length]; [apply rawTagOf_length in E'|]; lia. }
  destruct (N.eqb c 10).
  { destruct (_ && _); intros [= <- <-]; cbn [inner List.length]; lia. }
  destruct (N.eqb c 32).
  { pose proof (dropWhile_length isSp s') as Hd.
    pose proof (tl_length (JS.dropWhile isSp s')) as Hd'.
    destruct (_ && _); intros [= <- <-]; cbn [inner List.length]; lia. }
  destruct (N.eqb c 92).
  { destruct s' as [|d r]; [intros [= <- <-]; cbn [inner List.length]; lia|].
    destruct (_ && _); [intros [= <- <-]; cbn [inner List.length]; lia|].
    destruct (isPunct d); intros [= <- <-]; cbn [inner List.length]; lia. }
  destruct (isAlnum c); [|intros [= <- <-]; cbn [inner List.length]; lia].
  destruct (if Marked.m_gfm o then urlOf (c :: s') else None) as [[[url text] r]|];
    intros [= <- <-]; cbn [inner List.length]; rewrite length_skipn; lia.
Qed.

Lemma inline_fuel R o plain f1 f2 s :
  List.length s <= f1 -> List.length s <= f2 ->
  inline f1 R o plain s = inline f2 R o plain s.
Proof.
  revert f2 s; induction f1 as [|f1 IH]; intros f2 s H1 H2.
  - destruct s; [|simpl in H1; lia]. destruct f2; reflexivity.
  - destruct f2 as [|f2]; [destruct s; [reflexivity | simpl in H2; lia]|].
    destruct s as [|c s']; [reflexivity|]. cbn [inline]. simpl in H1, H2.
    destruct (nextSpan o c s') as [sp rest] eqn:E.
    destruct (nextSpan_length o c s' sp rest E) as [Hi Hr].
    rewrite (IH f2 rest) by lia.
    destruct sp; cbn [inner] in Hi; try reflexivity;
      rewrite (IH f2) by lia; reflexivity.
Qed.

(** The inline renderer is the same from any counter that is large
    enough. *)
Lemma inlineText_fuel R o f s :
  List.length s <= f -> inline f R o false s = inlineText R o s.
Proof. intro H. unfold inlineText. apply inline_fuel; lia. Qed.

End Fuel.

(** ** The allow-list pass *)

Section AllowList.
Import DOMPurify PurifyModel Spec.
Local Open Scope N_scope.

Lemma inList_In l s : inList l s = true -> exists a, In a l /\ s = lit a.
Proof.
  unfold inList. intro H. apply existsb_exists in H as [a [Ha He]].
  exists a. split; [exact Ha | now apply eqb_eq].
Qed.

Lemma allowed_tag_shape cfg n :
  wellFormed cfg = true -> tagAllowed cfg n = true ->
  n <> [] /\ forallb isLowerAlnum n = true.
Proof.
  unfold wellFormed, tagAllowed. intros Hw Ha.
  apply andb_true_iff in Hw as [Hw _]. apply andb_true_iff in Ha as [Ha _].
  apply inList_In in Ha as [a [Ha ->]].
  rewrite forallb_forall in Hw. specialize (Hw a Ha).
  apply andb_true_iff in Hw as [Hne Hall]. split; [|exact Hall].
  destruct (lit a); [discriminate | discriminate].
Qed.

Lemma startsWith_app (p s : str) :
  JS.startsWith p s = true -> s = p ++ skipn (List.length p) s.
Proof.
  revert s; induction p as [|x p IH]; intros s H; [reflexivity|].
  destruct s as [|y s]; [discriminate|]. cbn [JS.startsWith] in H.
  apply andb_true_iff in H as [Hx Hp]. apply N.eqb_eq in Hx as ->.
  cbn [List.length skipn app]. f_equal. now apply IH.
Qed.

(** The name of a [data-] or [aria-] attribute has no [<]. *)
Lemma prefixed_no_lt (p : string) (ok : N -> bool) (k : str) :
  ~ In 60 (lit p) -> ok 60 = false ->
  JS.startsWith (lit p) k = true ->
  forallb ok (skipn (List.length (lit p)) k) = true ->
  ~ In 60 k.
Proof.
  intros Hp Hok Hs Hall Hin. rewrite (startsWith_app _ _ Hs) in Hin.
  apply in_app_or in Hin as [Hin|Hin]; [now apply Hp|].
  rewrite forallb_forall in Hall. specialize (Hall _ Hin). congruence.
Qed.

Lemma allowed_attr_shape cfg k :
  wellFormed cfg = true -> attrAllowed cfg k = true -> ~ In 60 k.
Proof.
  unfold wellFormed, attrAllowed. intros Hw Ha.
  apply andb_true_iff in Hw as [_ Hw].
  apply orb_true_iff in Ha as [Ha|Ha]; [apply orb_true_iff in Ha as [Ha|Ha]|].
  - apply andb_true_iff in Ha as [Ha _]. unfold isDataAttr in Ha.
    apply andb_true_iff in Ha as [Ha Hall]. apply andb_true_iff in Ha as [Hs _].
    apply (prefixed_no_lt "data-" _ k) in Hall; try assumption; try reflexivity.
    cbn. intuition discriminate.
  - unfold isAriaAttr in Ha.
    apply andb_true_iff in Ha as [Ha Hall]. apply andb_true_iff in Ha as [Hs _].
    apply (prefixed_no_lt "aria-" _ k) in Hall; try assumption; try reflexivity.
    cbn. intuition discriminate.
  - apply andb_true_iff in Ha as [Ha _].
    apply inList_In in Ha as [a [Ha ->]].
    rewrite forallb_forall in Hw. specialize (Hw a Ha).
    rewrite forallb_forall in Hw. intro H. specialize (Hw _ H). discriminate.
Qed.

Lemma tagNames_other c s : c <> 60 -> tagNames (c :: s) = tagNames s.
Proof. intro H. cbn [tagNames]. now destruct (N.eqb_spec c 60). Qed.

Lemma tagNames_skip a b : ~ In 60 a -> tagNames (a ++ b) = tagNames b.
Proof.
  induction a as [|x a IH]; intro H; [reflexivity|].
  cbn [app tagNames]. destruct (N.eqb_spec x 60) as [->|_].
  - exfalso. apply H. now left.
  - apply IH. intro H'. apply H. now right.
Qed.

Lemma takeWhile_stop p (a b : str) :
  forallb p a = true ->
  match b with [] => True | x :: _ => p x = false end ->
  JS.takeWhile p (a ++ b) = a.
Proof.
  induction a as [|x a IH]; cbn [app JS.takeWhile forallb]; intros Ha Hb.
  - destruct b as [|y b]; [reflexivity|]. cbn. now rewrite Hb.
  - apply andb_true_iff in Ha as [Hx Ha]. rewrite Hx. f_equal. now apply IH.
Qed.

Lemma lower_lowerAlnum n : forallb isLowerAlnum n = true -> lower n = n.
Proof.
  induction n as [|x n IH]; cbn [forallb lower List.map]; intro H; [reflexivity|].
  apply andb_true_iff in H as [Hx Hn]. fold (lower n). rewrite (IH Hn). f_equal.
  unfold JS.asciiLower. destruct (JS.isUpper x) eqn:U; [|reflexivity].
  unfold isLowerAlnum, JS.isLower, JS.isDigit, JS.isUpper in *.
  rewrite !andb_true_iff, ?orb_true_iff, !andb_true_iff, !N.leb_le in *. lia.
Qed.

Lemma lowerAlnum_alnum n : forallb isLowerAlnum n = true -> forallb isAlnum n = true.
Proof.
  intro H. rewrite forallb_forall in *. intros x Hx. specialize (H x Hx).
  unfold isLowerAlnum, isAlnum, JS.isAlpha in *.
  apply orb_true_iff in H as [->| ->]; [now rewrite orb_true_r | apply orb_true_r].
Qed.

Lemma lowerAlnum_no_lt n : forallb isLowerAlnum n = true -> ~ In 60 n.
Proof.
  intros H Hin. rewrite forallb_forall in H. specialize (H _ Hin). discriminate.
Qed.

Lemma escapeValue_no_lt v : ~ In 60 (flat_map escapeValue v).
Proof.
  induction v as [|c v IH]; cbn [flat_map]; [easy|].
  intro H. apply in_app_or in H as [H|H]; [|now apply IH].
  unfold escapeValue in H.
  destruct (N.eqb c 38); [cbn in H; intuition discriminate|].
  destruct (N.eqb c 34); [cbn in H; intuition discriminate|].
  destruct (N.eqb_spec c 60); [cbn in H; intuition discriminate|].
  destruct (N.eqb c 62); [cbn in H; intuition discriminate|].
  destruct (N.eqb c 160); [cbn in H; intuition discriminate|].
  cbn in H. intuition congruence.
Qed.

Lemma encodeChar_no_lt v : ~ In 60 (flat_map encodeChar v).
Proof.
  induction v as [|c v IH]; cbn [flat_map]; [easy|].
  intro H. apply in_app_or in H as [H|H]; [|now apply IH].
  unfold encodeChar in H.
  destruct (N.eqb c 38); [cbn in H; intuition discriminate|].
  destruct (N.eqb_spec c 60); [cbn in H; intuition discriminate|].
  destruct (N.eqb c 62); [cbn in H; intuition discriminate|].
  destruct (N.eqb c 160); [cbn in H; intuition discriminate|].
  cbn in H. intuition congruence.
Qed.

Lemma writeAttr_no_lt cfg kv :
  wellFormed cfg = true -> attrAllowed cfg (fst kv) = true -> ~ In 60 (writeAttr kv).
Proof.
  intros Hw Ha H. unfold writeAttr in H.
  repeat (apply in_app_or in H as [H|H]);
    try (cbn in H; intuition discriminate).
  - now apply (allowed_attr_shape cfg (fst kv)).
  - now apply (escapeValue_no_lt (snd kv)).
Qed.

Lemma writeAttrs_no_lt cfg l :
  wellFormed cfg = true ->
  Forall (fun kv => attrAllowed cfg (fst kv) = true) l ->
  ~ In 60 (flat_map writeAttr l).
Proof.
  intros Hw Hl. induction Hl as [|kv l Hkv _ IH]; cbn [flat_map]; [easy|].
  intro H. apply in_app_or in H as [H|H]; [|now apply IH].
  now apply (writeAttr_no_lt cfg kv).
Qed.

Lemma writeAttrs_head l :
  exists x tl, flat_map writeAttr l ++ [62] = x :: tl /\ isAlnum x = false.
Proof. destruct l as [|kv l]; eexists; eexists; split; reflexivity. Qed.

(** A written tag is read back by [tagNames] under its name, and hides
    no other tag. *)
Lemma tagNames_writeTag cfg t s :
  wellFormed cfg = true ->
  tagAllowed cfg (name t) = true ->
  Forall (fun kv => attrAllowed cfg (fst kv) = true) (attrs t) ->
  tagNames (writeTag t ++ s) = name t :: tagNames s.
Proof.
  intros Hw Ht Ha.
  destruct (allowed_tag_shape cfg (name t) Hw Ht) as [Hne Hall].
  pose proof (writeAttrs_no_lt cfg (attrs t) Hw Ha) as Hattr.
  pose proof (lowerAlnum_no_lt _ Hall) as Hname.
  remember (flat_map writeAttr (attrs t) ++ [62]) as tail eqn:Etail.
  assert (Htail : ~ In 60 tail).
  { subst tail. intro H. apply in_app_or in H as [H|H]; [now apply Hattr|].
    cbn in H. intuition discriminate. }
  assert (Hread : JS.takeWhile isAlnum (name t ++ tail ++ s) = name t).
  { apply takeWhile_stop; [now apply lowerAlnum_alnum|].
    destruct (writeAttrs_head (attrs t)) as [x [tl [Hh Hx]]].
    rewrite <- Etail in Hh. rewrite Hh. exact Hx. }
  assert (Hrest : tagNames (name t ++ tail ++ s) = tagNames s).
  { rewrite app_assoc. apply tagNames_skip. intro H.
    apply in_app_or in H as [H|H]; [now apply Hname | now apply Htail]. }
  assert (Hhead : JS.skipChar 47 (name t ++ tail ++ s) = name t ++ tail ++ s).
  { destruct (name t) as [|x n]; [congruence|]. cbn [app JS.skipChar].
    destruct (N.eqb_spec x 47) as [->|Hx]; [cbn in Hall; discriminate | reflexivity]. }
  unfold writeTag. rewrite <- Etail. cbn [app tagNames]. rewrite N.eqb_refl.
  unfold tagNameAt. destruct (closing t); cbn [app]; rewrite <- ?app_assoc.
  - change (JS.skipChar 47 (47 :: name t ++ tail ++ s)) with (name t ++ tail ++ s).
    rewrite Hread, (lower_lowerAlnum _ Hall).
    rewrite (tagNames_other 47) by discriminate. rewrite Hrest.
    destruct (name t); [congruence | reflexivity].
  - rewrite Hhead, Hread, (lower_lowerAlnum _ Hall), Hrest.
    destruct (name t); [congruence | reflexivity].
Qed.

(** The tags of a clean document are allowed tags. *)
Lemma clean_tagNames cfg s :
  wellFormed cfg = true -> Clean cfg s ->
  Forall (fun n => tagAllowed cfg n = true) (tagNames s).
Proof.
  intros Hw H. induction H as [|c s Hc _ IH|t s Ht Ha _ IH].
  - constructor.
  - cbn [tagNames]. destruct (N.eqb_spec c 60); [contradiction | exact IH].
  - rewrite (tagNames_writeTag cfg t s Hw Ht Ha). now constructor.
Qed.

Lemma clean_text cfg a s : ~ In 60 a -> Clean cfg s -> Clean cfg (a ++ s).
Proof.
  induction a as [|x a IH]; intros Ha Hs; [exact Hs|].
  cbn [app]. constructor.
  - intros ->. apply Ha. now left.
  - apply IH; [|exact Hs]. intro H. apply Ha. now right.
Qed.

(** The pass gives a clean document, whatever it is given. *)
Lemma sanitizeFrom_clean cfg s : forall skip, Clean cfg (sanitizeFrom skip cfg s).
Proof.
  induction s as [|c s IH]; intro skip; cbn [sanitizeFrom]; [constructor|].
  destruct skip as [|k]; [|apply IH].
  destruct (N.eqb c 60).
  - destruct (JS.startsWith (lit "!--") s); [apply IH|].
    destruct (JS.headIs 33 s || JS.headIs 63 s); [apply IH|].
    destruct (tagOf s) as [[t rest]|].
    + destruct (tagAllowed cfg (name t)) eqn:Ht.
      * apply CleanTag; [exact Ht| |apply IH].
        unfold keepAttrs. cbn [attrs]. destruct (closing t); [constructor|].
        apply Forall_forall. intros kv Hkv. apply filter_In in Hkv as [_ Hkv].
        unfold attrKept in Hkv. now apply andb_true_iff in Hkv as [Hkv _].
      * destruct (inList dropsContent (name t) && negb (closing t)); apply IH.
    + apply clean_text; [|apply IH]. cbn. intuition discriminate.
  - destruct (N.eqb c 38).
    + destruct (referenceAt s) as [[text n]|].
      * apply clean_text; [apply encodeChar_no_lt | apply IH].
      * apply clean_text; [|apply IH]. cbn. intuition discriminate.
    + apply clean_text; [|apply IH].
      rewrite <- (app_nil_r (encodeChar c)).
      apply (encodeChar_no_lt [c]).
Qed.

Lemma sanitize_clean cfg s : Clean cfg (sanitize cfg s).
Proof. apply sanitizeFrom_clean. Qed.

(** No attribute whose name starts with [on] is kept under the
    configuration of the source, and no [style] attribute. *)
Lemma no_event_handlers k :
  JS.startsWith (lit "on") k = true ->
  attrAllowed MarkdownParser.purifyConfig k = false.
Proof.
  intro H. apply startsWith_app in H. rewrite H.
  generalize (skipn (List.length (lit "on")) k). intro r. reflexivity.
Qed.

End AllowList.

(** ** HTML sanitization *)

Section HtmlSanitization.
Import DOMPurify PurifyModel Marked MarkdownParser Converters Spec.

Lemma purifyConfig_wellFormed : wellFormed purifyConfig = true.
Proof. vm_compute. reflexivity. Qed.

(** On any platform, the HTML of a parse is what the sanitizer returned
    under the fixed configuration when the pass runs, and what the
    renderer returned otherwise. *)
Lemma parse_html P this st env md r :
  parse P this st env md = Ok r ->
  exists h,
    marked_parser P st (tokens r) = Ok h
    /\ (if sanitize (options this) && hasWindow env
        then purify P purifyConfig h = Ok (html r)
        else html r = h).
Proof.
  unfold parse.
  destruct (marked_lexer P (s_options st) md) as [ts|e];
    cbn [Exn.bind]; [|discriminate].
  destruct (marked_parser P st ts) as [h|e] eqn:Hm; cbn [Exn.bind]; [|discriminate].
  destruct (sanitize (options this) && hasWindow env).
  - destruct (purify P purifyConfig h) as [h'|e] eqn:Hp; cbn [Exn.bind]; [|discriminate].
    intros [= <-]. exists h. split; [exact Hm | exact Hp].
  - cbn [Exn.bind]. intros [= <-]. exists h. split; [exact Hm | reflexivity].
Qed.

(** The sanitizer of the reference platform keeps to the allow-lists. *)
Lemma reference_keepsAllowList : keepsAllowList referencePlatform.
Proof.
  intros dirty clean [= <-]. apply sanitize_clean.
Qed.

(** What is in a document that keeps to the allow-lists of the source. *)
Lemma clean_allowed h :
  Clean purifyConfig h ->
  (forall n, In n (tagNames h) ->
             inList (ALLOWED_TAGS purifyConfig) n = true
             /\ inList (FORBID_TAGS purifyConfig) n = false)
  /\ (forall n, In n ["script"; "object"; "embed"; "form"; "input"]%string ->
                ~ In (lit n) (tagNames h)).
Proof.
  intro Hc.
  pose proof (clean_tagNames purifyConfig h purifyConfig_wellFormed Hc) as Ht.
  rewrite Forall_forall in Ht.
  assert (Hall : forall n, In n (tagNames h) ->
                           inList (ALLOWED_TAGS purifyConfig) n = true
                           /\ inList (FORBID_TAGS purifyConfig) n = false).
  { intros n Hn. specialize (Ht n Hn). unfold tagAllowed in Ht.
    apply andb_true_iff in Ht as [Ha Hf]. split; [exact Ha|].
    now apply negb_true_iff in Hf. }
  split; [exact Hall|].
  intros n Hn Hin. destruct (Hall _ Hin) as [Ha _].
  cbn in Hn. destruct Hn as [<-|[<-|[<-|[<-|[<-|[]]]]]]; vm_compute in Ha; discriminate.
Qed.

(** C1, as stated, fails where the sanitization pass does not run: with
    raw HTML allowed and no [window], the [script] tag of the example is
    in the HTML; with the default options and no [window], a rule is
    rendered as [hr], which is outside the allow-list; with the
    [sanitize] option off the same holds in a browser; and with the
    parser of the converter and no [window], the heading of the example
    is written with its [id], so that [<h1>Hi</h1>] is not in the
    HTML. *)
Lemma C1_counterexample :
  (let (this, st) := MarkdownParser.new referencePlatform
                       (mkParserOptions None (Some true) None None) Marked.initial in
   exists r,
     parse referencePlatform this st serverEnv scriptExample = Ok r
     /\ JS.includes (lit "<script>") (html r) = true
     /\ existsb (JS.eqb (lit "script")) (tagNames (html r)) = true)
  /\ (let (this, st) := MarkdownParser.new referencePlatform
                          MarkdownParser.noOptions Marked.initial in
      exists r,
        parse referencePlatform this st serverEnv (lit "---") = Ok r
        /\ html r = lit "<hr>" ++ [10%N]
        /\ tagNames (html r) = [lit "hr"]
        /\ tagAllowed purifyConfig (lit "hr") = false)
  /\ (let (this, st) := MarkdownParser.new referencePlatform
                          (mkParserOptions (Some false) (Some true) None None)
                          Marked.initial in
      exists r,
        parse referencePlatform this st browserEnv scriptExample = Ok r
        /\ JS.includes (lit "<script>") (html r) = true)
  /\ (exists r,
         parse referencePlatform (parser (appConverter referencePlatform))
               (appState referencePlatform) serverEnv scriptExample = Ok r
         /\ JS.includes (lit "<h1>Hi</h1>") (html r) = false
         /\ JS.includes (lit "<h1 id=" ++ JS.quoted "hi" ++ lit ">Hi</h1>") (html r)
            = true).
Proof.
  split; [|split; [|split]]; cbn [MarkdownParser.new]; eexists;
    (split; [vm_compute; reflexivity|]); repeat split; vm_compute; reflexivity.
Qed.

(** C1, amended: whenever the sanitization pass runs, that is with the
    [sanitize] option on and a [window], the HTML of a parse is what the
    sanitizer returns for the markup of the renderer under the fixed
    configuration of the source; with the option off or without a
    [window] it is the markup of the renderer as it is.  With a sanitizer
    that keeps to the allow-lists, as the one of the reference platform
    does, the HTML is text and tags of the allow-list: no tag outside the
    list, and none of [script], [object], [embed], [form], [input], is in
    it.  The
    configuration lets no [style] attribute and no attribute whose name
    starts with [on] through, and none of the five forbidden tags; the
    attributes it lets through are those of the allow-list and the
    [data-] and [aria-] ones.  A parser that does not allow raw HTML
    leaves a renderer in the library that drops it.  For the example,
    with the parser of the converter in a browser, the HTML has no
    [script] tag and has [<h1>Hi</h1>] and [<em>text</em>]. *)
Theorem C1_html_sanitization
        (P : Platform) (this : MarkdownParser.t) (st : Marked.State) (env : Env)
        (md : str) (r : ParsedMarkdown) :
  sanitize (options this) = true -> hasWindow env = true ->
  parse P this st env md = Ok r ->
  (exists h,
      marked_parser P st (tokens r) = Ok h
      /\ purify P purifyConfig h = Ok (html r))
  /\ (forall this' env' r',
         sanitize (options this') && hasWindow env' = false ->
         parse P this' st env' md = Ok r' ->
         marked_parser P st (tokens r') = Ok (html r'))
  /\ (keepsAllowList P ->
      Clean purifyConfig (html r)
      /\ (forall n, In n (tagNames (html r)) ->
                    inList (ALLOWED_TAGS purifyConfig) n = true
                    /\ inList (FORBID_TAGS purifyConfig) n = false)
      /\ (forall n, In n ["script"; "object"; "embed"; "form"; "input"]%string ->
                    ~ In (lit n) (tagNames (html r))))
  /\ keepsAllowList referencePlatform
  /\ (forall k, In k ["onclick"; "onload"; "onerror"; "onmouseover"; "style"]%string ->
                inList (FORBID_ATTR purifyConfig) (lit k) = true
                /\ attrAllowed purifyConfig (lit k) = false)
  /\ (forall k, JS.startsWith (lit "on") k = true -> attrAllowed purifyConfig k = false)
  /\ (forall n, In n ["script"; "object"; "embed"; "form"; "input"]%string ->
                inList (FORBID_TAGS purifyConfig) (lit n) = true
                /\ tagAllowed purifyConfig (lit n) = false)
  /\ (forall k, attrAllowed purifyConfig k = true ->
                In k (List.map lit (ALLOWED_ATTR purifyConfig))
                \/ JS.startsWith (lit "data-") k = true
                \/ JS.startsWith (lit "aria-") k = true)
  /\ (forall o st0,
         allowHtml (mergeOptions o) = false ->
         exists drop,
           r_html (s_renderer (snd (MarkdownParser.new P o st0))) = Some drop
           /\ forall raw, drop raw = [])
  /\ (exists r',
         parse referencePlatform (parser (appConverter referencePlatform))
               (appState referencePlatform) env scriptExample = Ok r'
         /\ JS.includes (lit "<script") (html r') = false
         /\ JS.includes (lit "<h1>Hi</h1>") (html r') = true
         /\ JS.includes (lit "<em>text</em>") (html r') = true).
Proof.
  intros Hs Hw Hr.
  destruct (parse_html P this st env md r Hr) as [h [Hh Hp]].
  rewrite Hs, Hw in Hp. cbn [andb] in Hp.
  split; [exists h; split; assumption|].
  split.
  { intros this' env' r' Hoff Hr'.
    destruct (parse_html P this' st env' md r' Hr') as [h' [Hh' Hp']].
    rewrite Hoff in Hp'. now rewrite Hp'. }
  split.
  { intro Hk. pose proof (Hk h (html r) Hp) as Hc.
    split; [exact Hc | now apply clean_allowed]. }
  split; [exact reference_keepsAllowList|].
  split.
  { intros k Hk. cbn in Hk.
    destruct Hk as [<-|[<-|[<-|[<-|[<-|[]]]]]]; split; vm_compute; reflexivity. }
  split; [exact no_event_handlers|].
  split.
  { intros n Hn. cbn in Hn.
    destruct Hn as [<-|[<-|[<-|[<-|[<-|[]]]]]]; split; vm_compute; reflexivity. }
  split.
  { intros k Hk. unfold attrAllowed in Hk.
    apply orb_true_iff in Hk as [Hk|Hk]; [apply orb_true_iff in Hk as [Hk|Hk]|].
    - right; left. apply andb_true_iff in Hk as [Hk _]. unfold isDataAttr in Hk.
      apply andb_true_iff in Hk as [Hk _]. now apply andb_true_iff in Hk as [Hk _].
    - right; right. unfold isAriaAttr in Hk.
      apply andb_true_iff in Hk as [Hk _]. now apply andb_true_iff in Hk as [Hk _].
    - left. apply andb_true_iff in Hk as [Hk _].
      apply inList_In in Hk as [a [Ha ->]]. now apply in_map. }
  split.
  { intros o st0 Ha. exists (fun _ => []). split; [|reflexivity].
    unfold MarkdownParser.new, configureMarked, renderer, Marked.use.
    cbn [snd options s_renderer r_html]. rewrite Ha. reflexivity. }
  destruct env as [w now iso loc]. cbn [hasWindow] in Hw. subst w.
  eexists. split; [vm_compute; reflexivity|].
  repeat split; vm_compute; reflexivity.
Qed.

Lemma C1_html_sanitization_witness :
  let P := referencePlatform in
  let this := parser (appConverter P) in
  let st := appState P in
  let r := scriptParsed in
  (exists h,
      marked_parser P st (tokens r) = Ok h
      /\ purify P purifyConfig h = Ok (html r))
  /\ (forall this' env' r',
         sanitize (options this') && hasWindow env' = false ->
         parse P this' st env' scriptExample = Ok r' ->
         marked_parser P st (tokens r') = Ok (html r'))
  /\ (keepsAllowList P ->
      Clean purifyConfig (html r)
      /\ (forall n, In n (tagNames (html r)) ->
                    inList (ALLOWED_TAGS purifyConfig) n = true
                    /\ inList (FORBID_TAGS purifyConfig) n = false)
      /\ (forall n, In n ["script"; "object"; "embed"; "form"; "input"]%string ->
                    ~ In (lit n) (tagNames (html r))))
  /\ keepsAllowList referencePlatform
  /\ (forall k, In k ["onclick"; "onload"; "onerror"; "onmouseover"; "style"]%string ->
                inList (FORBID_ATTR purifyConfig) (lit k) = true
                /\ attrAllowed purifyConfig (lit k) = false)
  /\ (forall k, JS.startsWith (lit "on") k = true -> attrAllowed purifyConfig k = false)
  /\ (forall n, In n ["script"; "object"; "embed"; "form"; "input"]%string ->
                inList (FORBID_TAGS purifyConfig) (lit n) = true
                /\ tagAllowed purifyConfig (lit n) = false)
  /\ (forall k, attrAllowed purifyConfig k = true ->
                In k (List.map lit (ALLOWED_ATTR purifyConfig))
                \/ JS.startsWith (lit "data-") k = true
                \/ JS.startsWith (lit "aria-") k = true)
  /\ (forall o st0,
         allowHtml (mergeOptions o) = false ->
         exists drop,
           r_html (s_renderer (snd (MarkdownParser.new P o st0))) = Some drop
           /\ forall raw, drop raw = [])
  /\ (exists r',
         parse P this st browserEnv scriptExample = Ok r'
         /\ JS.includes (lit "<script") (html r') = false
         /\ JS.includes (lit "<h1>Hi</h1>") (html r') = true
         /\ JS.includes (lit "<em>text</em>") (html r') = true).
Proof.
  apply (C1_html_sanitization referencePlatform
           (parser (appConverter referencePlatform)) (appState referencePlatform)
           browserEnv scriptExample scriptParsed);
    [reflexivity | reflexivity | vm_compute; reflexivity].
Defined.

End HtmlSanitization.

(* ===================================================================== *)
(** * Further properties of the code                                      *)
(* ===================================================================== *)

(** ** The rate limiter over time *)

Section RateLimiterTraces.
Import Security Spec Traces.
Local Open Scope Z_scope.

Lemma filter_filter_implied {A} (f g : A -> bool) (l : list A) :
  (forall x, g x = true -> f x = true) -> filter g (filter f l) = filter g l.
Proof.
  intro H. induction l as [|x l IH]; [reflexivity|].
  cbn [filter]. destruct (f x) eqn:Ef.
  - cbn [filter]. now rewrite IH.
  - rewrite IH. destruct (g x) eqn:Eg; [|reflexivity].
    apply H in Eg. congruence.
Qed.

(** Pruning at a later time forgets an earlier pruning. *)
Lemma prune_prune now1 now2 rl :
  now1 <= now2 ->
  prune now2 (mkRL (prune now1 rl) (maxRequests rl) (windowMs rl)) = prune now2 rl.
Proof.
  intro H. unfold prune. cbn [requests windowMs].
  apply filter_filter_implied. intros t Ht.
  apply Z.ltb_lt in Ht. apply Z.ltb_lt. lia.
Qed.

Lemma canMakeRequest_fst now rl :
  fst (canMakeRequest now rl) = true
  <-> Z.of_nat (List.length (prune now rl)) < maxRequests rl.
Proof.
  unfold canMakeRequest.
  destruct (Z.geb_spec (Z.of_nat (List.length (prune now rl))) (maxRequests rl));
    cbn [fst]; split; intro; try lia; congruence.
Qed.

(** X1: [canMakeRequest] answers [true] exactly when
    [getRemainingRequests], asked at the same time, answers a positive
    number; a refusal leaves the limiter as the query does. *)
Theorem X1_canMakeRequest_agrees_with_remaining (now : Z) (rl : RateLimiter) :
  (fst (canMakeRequest now rl) = true <-> 0 < fst (getRemainingRequests now rl))
  /\ (fst (canMakeRequest now rl) = false <-> fst (getRemainingRequests now rl) = 0)
  /\ (fst (canMakeRequest now rl) = false ->
      snd (canMakeRequest now rl) = snd (getRemainingRequests now rl)).
Proof.
  pose proof (canMakeRequest_fst now rl) as H.
  assert (Hr : fst (getRemainingRequests now rl)
               = Z.max 0 (maxRequests rl - Z.of_nat (List.length (prune now rl))))
    by reflexivity.
  split; [|split].
  - rewrite H, Hr. lia.
  - rewrite Hr. destruct (fst (canMakeRequest now rl)).
    + split; [discriminate|]. intro. assert (true = true) as E by reflexivity.
      apply H in E. lia.
    + split; [|reflexivity]. intros _.
      destruct (Z.max_spec 0 (maxRequests rl - Z.of_nat (List.length (prune now rl))))
        as [[Hlt ->]|[Hge ->]]; [|reflexivity].
      exfalso. assert (false = true) as E by (apply H; lia). discriminate.
  - intro Hf. unfold canMakeRequest in *.
    destruct (Z.of_nat (List.length (prune now rl)) >=? maxRequests rl);
      [reflexivity | discriminate].
Qed.

(** X2: when the clock does not go back, a query of the remaining
    requests and a refused request change nothing for the calls that
    follow. *)
Theorem X2_queries_are_transparent (now1 now2 : Z) (rl : RateLimiter) :
  now1 <= now2 ->
  canMakeRequest now2 (snd (getRemainingRequests now1 rl)) = canMakeRequest now2 rl
  /\ getRemainingRequests now2 (snd (getRemainingRequests now1 rl))
     = getRemainingRequests now2 rl
  /\ (fst (canMakeRequest now1 rl) = false ->
      canMakeRequest now2 (snd (canMakeRequest now1 rl)) = canMakeRequest now2 rl
      /\ getRemainingRequests now2 (snd (canMakeRequest now1 rl))
         = getRemainingRequests now2 rl).
Proof.
  intro H.
  assert (Hq : canMakeRequest now2 (snd (getRemainingRequests now1 rl))
               = canMakeRequest now2 rl
               /\ getRemainingRequests now2 (snd (getRemainingRequests now1 rl))
                  = getRemainingRequests now2 rl).
  { change (snd (getRemainingRequests now1 rl))
      with (mkRL (prune now1 rl) (maxRequests rl) (windowMs rl)).
    unfold canMakeRequest, getRemainingRequests.
    rewrite (prune_prune now1 now2 rl H). cbn [maxRequests windowMs].
    split; reflexivity. }
  split; [apply Hq|]. split; [apply Hq|].
  intro Hf.
  assert (Hs : snd (canMakeRequest now1 rl) = snd (getRemainingRequests now1 rl)).
  { unfold canMakeRequest in *.
    destruct (Z.of_nat (List.length (prune now1 rl)) >=? maxRequests rl);
      [reflexivity | discriminate]. }
  rewrite Hs. exact Hq.
Qed.

Lemma X2_queries_are_transparent_witness :
  canMakeRequest 20 (snd (getRemainingRequests 10 (mkRL [1; 2] 2 15)))
  = canMakeRequest 20 (mkRL [1; 2] 2 15)
  /\ getRemainingRequests 20 (snd (getRemainingRequests 10 (mkRL [1; 2] 2 15)))
     = getRemainingRequests 20 (mkRL [1; 2] 2 15)
  /\ (fst (canMakeRequest 10 (mkRL [1; 2] 2 15)) = false ->
      canMakeRequest 20 (snd (canMakeRequest 10 (mkRL [1; 2] 2 15)))
      = canMakeRequest 20 (mkRL [1; 2] 2 15)
      /\ getRemainingRequests 20 (snd (canMakeRequest 10 (mkRL [1; 2] 2 15)))
         = getRemainingRequests 20 (mkRL [1; 2] 2 15)).
Proof.
  apply (X2_queries_are_transparent 10 20 (mkRL [1; 2] 2 15)). lia.
Defined.

(** X3: with a positive window, an admitted request takes exactly one
    from the remaining requests of that time. *)
Theorem X3_admission_takes_one (now : Z) (rl : RateLimiter) :
  0 < windowMs rl ->
  fst (canMakeRequest now rl) = true ->
  fst (getRemainingRequests now (snd (canMakeRequest now rl)))
  = fst (getRemainingRequests now rl) - 1.
Proof.
  intros Hw Ha. apply canMakeRequest_fst in Ha.
  unfold canMakeRequest.
  destruct (Z.geb_spec (Z.of_nat (List.length (prune now rl))) (maxRequests rl));
    [lia|].
  cbn [snd]. unfold getRemainingRequests. cbn [fst].
  assert (Hp : prune now (mkRL (prune now rl ++ [now]) (maxRequests rl) (windowMs rl))
               = prune now rl ++ [now]).
  { unfold prune at 1. cbn [requests windowMs]. rewrite filter_app.
    change (filter (fun time => now - time <? windowMs rl) (prune now rl))
      with (prune now (mkRL (prune now rl) (maxRequests rl) (windowMs rl))).
    rewrite prune_prune by lia. cbn [filter].
    replace (now - now <? windowMs rl) with true
      by (symmetry; apply Z.ltb_lt; lia).
    reflexivity. }
  rewrite Hp. cbn [maxRequests]. rewrite length_app. cbn [List.length]. lia.
Qed.

Lemma X3_admission_takes_one_witness :
  fst (getRemainingRequests 7 (snd (canMakeRequest 7 rateLimiter)))
  = fst (getRemainingRequests 7 rateLimiter) - 1.
Proof.
  apply (X3_admission_takes_one 7 rateLimiter); [cbn; lia | reflexivity].
Defined.

(** What is retained was recorded at the time of some call. *)
Lemma run_requests_before T calls : forall rl,
  Forall (fun t => t <= T) (requests rl) ->
  Forall (fun c : call * Z => snd c <= T) calls ->
  Forall (fun t => t <= T) (requests (run calls rl)).
Proof.
  induction calls as [|[k now] calls IH]; intros rl Hr Hc; [exact Hr|].
  change (run ((k, now) :: calls) rl) with (run calls (step rl (k, now))).
  inversion Hc as [|c cs Hnow Hrest]; subst. cbn [snd] in Hnow.
  apply IH; [|exact Hrest].
  assert (Hp : Forall (fun t => t <= T) (prune now rl)).
  { apply Forall_forall. intros t Ht. apply prune_In in Ht as [Ht _].
    rewrite Forall_forall in Hr. now apply Hr. }
  destruct k; unfold step; cbn [fst snd].
  - unfold canMakeRequest. destruct (_ >=? _); cbn [snd requests]; [exact Hp|].
    apply Forall_app. split; [exact Hp|]. constructor; [exact Hnow | constructor].
  - exact Hp.
Qed.

(** X4: a limiter that allows at least one request admits again once a
    whole window has gone by since the last call, whatever was asked of
    it before; nothing older is retained then. *)
Theorem X4_admits_after_a_quiet_window
        (maxR win T now : Z) (calls : list (call * Z)) :
  0 < maxR ->
  Forall (fun c : call * Z => snd c <= T) calls ->
  T + win <= now ->
  canMakeRequest now (run calls (newRateLimiter (Some maxR) (Some win)))
  = (true, mkRL [now] maxR win).
Proof.
  intros Hm Hc Hq.
  set (rl := run calls (newRateLimiter (Some maxR) (Some win))).
  destruct (run_params calls (newRateLimiter (Some maxR) (Some win))) as [Hmax Hwin].
  fold rl in Hmax, Hwin. cbn in Hmax, Hwin.
  assert (Hb : Forall (fun t => t <= T) (requests rl)).
  { apply run_requests_before; [constructor | exact Hc]. }
  assert (Hp : prune now rl = []).
  { unfold prune. rewrite Hwin.
    induction Hb as [|t l Ht _ IH]; [reflexivity|]. cbn [filter].
    replace (now - t <? win) with false by (symmetry; apply Z.ltb_ge; lia).
    exact IH. }
  rewrite canMakeRequest_admits; rewrite Hp, ?Hmax, ?Hwin; [reflexivity | cbn; lia].
Qed.

Lemma X4_admits_after_a_quiet_window_witness :
  canMakeRequest 1100
    (run [(CanMakeRequest, 5); (CanMakeRequest, 7); (CanMakeRequest, 100)]
         (newRateLimiter (Some 2) (Some 1000)))
  = (true, mkRL [1100] 2 1000).
Proof.
  apply (X4_admits_after_a_quiet_window 2 1000 100 1100
           [(CanMakeRequest, 5); (CanMakeRequest, 7); (CanMakeRequest, 100)]).
  - lia.
  - repeat constructor; cbn; lia.
  - lia.
Defined.

(** The requests admitted from a time on are not older than it. *)
Lemma admitted_after calls : forall rl t0,
  clockFrom t0 (List.map snd calls) ->
  Forall (fun t => t0 <= t) (admitted calls rl).
Proof.
  induction calls as [|[k now] calls IH]; intros rl t0 Hc; [constructor|].
  cbn [List.map snd clockFrom] in Hc. destruct Hc as [H0 Hc].
  assert (Hrest : forall rl', Forall (fun t => t0 <= t) (admitted calls rl')).
  { intro rl'. eapply Forall_impl; [|apply (IH rl' now Hc)].
    cbn. intros; lia. }
  destruct k; cbn [admitted]; [|apply Hrest].
  apply Forall_app. split; [|apply Hrest].
  destruct (fst (canMakeRequest now rl)); repeat constructor. exact H0.
Qed.

Lemma step_admitted k now rest rl :
  requests (step rl (k, now)) ++ admitted rest (step rl (k, now))
  = prune now rl ++ admitted ((k, now) :: rest) rl.
Proof.
  destruct k; unfold step; cbn [fst snd admitted]; [|reflexivity].
  unfold canMakeRequest. destruct (_ >=? _); cbn [fst snd requests app].
  - reflexivity.
  - now rewrite <- app_assoc.
Qed.

Lemma step_bounded rl c :
  Z.of_nat (List.length (requests rl)) <= Z.max 0 (maxRequests rl) ->
  Z.of_nat (List.length (requests (step rl c))) <= Z.max 0 (maxRequests rl).
Proof.
  intro H. destruct c as [k now]. pose proof (prune_length now rl) as Hp.
  destruct k; unfold step; cbn [fst snd].
  - unfold canMakeRequest.
    destruct (Z.geb_spec (Z.of_nat (List.length (prune now rl))) (maxRequests rl));
      cbn [snd requests]; [lia|].
    rewrite length_app. cbn [List.length]. lia.
  - cbn [getRemainingRequests snd requests]. lia.
Qed.

Lemma filter_none_after a w now (l : list Z) :
  a + w <= now -> Forall (fun t => now <= t) l -> filter (inWindow a w) l = [].
Proof.
  intros Ha Hl. induction Hl as [|t l Ht _ IH]; [reflexivity|].
  cbn [filter]. unfold inWindow at 1.
  replace (t <? a + w) with false by (symmetry; apply Z.ltb_ge; lia).
  rewrite andb_false_r. exact IH.
Qed.

(** Under a clock that does not go back: what is retained and what is
    admitted later never put more than [maxRequests] requests in one
    window. *)
Lemma window_bound calls : forall rl t0 a,
  clockFrom t0 (List.map snd calls) ->
  Z.of_nat (List.length (requests rl)) <= Z.max 0 (maxRequests rl) ->
  Z.of_nat (List.length (filter (inWindow a (windowMs rl))
                                (requests rl ++ admitted calls rl)))
  <= Z.max 0 (maxRequests rl).
Proof.
  induction calls as [|[k now] calls IH]; intros rl t0 a Hc Hlen.
  - cbn [admitted]. rewrite app_nil_r.
    pose proof (filter_length_le (inWindow a (windowMs rl)) (requests rl)). lia.
  - pose proof Hc as Hc'. cbn [List.map snd clockFrom] in Hc'.
    destruct Hc' as [H0 Hrest].
    destruct (Z_le_gt_dec (a + windowMs rl) now) as [Hout|Hin].
    + rewrite filter_app.
      rewrite (filter_none_after a (windowMs rl) now (admitted ((k, now) :: calls) rl) Hout).
      * rewrite app_nil_r.
        pose proof (filter_length_le (inWindow a (windowMs rl)) (requests rl)). lia.
      * apply admitted_after. cbn [List.map snd clockFrom]. split; [lia | exact Hrest].
    + destruct (step_params rl (k, now)) as [Hm Hw].
      specialize (IH (step rl (k, now)) now a Hrest).
      rewrite Hm, Hw in IH. rewrite step_admitted in IH.
      rewrite filter_app in IH |- *.
      replace (filter (inWindow a (windowMs rl)) (requests rl))
        with (filter (inWindow a (windowMs rl)) (prune now rl)).
      * apply IH. now apply step_bounded.
      * unfold prune. apply filter_filter_implied. intros t Ht.
        unfold inWindow in Ht. apply andb_true_iff in Ht as [Ht _].
        apply Z.leb_le in Ht. apply Z.ltb_lt. lia.
Qed.

(** X5: under a clock that does not go back, a fresh limiter never
    admits more than [maxRequests] requests within one window of length
    [windowMs], wherever the window starts and however the admissions
    and the queries are interleaved. *)
Theorem X5_sliding_window_bound
        (maxR win : Z) (calls : list (call * Z)) (t0 a : Z) :
  clockFrom t0 (List.map snd calls) ->
  Z.of_nat (List.length
              (filter (inWindow a win)
                      (admitted calls (newRateLimiter (Some maxR) (Some win)))))
  <= Z.max 0 maxR.
Proof.
  intro Hc.
  apply (window_bound calls (newRateLimiter (Some maxR) (Some win)) t0 a Hc).
  cbn. lia.
Qed.

Lemma X5_sliding_window_bound_witness :
  Z.of_nat (List.length
              (filter (inWindow 4 1000)
                      (admitted [(CanMakeRequest, 5); (GetRemainingRequests, 6);
                                 (CanMakeRequest, 7); (CanMakeRequest, 100);
                                 (CanMakeRequest, 1003); (CanMakeRequest, 1006)]
                                (newRateLimiter (Some 2) (Some 1000)))))
  <= Z.max 0 2.
Proof.
  apply (X5_sliding_window_bound 2 1000
           [(CanMakeRequest, 5); (GetRemainingRequests, 6);
            (CanMakeRequest, 7); (CanMakeRequest, 100);
            (CanMakeRequest, 1003); (CanMakeRequest, 1006)] 0 4).
  cbn. lia.
Defined.

(** The bound needs the clock: when it goes back, three requests are
    admitted within one window of a limiter that allows two. *)
Example window_bound_needs_the_clock :
  admitted [(CanMakeRequest, 5); (CanMakeRequest, 6); (CanMakeRequest, 100);
            (CanMakeRequest, 7)]
           (newRateLimiter (Some 2) (Some 10))
  = [5; 6; 100; 7].
Proof. reflexivity. Qed.

End RateLimiterTraces.

(** ** Names of files, from the upload to the download *)

Section FilenameFixpoints.
Import RegExp Security Spec.

Lemma map_replaceUnsafe_safe s :
  forallb safeChar s = true -> List.map replaceUnsafe s = s.
Proof.
  induction s as [|x s IH]; cbn [forallb List.map]; intro H; [reflexivity|].
  apply andb_true_iff in H as [Hx Hs]. unfold replaceUnsafe at 1.
  rewrite Hx, IH by exact Hs. reflexivity.
Qed.

Lemma stripLeading_id s : hd_error s <> Some 46%N -> stripLeadingDots s = s.
Proof.
  destruct s as [|x s]; [reflexivity|]. cbn [hd_error]. intro H.
  unfold stripLeadingDots. cbn [JS.dropWhile].
  destruct (isDot x) eqn:E; [|reflexivity].
  apply N.eqb_eq in E. congruence.
Qed.

Lemma all_dots_last s :
  s <> [] -> forallb isDot s = true -> List.last s 0%N = 46%N.
Proof.
  induction s as [|x s IH]; [congruence|]. intros _ H.
  cbn [forallb] in H. apply andb_true_iff in H as [Hx Hs].
  destruct s as [|y s]; [now apply N.eqb_eq in Hx|].
  change (List.last (x :: y :: s) 0%N) with (List.last (y :: s) 0%N).
  apply IH; [discriminate | exact Hs].
Qed.

Lemma stripTrailing_id s : List.last s 0%N <> 46%N -> stripTrailingDots s = s.
Proof.
  induction s as [|x s IH]; [reflexivity|]. intro H.
  cbn [stripTrailingDots]. destruct (forallb isDot (x :: s)) eqn:E.
  - exfalso. apply H. apply all_dots_last; [discriminate | exact E].
  - destruct s as [|y s]; [reflexivity|]. rewrite IH; [reflexivity | exact H].
Qed.

Lemma stripTrailing_length s :
  List.length (stripTrailingDots s) <= List.length s.
Proof.
  induction s as [|x s IH]; [apply le_n|]. cbn [stripTrailingDots].
  destruct (forallb isDot (x :: s)); cbn [List.length]; lia.
Qed.

(** The name after the replacement and the two strippings. *)
Lemma core_clean name :
  let core := stripTrailingDots (stripLeadingDots (List.map replaceUnsafe name)) in
  forallb safeChar core = true
  /\ hd_error core <> Some 46%N
  /\ List.last core 0%N <> 46%N
  /\ List.length core <= List.length name.
Proof.
  intro core. split; [|split; [|split]].
  - apply forallb_forall. intros c Hc.
    apply stripTrailing_incl, dropWhile_incl in Hc.
    apply in_map_iff in Hc as [d [<- _]]. apply replaceUnsafe_safe.
  - intro H. apply stripTrailing_head, dropWhile_head in H. discriminate.
  - apply stripTrailing_last.
  - unfold core, stripLeadingDots.
    pose proof (stripTrailing_length (JS.dropWhile isDot (List.map replaceUnsafe name))).
    pose proof (dropWhile_length isDot (List.map replaceUnsafe name)).
    rewrite length_map in *. lia.
Qed.

(** On a name that needs no change, only the cut is left. *)
Lemma sanitizeFilename_clean s :
  forallb safeChar s = true -> hd_error s <> Some 46%N -> List.last s 0%N <> 46%N ->
  sanitizeFilename s = firstn 255 s.
Proof.
  intros Hs Hh Hl. rewrite sanitizeFilename_refines. unfold sanitizeFilenameSpec.
  rewrite map_replaceUnsafe_safe, stripLeading_id, stripTrailing_id by assumption.
  reflexivity.
Qed.

Lemma sanitizeFilename_short name :
  List.length name <= 255 ->
  sanitizeFilename name
  = stripTrailingDots (stripLeadingDots (List.map replaceUnsafe name)).
Proof.
  intro H. rewrite sanitizeFilename_refines. unfold sanitizeFilenameSpec.
  apply firstn_all2. destruct (core_clean name) as [_ [_ [_ Hlen]]]. lia.
Qed.

Lemma sanitizeFilename_length name : List.length (sanitizeFilename name) <= 255.
Proof.
  rewrite sanitizeFilename_refines. unfold sanitizeFilenameSpec.
  apply firstn_le_length.
Qed.

Lemma sanitizeFilename_safe name : forallb safeChar (sanitizeFilename name) = true.
Proof.
  rewrite sanitizeFilename_refines. unfold sanitizeFilenameSpec.
  apply forallb_forall. intros c Hc. apply firstn_incl in Hc.
  destruct (core_clean name) as [Hs _].
  rewrite forallb_forall in Hs. now apply Hs.
Qed.

Lemma sanitizeFilename_head name : hd_error (sanitizeFilename name) <> Some 46%N.
Proof.
  rewrite sanitizeFilename_refines. unfold sanitizeFilenameSpec.
  intro H. apply firstn_head in H.
  destruct (core_clean name) as [_ [Hh _]]. now apply Hh.
Qed.

(** A name of at most 255 code units is sanitized for good. *)
Lemma sanitizeFilename_short_fixed name :
  List.length name <= 255 ->
  sanitizeFilename (sanitizeFilename name) = sanitizeFilename name
  /\ List.last (sanitizeFilename name) 0%N <> 46%N.
Proof.
  intro H. rewrite (sanitizeFilename_short name H).
  destruct (core_clean name) as [Hs [Hh [Hl Hlen]]].
  split; [|exact Hl].
  rewrite sanitizeFilename_clean by assumption.
  apply firstn_all2. lia.
Qed.

(** X6: the names that [sanitizeFilename] leaves alone are those of at
    most 255 code units, all in [[A-Za-z0-9._-]], that neither start nor
    end with a dot. *)
Theorem X6_sanitizeFilename_fixed_points (name : str) :
  sanitizeFilename name = name
  <-> forallb safeChar name = true
      /\ hd_error name <> Some 46%N
      /\ List.last name 0%N <> 46%N
      /\ List.length name <= 255.
Proof.
  split.
  - intro H.
    assert (Hs : forallb safeChar name = true)
      by (rewrite <- H; apply sanitizeFilename_safe).
    assert (Hh : hd_error name <> Some 46%N)
      by (rewrite <- H; apply sanitizeFilename_head).
    assert (Hlen : List.length name <= 255)
      by (rewrite <- H; apply sanitizeFilename_length).
    split; [exact Hs|]. split; [exact Hh|]. split; [|exact Hlen].
    destruct (sanitizeFilename_short_fixed name Hlen) as [_ Hl].
    rewrite H in Hl. exact Hl.
  - intros [Hs [Hh [Hl Hlen]]].
    rewrite sanitizeFilename_clean by assumption. now apply firstn_all2.
Qed.

(** X7: [sanitizeFilename] is not idempotent: the cut to 255 code units
    comes after the stripping of the dots, so that the result of a long
    name may end with a dot, which a second pass strips.  Two passes
    always reach a name that further passes leave alone, and one pass
    does for the names of at most 255 code units. *)
Theorem X7_sanitizeFilename_twice (name : str) :
  sanitizeFilename (sanitizeFilename (sanitizeFilename name))
  = sanitizeFilename (sanitizeFilename name)
  /\ (List.length name <= 255 ->
      sanitizeFilename (sanitizeFilename name) = sanitizeFilename name
      /\ List.last (sanitizeFilename name) 0%N <> 46%N)
  /\ (let long := List.repeat 97%N 254 ++ lit ".b" in
      sanitizeFilename long = List.repeat 97%N 254 ++ lit "."
      /\ sanitizeFilename (sanitizeFilename long) = List.repeat 97%N 254).
Proof.
  split; [|split].
  - apply sanitizeFilename_short_fixed, sanitizeFilename_length.
  - apply sanitizeFilename_short_fixed.
  - split; vm_compute; reflexivity.
Qed.

(** [/\.[^/.]+$/] *)
Lemma plus_to_end c prev s :
  matchHere false [Cls c Plus; Eol] prev s
  = match s with
    | [] => None
    | _ :: _ => if forallb c s then Some (List.length s) else None
    end.
Proof.
  destruct s as [|x s]; [reflexivity|].
  cbn [matchHere forallb]. destruct (c x); cbn [andb]; [|reflexivity].
  rewrite greedy_to_end. destruct (forallb c s); reflexivity.
Qed.

Lemma matchAt_extension prev x r :
  matchAt Converters.reExtension prev (x :: r)
  = if isChr "." x
    then match r with
         | [] => None
         | _ :: _ => if forallb (isNot ["/"; "."]%char) r
                     then Some (S (List.length r)) else None
         end
    else None.
Proof.
  unfold matchAt.
  cbn [Converters.reExtension re1 multiline alts matchAlts].
  change (matchHere false [one (isChr "."); Cls (isNot ["/"; "."]%char) Plus; Eol]
                    prev (x :: r))
    with (if isChr "." x
          then option_map S (matchHere false [Cls (isNot ["/"; "."]%char) Plus; Eol]
                                       (Some x) r)
          else None).
  destruct (isChr "." x); [|reflexivity].
  rewrite plus_to_end. destruct r as [|y r]; [reflexivity|].
  destruct (forallb _ (y :: r)); reflexivity.
Qed.

Lemma search_extension ext : forall name prev,
  ext <> [] -> forallb (isNot ["/"; "."]%char) ext = true ->
  search Converters.reExtension prev (name ++ 46%N :: ext)
  = Some (List.length name, S (List.length ext)).
Proof.
  intros name prev Hne Hext. revert prev.
  induction name as [|x name IH]; intro prev.
  - cbn [app search]. rewrite matchAt_extension.
    change (isChr "." 46%N) with true. cbn match.
    destruct ext as [|y ext]; [congruence|]. rewrite Hext. reflexivity.
  - cbn [app search]. rewrite matchAt_extension.
    assert (Hno : forallb (isNot ["/"; "."]%char) (name ++ 46%N :: ext) = false).
    { rewrite forallb_app. cbn [forallb].
      change (isNot ["/"; "."]%char 46%N) with false.
      rewrite andb_false_l. apply andb_false_r. }
    replace (if isChr "." x
             then match name ++ 46%N :: ext with
                  | [] => None
                  | _ :: _ => if forallb (isNot ["/"; "."]%char) (name ++ 46%N :: ext)
                              then Some (S (List.length (name ++ 46%N :: ext)))
                              else None
                  end
             else None) with (@None nat).
    + rewrite IH. reflexivity.
    + destruct (isChr "." x); [|reflexivity].
      rewrite Hno. destruct (name ++ 46%N :: ext); reflexivity.
Qed.

Lemma replace_extension_last name ext :
  ext <> [] -> forallb (isNot ["/"; "."]%char) ext = true ->
  replace Converters.reExtension [] (name ++ lit "." ++ ext) = name.
Proof.
  intros Hne Hext. unfold replace.
  change (name ++ lit "." ++ ext) with (name ++ 46%N :: ext).
  rewrite (search_extension ext name None Hne Hext).
  rewrite firstn_app, firstn_all, Nat.sub_diag. cbn [firstn app].
  rewrite app_nil_r.
  rewrite skipn_all2; [apply app_nil_r|].
  rewrite length_app. cbn [List.length]. lia.
Qed.

End FilenameFixpoints.

Section BaseFilenames.
Import RegExp Security Spec Converters.

Lemma digit_safe n : safeChar (JS.digit (n mod 10)) = true.
Proof.
  assert (H : (n mod 10 < 10)%N) by (apply N.mod_lt; discriminate).
  generalize dependent (n mod 10)%N. intros d H.
  unfold safeChar, JS.isDigit, JS.digit.
  replace (N.leb 48 (48 + d)) with true by (symmetry; apply N.leb_le; lia).
  replace (N.leb (48 + d) 57) with true by (symmetry; apply N.leb_le; lia).
  cbn [andb]. rewrite orb_true_r. reflexivity.
Qed.

Lemma decimal_fuel_safe fuel : forall n acc,
  forallb safeChar acc = true ->
  forallb safeChar (JS.decimal_fuel fuel n acc) = true.
Proof.
  induction fuel as [|k IH]; intros n acc H; [exact H|].
  cbn [JS.decimal_fuel].
  assert (H' : forallb safeChar (JS.digit (n mod 10) :: acc) = true)
    by (cbn [forallb]; now rewrite digit_safe, H).
  destruct (N.ltb n 10); [exact H' | now apply IH].
Qed.

Lemma ofZ_safe z : forallb safeChar (JS.ofZ z) = true.
Proof.
  destruct z as [|p|p]; unfold JS.ofZ, JS.decimal; cbn [forallb];
    rewrite ?decimal_fuel_safe; reflexivity.
Qed.

Lemma defaultName_clean env :
  forallb safeChar (defaultName env) = true
  /\ defaultName env <> []
  /\ hd_error (defaultName env) <> Some 46%N.
Proof.
  unfold defaultName. split; [|split].
  - rewrite forallb_app, ofZ_safe. reflexivity.
  - discriminate.
  - discriminate.
Qed.

(** [getBaseFilename] is the sanitized name without its extension, or
    the default name when that is empty. *)
Lemma getBaseFilename_cases env o :
  getBaseFilename env o = defaultName env
  \/ (getBaseFilename env o <> []
      /\ exists name, getBaseFilename env o = sanitizeFilename name).
Proof.
  destruct o as [[|x name]|]; [left; reflexivity | | left; reflexivity].
  cbn [getBaseFilename].
  destruct (sanitizeFilename (replace reExtension [] (x :: name))) as [|c r] eqn:E;
    [left; reflexivity|].
  right. cbn [JS.orElse]. split; [discriminate|].
  exists (replace reExtension [] (x :: name)). now rewrite E.
Qed.

Lemma getBaseFilename_clean env o :
  forallb safeChar (getBaseFilename env o) = true
  /\ getBaseFilename env o <> []
  /\ hd_error (getBaseFilename env o) <> Some 46%N.
Proof.
  destruct (getBaseFilename_cases env o) as [->|[Hne [name H]]].
  - apply defaultName_clean.
  - split; [|split; [exact Hne|]]; rewrite H.
    + apply sanitizeFilename_safe.
    + apply sanitizeFilename_head.
Qed.

(** X8: whatever the name of the upload, and when there is none, the
    base name of the converted file is not empty, has only code units of
    [[A-Za-z0-9._-]], so no path separator, and does not start with a
    dot; it is the default name or has at most 255 code units. *)
Theorem X8_getBaseFilename_is_a_safe_name (env : Env) (originalFilename : option str) :
  let base := getBaseFilename env originalFilename in
  base <> []
  /\ forallb safeChar base = true
  /\ ~ In 47%N base /\ ~ In 92%N base
  /\ hd_error base <> Some 46%N
  /\ (base = defaultName env \/ List.length base <= 255).
Proof.
  intro base. destruct (getBaseFilename_clean env originalFilename) as [Hs [Hne Hh]].
  fold base in Hs, Hne, Hh.
  assert (Hin : forall c, In c base -> safeChar c = true)
    by (now apply forallb_forall).
  split; [exact Hne|]. split; [exact Hs|].
  split; [intro H; apply Hin in H; discriminate|].
  split; [intro H; apply Hin in H; discriminate|].
  split; [exact Hh|].
  destruct (getBaseFilename_cases env originalFilename) as [H|[_ [name H]]];
    fold base in H; [left; exact H|].
  right. rewrite H. apply sanitizeFilename_length.
Qed.

Lemma search_no_dot s : forall prev,
  forallb (fun c => negb (isChr "." c)) s = true ->
  search reExtension prev s = None.
Proof.
  induction s as [|x s IH]; intros prev H; [reflexivity|].
  cbn [forallb] in H. apply andb_true_iff in H as [Hx Hs].
  cbn [search]. rewrite matchAt_extension.
  apply negb_true_iff in Hx. rewrite Hx, (IH (Some x) Hs). reflexivity.
Qed.

Lemma getBaseFilename_of env name stem :
  replace reExtension [] name = stem -> name <> [] ->
  getBaseFilename env (Some name)
  = JS.orElse (Some (sanitizeFilename stem)) (defaultName env).
Proof.
  intros H Hne. destruct name as [|x name]; [congruence|].
  cbn [getBaseFilename]. now rewrite H.
Qed.

(** X9: [getBaseFilename] takes off the last extension only, an
    extension being a dot followed by code units other than [.] and [/]
    up to the end of the name; a name without a dot is kept whole, and a
    name that is nothing but an extension gives the default name. *)
Theorem X9_getBaseFilename_strips_last_extension (env : Env) (name ext : str) :
  ext <> [] ->
  forallb (isNot ["/"; "."]%char) ext = true ->
  replace reExtension [] (name ++ lit "." ++ ext) = name
  /\ getBaseFilename env (Some (name ++ lit "." ++ ext))
     = JS.orElse (Some (sanitizeFilename name)) (defaultName env)
  /\ getBaseFilename env (Some (lit "." ++ ext)) = defaultName env
  /\ getBaseFilename env (Some ext)
     = JS.orElse (Some (sanitizeFilename ext)) (defaultName env).
Proof.
  intros Hne Hext.
  pose proof (replace_extension_last name ext Hne Hext) as Hr.
  split; [exact Hr|]. split; [|split].
  - apply getBaseFilename_of; [exact Hr|].
    destruct name; discriminate.
  - transitivity (JS.orElse (Some (sanitizeFilename [])) (defaultName env));
      [|reflexivity].
    apply getBaseFilename_of; [|discriminate].
    apply (replace_extension_last [] ext Hne Hext).
  - apply getBaseFilename_of; [|exact Hne].
    unfold replace. rewrite search_no_dot; [reflexivity|].
    rewrite forallb_forall in Hext |- *. intros c Hc. specialize (Hext c Hc).
    unfold isNot in Hext. cbn [existsb] in Hext.
    apply negb_true_iff in Hext. apply orb_false_iff in Hext as [_ Hd].
    apply orb_false_iff in Hd as [Hd _]. unfold isChr. now rewrite Hd.
Qed.

Lemma X9_getBaseFilename_strips_last_extension_witness :
  replace reExtension [] (lit "notes.v2" ++ lit "." ++ lit "md") = lit "notes.v2"
  /\ getBaseFilename serverEnv (Some (lit "notes.v2" ++ lit "." ++ lit "md"))
     = JS.orElse (Some (sanitizeFilename (lit "notes.v2"))) (defaultName serverEnv)
  /\ getBaseFilename serverEnv (Some (lit "." ++ lit "md")) = defaultName serverEnv
  /\ getBaseFilename serverEnv (Some (lit "md"))
     = JS.orElse (Some (sanitizeFilename (lit "md"))) (defaultName serverEnv).
Proof.
  apply (X9_getBaseFilename_strips_last_extension serverEnv (lit "notes.v2") (lit "md"));
    [discriminate | reflexivity].
Defined.

End BaseFilenames.

(** ** The outcomes of a conversion *)

Section ConversionOutcomes.
Import Security MarkdownParser Converters FileHandler.

(** A conversion that succeeds went through one of the three
    converters. *)
Lemma convert_success_inv P this st env md format options :
  success (convert P this st env md format options) = true ->
  exists parsed,
    parse P (parser this) st env md = Ok parsed
    /\ ((format = lit "html"
         /\ convert P this st env md format options
            = convertToHTML env parsed
                (getBaseFilename env (originalFilename options)) options)
        \/ (format = lit "json"
            /\ convert P this st env md format options
               = convertToJSON env parsed
                   (getBaseFilename env (originalFilename options)) options)
        \/ (format = lit "txt"
            /\ convert P this st env md format options
               = convertToPlainText env parsed
                   (getBaseFilename env (originalFilename options)) options)).
Proof.
  unfold convert, convertBody.
  destruct (parse P (parser this) st env md) as [parsed|e];
    cbn [Exn.bind tryCatch]; [|discriminate].
  intro H. exists parsed. split; [reflexivity|].
  destruct (JS.eqb format (lit "html")) eqn:E1;
    [apply eqb_eq in E1; left; split; [exact E1 | reflexivity]|].
  destruct (JS.eqb format (lit "json")) eqn:E2;
    [apply eqb_eq in E2; right; left; split; [exact E2 | reflexivity]|].
  destruct (JS.eqb format (lit "txt")) eqn:E3;
    [apply eqb_eq in E3; right; right; split; [exact E3 | reflexivity]|].
  discriminate.
Qed.

Lemma format_known format :
  In format [lit "html"; lit "json"; lit "txt"]
  <-> JS.eqb format (lit "html") = true \/ JS.eqb format (lit "json") = true
      \/ JS.eqb format (lit "txt") = true.
Proof.
  rewrite !eqb_eq. cbn [In]. intuition congruence.
Qed.

(** X10: a conversion succeeds exactly when parsing does and the format
    is one of the three; the file is then named by the base name and the
    format, with the media type of the format.  It fails with the
    message of the error that parsing threw, with ['Unknown error
    occurred'] when what was thrown is not an error, and with the name
    of the format when that is unknown. *)
Theorem X10_convert_outcomes
        (P : Platform) (this : FileConverter) (st : Marked.State) (env : Env)
        (md format : str) (options : ConversionOptions) :
  let r := convert P this st env md format options in
  (success r = true
   <-> (exists parsed, parse P (parser this) st env md = Ok parsed)
       /\ In format [lit "html"; lit "json"; lit "txt"])
  /\ (success r = true ->
      filename r
      = getBaseFilename env (originalFilename options) ++ lit "." ++ format
      /\ mimeType r
         = (if JS.eqb format (lit "html") then lit "text/html"
            else if JS.eqb format (lit "json") then lit "application/json"
                 else lit "text/plain"))
  /\ (forall message,
         parse P (parser this) st env md = Throw (ErrorObj message) ->
         r = mkResult [] [] [] false (Some message))
  /\ (parse P (parser this) st env md = Throw NonError ->
      r = mkResult [] [] [] false (Some (lit "Unknown error occurred")))
  /\ (forall parsed,
         parse P (parser this) st env md = Ok parsed ->
         ~ In format [lit "html"; lit "json"; lit "txt"] ->
         r = mkResult [] [] [] false (Some (lit "Unsupported format: " ++ format))).
Proof.
  intro r. split; [|split; [|split; [|split]]].
  - split.
    + intro H. destruct (convert_success_inv P this st env md format options H)
        as [parsed [Hp Hf]].
      split; [exists parsed; exact Hp|].
      destruct Hf as [[-> _]|[[-> _]|[-> _]]]; cbn [In]; auto.
    + intros [[parsed Hp] Hf]. now apply (convert_succeeds P this st env md format options parsed).
  - intro H. destruct (convert_success_inv P this st env md format options H)
      as [parsed [Hp Hf]]. fold r in Hf.
    destruct Hf as [[-> ->]|[[-> ->]|[-> ->]]]; split; reflexivity.
  - intros message H. unfold r, convert, convertBody. rewrite H. reflexivity.
  - intro H. unfold r, convert, convertBody. rewrite H. reflexivity.
  - intros parsed Hp Hf. unfold r, convert, convertBody. rewrite Hp.
    cbn [Exn.bind tryCatch].
    rewrite format_known in Hf.
    destruct (JS.eqb format (lit "html")); [exfalso; apply Hf; auto|].
    destruct (JS.eqb format (lit "json")); [exfalso; apply Hf; auto|].
    destruct (JS.eqb format (lit "txt")); [exfalso; apply Hf; auto|].
    reflexivity.
Qed.

Lemma last_app_nonempty (a b : str) d : b <> [] -> List.last (a ++ b) d = List.last b d.
Proof.
  intro H. induction a as [|x a IH]; [reflexivity|].
  cbn [app]. destruct (a ++ b) as [|y r] eqn:E.
  - destruct a; [cbn in E; congruence | discriminate].
  - exact IH.
Qed.

(** The names that [convert] gives. *)
Lemma convert_filename_clean P this st env md format options :
  success (convert P this st env md format options) = true ->
  let name := filename (convert P this st env md format options) in
  forallb safeChar name = true
  /\ name <> []
  /\ hd_error name <> Some 46%N
  /\ List.last name 0%N <> 46%N.
Proof.
  intros H name.
  destruct (convert_success_inv P this st env md format options H) as [parsed [_ Hf]].
  destruct (getBaseFilename_clean env (originalFilename options)) as [Hs [Hne Hh]].
  assert (Hgen : forall ext,
             forallb safeChar ext = true -> ext <> [] -> List.last ext 0%N <> 46%N ->
             let n := getBaseFilename env (originalFilename options) ++ ext in
             forallb safeChar n = true /\ n <> [] /\ hd_error n <> Some 46%N
             /\ List.last n 0%N <> 46%N).
  { intros ext He Hx Hl n. unfold n. split; [|split; [|split]].
    - now rewrite forallb_app, Hs, He.
    - destruct (getBaseFilename env (originalFilename options)); [congruence | discriminate].
    - destruct (getBaseFilename env (originalFilename options)); [congruence | exact Hh].
    - now rewrite last_app_nonempty. }
  unfold name.
  destruct Hf as [[_ ->]|[[_ ->]|[_ ->]]]; cbn [filename convertToHTML convertToJSON convertToPlainText];
    apply Hgen; solve [reflexivity | discriminate].
Qed.

(** X11: the file of a successful conversion is offered for download
    under its name cut to 255 code units, with the content and the media
    type of the conversion: the name given by [convert] needs no other
    change, and it keeps its extension when the base name has at most 250
    code units. *)
Theorem X11_download_of_a_conversion
        (P : Platform) (this : FileConverter) (st : Marked.State) (env : Env)
        (md format : str) (options : ConversionOptions)
        (save : Download -> Exn.result unit) :
  let r := convert P this st env md format options in
  success r = true ->
  sanitizeFilename (filename r) = firstn 255 (filename r)
  /\ downloadFile save r FileHandler.noOptions
     = match save (mkDownload (content r) (mimeType r) (firstn 255 (filename r))) with
       | Ok u => Ok u
       | Throw e =>
           Throw (ErrorObj (lit "Failed to download file: "
                            ++ messageOf e (lit "Unknown error")))
       end
  /\ (List.length (getBaseFilename env (originalFilename options)) <= 250 ->
      sanitizeFilename (filename r) = filename r).
Proof.
  intros r H.
  destruct (convert_filename_clean P this st env md format options H)
    as [Hs [Hne [Hh Hl]]]. fold r in Hs, Hne, Hh, Hl.
  assert (Hsan : sanitizeFilename (filename r) = firstn 255 (filename r))
    by (now apply sanitizeFilename_clean).
  split; [exact Hsan|]. split.
  - unfold downloadFile. rewrite H. cbn [negb].
    change (JS.orElse (o_filename FileHandler.noOptions) (filename r))
      with (filename r).
    rewrite Hsan. reflexivity.
  - intro Hlen. rewrite Hsan. apply firstn_all2.
    destruct (convert_success_inv P this st env md format options H) as [parsed [_ Hf]].
    fold r in Hf.
    destruct Hf as [[_ ->]|[[_ ->]|[_ ->]]];
      cbn [filename convertToHTML convertToJSON convertToPlainText];
      rewrite length_app; cbn [List.length lit]; cbn; lia.
Qed.

Lemma X11_download_of_a_conversion_witness :
  let r := convert referencePlatform (Spec.appConverter referencePlatform)
                   (Spec.appState referencePlatform) browserEnv
                   Spec.scenario (lit "txt")
                   (mkConvOptions (Some (lit "notes.md")) None None) in
  sanitizeFilename (filename r) = firstn 255 (filename r)
  /\ downloadFile (fun _ => Ok tt) r FileHandler.noOptions
     = match (fun _ : Download => Ok tt)
               (mkDownload (content r) (mimeType r) (firstn 255 (filename r))) with
       | Ok u => Ok u
       | Throw e =>
           Throw (ErrorObj (lit "Failed to download file: "
                            ++ messageOf e (lit "Unknown error")))
       end
  /\ (List.length (getBaseFilename browserEnv (Some (lit "notes.md"))) <= 250 ->
      sanitizeFilename (filename r) = filename r).
Proof.
  apply (X11_download_of_a_conversion referencePlatform
           (Spec.appConverter referencePlatform) (Spec.appState referencePlatform)
           browserEnv Spec.scenario (lit "txt")
           (mkConvOptions (Some (lit "notes.md")) None None) (fun _ => Ok tt)).
  vm_compute. reflexivity.
Defined.

(** A base name of 255 code units: the download loses the extension. *)
Example download_loses_the_extension :
  let r := convert referencePlatform (Spec.appConverter referencePlatform)
                   (Spec.appState referencePlatform) browserEnv
                   (lit "text") (lit "txt")
                   (mkConvOptions (Some (List.repeat 97%N 255 ++ lit ".md")) None None) in
  filename r = List.repeat 97%N 255 ++ lit ".txt"
  /\ sanitizeFilename (filename r) = List.repeat 97%N 255.
Proof. split; vm_compute; reflexivity. Qed.

End ConversionOutcomes.

(** ** Downloads *)

Section Downloads.
Import Security Converters ConversionPanel FileHandler PanelActions.

(** What [downloadFile] asks the browser to save. *)
Lemma downloadFile_success save r o :
  success r = true ->
  downloadFile save r o
  = match save (mkDownload (content r) (mimeType r)
                           (sanitizeFilename (JS.orElse (o_filename o) (filename r)))) with
    | Ok u => Ok u
    | Throw e =>
        Throw (ErrorObj (lit "Failed to download file: "
                         ++ messageOf e (lit "Unknown error")))
    end.
Proof. intro H. unfold downloadFile. rewrite H. reflexivity. Qed.

Lemma downloadFile_failure save r o :
  success r = false ->
  downloadFile save r o
  = Throw (ErrorObj (JS.orElse (error r) (lit "Conversion failed"))).
Proof. intro H. unfold downloadFile. rewrite H. reflexivity. Qed.

Lemma orElse_nonempty a d : d <> [] -> JS.orElse a d <> [].
Proof. intro H. destruct a as [[|x s]|]; cbn; try exact H; discriminate. Qed.

(** X12: [downloadFile] gives the browser nothing for a failed
    conversion, and otherwise one file, whose name, chosen by the
    caller or not, has been sanitized: two browsers that treat alike the
    files of the content and type of the result with a name of at most
    255 code units of [[A-Za-z0-9._-]] that does not start with a dot
    cannot be told apart.  What it throws is an error with a message. *)
Theorem X12_downloadFile_asks_for_safe_names
        (save save' : Download -> Exn.result unit)
        (r : ConversionResult) (o : DownloadOptions) :
  (forall d,
      success r = true ->
      blobContent d = content r -> blobType d = mimeType r ->
      forallb safeChar (downloadName d) = true ->
      List.length (downloadName d) <= 255 ->
      hd_error (downloadName d) <> Some 46%N ->
      save d = save' d) ->
  downloadFile save r o = downloadFile save' r o
  /\ (forall e, downloadFile save r o = Throw e ->
                exists message, e = ErrorObj message /\ message <> [])
  /\ (success r = false ->
      downloadFile save r o
      = Throw (ErrorObj (JS.orElse (error r) (lit "Conversion failed")))).
Proof.
  intro H. split; [|split].
  - destruct (success r) eqn:Hs.
    + rewrite !downloadFile_success by exact Hs.
      rewrite (H (mkDownload (content r) (mimeType r)
                             (sanitizeFilename (JS.orElse (o_filename o) (filename r))))
                 eq_refl eq_refl eq_refl
                 (sanitizeFilename_safe _) (sanitizeFilename_length _)
                 (sanitizeFilename_head _)).
      reflexivity.
    + now rewrite !downloadFile_failure.
  - intros e He. destruct (success r) eqn:Hs.
    + rewrite downloadFile_success in He by exact Hs.
      destruct (save _) as [u|e']; [discriminate|].
      injection He as <-. eexists. split; [reflexivity | discriminate].
    + rewrite downloadFile_failure in He by exact Hs.
      injection He as <-. eexists. split; [reflexivity|].
      apply orElse_nonempty. discriminate.
  - apply downloadFile_failure.
Qed.

Lemma X12_downloadFile_asks_for_safe_names_witness :
  let save := fun _ : Download => @Ok unit tt in
  let save' := fun d : Download =>
                 if forallb safeChar (downloadName d) then @Ok unit tt
                 else Throw NonError in
  let r := mkResult (lit "text") (lit "a b.txt") (lit "text/plain") true None in
  let o := mkDownloadOptions (Some (lit "../x y.txt")) None in
  downloadFile save r o = downloadFile save' r o
  /\ (forall e, downloadFile save r o = Throw e ->
                exists message, e = ErrorObj message /\ message <> [])
  /\ (success r = false ->
      downloadFile save r o
      = Throw (ErrorObj (JS.orElse (error r) (lit "Conversion failed")))).
Proof.
  apply (X12_downloadFile_asks_for_safe_names
           (fun _ => Ok tt)
           (fun d => if forallb safeChar (downloadName d) then Ok tt else Throw NonError)
           (mkResult (lit "text") (lit "a b.txt") (lit "text/plain") true None)
           (mkDownloadOptions (Some (lit "../x y.txt")) None)).
  intros d _ _ _ Hs _ _. rewrite Hs. reflexivity.
Defined.

Lemma downloadFile_success_throws save r o e :
  success r = true -> downloadFile save r o = Throw e ->
  exists message, e = ErrorObj (lit "Failed to download file: " ++ message).
Proof.
  intros Hs He. rewrite downloadFile_success in He by exact Hs.
  destruct (save _) as [u|e']; [discriminate|].
  injection He as <-. eexists. reflexivity.
Qed.

Lemma downloadEach_throws save rs e :
  Forall (fun r => success r = true) rs ->
  downloadEach save rs = Throw e ->
  exists message, e = ErrorObj (lit "Failed to download file: " ++ message).
Proof.
  intro H. induction H as [|r rs Hr _ IH]; [discriminate|].
  cbn [downloadEach]. destruct (downloadFile save r FileHandler.noOptions) as [u|e'] eqn:Ed;
    cbn [Exn.bind].
  - exact IH.
  - intros [= <-]. now apply (downloadFile_success_throws save r FileHandler.noOptions).
Qed.

Lemma filter_success_all rs :
  Forall (fun r => success r = true) rs -> filter success rs = rs.
Proof.
  intro H. induction H as [|r rs Hr _ IH]; [reflexivity|].
  cbn [filter]. now rewrite Hr, IH.
Qed.

Lemma validResults_success state :
  Forall (fun r => success r = true) (validResults state).
Proof.
  unfold validResults. cbn [flat_map]. rewrite app_nil_r.
  repeat (apply Forall_app; split);
    match goal with
    | |- Forall _ (match ?x with _ => _ end) =>
        destruct x as [r|]; [destruct (success r) eqn:E|];
        repeat constructor; exact E
    end.
Qed.

(** X13: a download from the panel fails only by the browser.
    [handleDownload] calls [downloadFile] exactly for an entry that holds
    a successful result, and [downloadAll] passes on the successful
    results only; so the errors of [downloadFile] for a failed
    conversion and of [downloadMultipleFiles] for an empty list are never
    seen, and what is thrown or recorded says
    ['Failed to download file: '] and the reason. *)
Theorem X13_panel_downloads
        (save : Download -> Exn.result unit)
        (entry : FormatState) (state : ConversionState) :
  (snd (handleDownload save entry) = true
   <-> exists r, result entry = Some r /\ success r = true)
  /\ result (fst (handleDownload save entry)) = result entry
  /\ isConverting (fst (handleDownload save entry)) = isConverting entry
  /\ (stateError (fst (handleDownload save entry)) = stateError entry
      \/ exists message,
           stateError (fst (handleDownload save entry))
           = Some (lit "Failed to download file: " ++ message))
  /\ (forall e, downloadAll save state = Some (Throw e) ->
                exists message,
                  e = ErrorObj (lit "Failed to download file: " ++ message))
  /\ (downloadAll save state = None
      <-> Forall (fun st => match result st with
                            | Some r => success r = false
                            | None => True
                            end)
                 [html state; json state; txt state]).
Proof.
  split; [|split; [|split; [|split; [|split]]]].
  - unfold handleDownload. destruct (result entry) as [r|].
    + destruct (success r) eqn:Hs.
      * destruct (downloadFile save r FileHandler.noOptions); cbn [snd];
          (split; [intros _; exists r; split; [reflexivity | exact Hs] | reflexivity]).
      * cbn [snd]. split; [discriminate|]. intros [r' [[= <-] H]]. congruence.
    + cbn [snd]. split; [discriminate|]. intros [r' [H _]]. discriminate.
  - unfold handleDownload. destruct (result entry) as [r|] eqn:Hr; [|exact Hr].
    destruct (success r); [|exact Hr].
    destruct (downloadFile save r FileHandler.noOptions); cbn [fst]; [exact Hr | reflexivity].
  - unfold handleDownload. destruct (result entry) as [r|]; [|reflexivity].
    destruct (success r); [|reflexivity].
    destruct (downloadFile save r FileHandler.noOptions); reflexivity.
  - unfold handleDownload. destruct (result entry) as [r|]; [|left; reflexivity].
    destruct (success r) eqn:Hs; [|left; reflexivity].
    destruct (downloadFile save r FileHandler.noOptions) as [u|e] eqn:Ed;
      [left; reflexivity|].
    right. cbn [fst stateError].
    destruct (downloadFile_success_throws save r FileHandler.noOptions e Hs Ed)
      as [message ->].
    exists message. reflexivity.
  - intros e He. unfold downloadAll in He.
    pose proof (validResults_success state) as Hv.
    destruct (validResults state) as [|r rs] eqn:Ev; [discriminate|].
    injection He as He. unfold downloadMultipleFiles in He.
    rewrite (filter_success_all _ Hv) in He.
    now apply (downloadEach_throws save (r :: rs) e Hv).
  - unfold downloadAll, validResults. cbn [flat_map]. rewrite app_nil_r.
    rewrite !Forall_cons_iff. cbv beta.
    destruct (result (html state)) as [r1|]; [destruct (success r1)|];
      destruct (result (json state)) as [r2|]; try destruct (success r2);
        destruct (result (txt state)) as [r3|]; try destruct (success r3);
          cbn [app]; split; intro H;
            try discriminate; try reflexivity;
              try (repeat split; constructor);
              try (destruct H as [H1 [H2 [H3 _]]]; discriminate).
Qed.

(** X14: [downloadMultipleFiles] skips the failed conversions; it
    succeeds exactly when there is a successful one and the browser
    saves the file of each, and stops at the first that it does not
    save. *)
Theorem X14_downloadMultipleFiles
        (save : Download -> Exn.result unit) (results : list ConversionResult) :
  downloadMultipleFiles save results
  = downloadMultipleFiles save (filter success results)
  /\ (downloadMultipleFiles save results = Ok tt
      <-> filter success results <> []
          /\ Forall (fun r => save (mkDownload (content r) (mimeType r)
                                               (sanitizeFilename (filename r)))
                              = Ok tt)
                    (filter success results))
  /\ (filter success results = [] ->
      downloadMultipleFiles save results
      = Throw (ErrorObj (lit "No valid files to download"))).
Proof.
  assert (Hall : Forall (fun r => success r = true) (filter success results)).
  { apply Forall_forall. intros r Hr. now apply filter_In in Hr. }
  assert (Heach : forall rs,
             Forall (fun r => success r = true) rs ->
             (downloadEach save rs = Ok tt
              <-> Forall (fun r => save (mkDownload (content r) (mimeType r)
                                                    (sanitizeFilename (filename r)))
                                   = Ok tt) rs)).
  { intros rs H. induction H as [|r rs Hr _ IH]; [split; [constructor | reflexivity]|].
    cbn [downloadEach]. rewrite (downloadFile_success save r FileHandler.noOptions Hr).
    change (JS.orElse (o_filename FileHandler.noOptions) (filename r)) with (filename r).
    destruct (save _) as [[]|e] eqn:Es; cbn [Exn.bind].
    - rewrite IH. split; [intro H; constructor; assumption|].
      intro H. now inversion H.
    - split; [discriminate|]. intro H. inversion H; congruence. }
  split; [|split].
  - unfold downloadMultipleFiles. now rewrite (filter_success_all _ Hall).
  - unfold downloadMultipleFiles.
    destruct (filter success results) as [|r rs] eqn:E.
    + split; [discriminate|]. intros [H _]. congruence.
    + rewrite (Heach (r :: rs) Hall). split; [intro H; split; [discriminate | exact H]|].
      now intros [_ H].
  - intro H. unfold downloadMultipleFiles. now rewrite H.
Qed.

End Downloads.

(** ** The upload *)

Section Uploads.
Import Validation FileHandler FileUpload.
Local Open Scope Z_scope.

Lemma startsWith_iff (p s : str) :
  JS.startsWith p s = true <-> exists r, s = p ++ r.
Proof.
  revert s; induction p as [|x p IH]; intro s.
  - split; [intros _; exists s; reflexivity | reflexivity].
  - destruct s as [|y s]; cbn [JS.startsWith].
    + split; [discriminate | intros [r H]; discriminate].
    + rewrite andb_true_iff, N.eqb_eq, IH. split.
      * intros [-> [r ->]]. exists r. reflexivity.
      * intros [r [= -> ->]]. split; [reflexivity | exists r; reflexivity].
Qed.

(** [s.endsWith(suffix)] *)
Lemma endsWith_iff (suffix s : str) :
  Str.endsWith suffix s = true <-> exists stem, s = stem ++ suffix.
Proof.
  unfold Str.endsWith. rewrite startsWith_iff. split.
  - intros [r H]. exists (rev r).
    rewrite <- (rev_involutive s), H, rev_app_distr, rev_involutive. reflexivity.
  - intros [stem ->]. exists (rev stem). apply rev_app_distr.
Qed.

Lemma existsb_endsWith exts (s : str) :
  existsb (fun ext => Str.endsWith ext s) exts = true
  <-> exists ext stem, In ext exts /\ s = stem ++ ext.
Proof.
  rewrite existsb_exists. split.
  - intros [ext [Hin H]]. apply endsWith_iff in H as [stem H]. now exists ext, stem.
  - intros [ext [stem [Hin H]]]. exists ext. split; [exact Hin|].
    apply endsWith_iff. now exists stem.
Qed.

Lemma existsb_lowered toLowerCase exts (s : str) :
  Forall (fun ext => toLowerCase ext = ext) exts ->
  existsb (fun ext => Str.endsWith (toLowerCase ext) s) exts
  = existsb (fun ext => Str.endsWith ext s) exts.
Proof.
  intro H. induction H as [|ext exts He _ IH]; [reflexivity|].
  cbn [existsb]. now rewrite He, IH.
Qed.

Lemma validateFile_default toLowerCase file :
  validateFile toLowerCase file Validation.noOptions
  = if size file >? 10 * 1024 * 1024 then
      mkValidation false (Some (lit "File size exceeds limit of 10MB"))
    else if existsb (fun ext => Str.endsWith (toLowerCase ext) (toLowerCase (name file)))
                    [lit ".md"; lit ".markdown"; lit ".txt"]
         then mkValidation true None
         else mkValidation false
                (Some (lit "Invalid file type. Allowed: .md, .markdown, .txt")).
Proof.
  unfold validateFile.
  change (mergeOptions Validation.noOptions) with Validation.DEFAULT_OPTIONS.
  cbn [maxSize allowedExtensions Validation.DEFAULT_OPTIONS].
  destruct (size file >? 10 * 1024 * 1024); [reflexivity|].
  destruct (existsb _ _); reflexivity.
Qed.

Lemma validateFile_valid toLowerCase file :
  Forall (fun ext => toLowerCase ext = ext)
         (allowedExtensions Validation.DEFAULT_OPTIONS) ->
  (isValid (validateFile toLowerCase file Validation.noOptions) = true
   <-> size file <= 10 * 1024 * 1024
       /\ exists ext stem,
            In ext [lit ".md"; lit ".markdown"; lit ".txt"]
            /\ toLowerCase (name file) = stem ++ ext).
Proof.
  intro H. rewrite validateFile_default.
  rewrite (existsb_lowered toLowerCase _ _ H).
  rewrite <- existsb_endsWith.
  destruct (Z.gtb_spec (size file) (10 * 1024 * 1024)).
  - cbn [isValid]. split; [discriminate | intros [Hs _]; lia].
  - destruct (existsb _ _); cbn [isValid];
      (split; [intro Hv; split; [lia | exact Hv] | intros [_ Hv]; exact Hv]).
Qed.

Lemma validateFileType_of_extension toLowerCase file :
  existsb (fun ext => Str.endsWith ext (toLowerCase (name file)))
          [lit ".md"; lit ".markdown"; lit ".txt"] = true ->
  validateFileType toLowerCase file = true.
Proof.
  intro H. unfold validateFileType.
  destruct (MarkdownParser.includes _ _); [reflexivity | exact H].
Qed.

(** X15: with the default options [validateFile] accepts a file exactly
    when it has at most 10 MB and its lower-cased name ends with [.md],
    [.markdown] or [.txt]; the size is checked first.  Whatever it
    accepts, [validateFileType] accepts, so that the second check of
    [handleFileSelection] refuses nothing; [validateFileType] alone
    accepts every name when the media type is one of its three. *)
Theorem X15_validateFile_subsumes_validateFileType
        (toLowerCase : str -> str) (file : File) :
  Forall (fun ext => toLowerCase ext = ext)
         (allowedExtensions Validation.DEFAULT_OPTIONS) ->
  let v := validateFile toLowerCase file Validation.noOptions in
  (isValid v = true
   <-> size file <= 10 * 1024 * 1024
       /\ exists ext stem,
            In ext [lit ".md"; lit ".markdown"; lit ".txt"]
            /\ toLowerCase (name file) = stem ++ ext)
  /\ (isValid v = true -> validateFileType toLowerCase file = true)
  /\ (isValid v = true -> Validation.error v = None)
  /\ (10 * 1024 * 1024 < size file ->
      v = mkValidation false (Some (lit "File size exceeds limit of 10MB")))
  /\ (isValid v = false -> size file <= 10 * 1024 * 1024 ->
      v = mkValidation false
            (Some (lit "Invalid file type. Allowed: .md, .markdown, .txt")))
  /\ (In (type file) [lit "text/markdown"; lit "text/plain";
                      lit "application/octet-stream"] ->
      validateFileType toLowerCase file = true).
Proof.
  intros H v. split; [apply (validateFile_valid toLowerCase file H)|].
  unfold v. rewrite validateFile_default.
  rewrite (existsb_lowered toLowerCase _ _ H).
  split; [|split; [|split; [|split]]].
  - destruct (size file >? 10 * 1024 * 1024); [discriminate|].
    destruct (existsb _ _) eqn:E; [|discriminate].
    intros _. now apply validateFileType_of_extension.
  - destruct (size file >? 10 * 1024 * 1024); [discriminate|].
    destruct (existsb _ _); [reflexivity | discriminate].
  - intro Hs. destruct (Z.gtb_spec (size file) (10 * 1024 * 1024)); [reflexivity | lia].
  - intros Hv Hs. destruct (Z.gtb_spec (size file) (10 * 1024 * 1024)); [lia|].
    destruct (existsb _ _); [discriminate | reflexivity].
  - intro Ht. unfold validateFileType.
    replace (MarkdownParser.includes _ (type file)) with true; [reflexivity|].
    symmetry. unfold MarkdownParser.includes. apply existsb_exists.
    exists (type file). split; [exact Ht | apply eqb_refl].
Qed.

Lemma X15_validateFile_subsumes_validateFileType_witness :
  let file := mkFile 2048 (lit "Notes.MD") (lit "application/pdf") in
  let v := validateFile asciiToLowerCase file Validation.noOptions in
  (isValid v = true
   <-> size file <= 10 * 1024 * 1024
       /\ exists ext stem,
            In ext [lit ".md"; lit ".markdown"; lit ".txt"]
            /\ asciiToLowerCase (name file) = stem ++ ext)
  /\ (isValid v = true -> validateFileType asciiToLowerCase file = true)
  /\ (isValid v = true -> Validation.error v = None)
  /\ (10 * 1024 * 1024 < size file ->
      v = mkValidation false (Some (lit "File size exceeds limit of 10MB")))
  /\ (isValid v = false -> size file <= 10 * 1024 * 1024 ->
      v = mkValidation false
            (Some (lit "Invalid file type. Allowed: .md, .markdown, .txt")))
  /\ (In (type file) [lit "text/markdown"; lit "text/plain";
                      lit "application/octet-stream"] ->
      validateFileType asciiToLowerCase file = true).
Proof.
  apply (X15_validateFile_subsumes_validateFileType asciiToLowerCase
           (mkFile 2048 (lit "Notes.MD") (lit "application/pdf"))).
  repeat constructor.
Defined.

Lemma trimStart_dropWhile s : JS.trimStart s = JS.dropWhile JS.isSpace s.
Proof.
  induction s as [|x s IH]; [reflexivity|]. cbn [JS.trimStart JS.dropWhile].
  now rewrite IH.
Qed.

Lemma dropWhile_nil p (s : str) : JS.dropWhile p s = [] <-> forallb p s = true.
Proof.
  induction s as [|x s IH]; [split; reflexivity|].
  cbn [JS.dropWhile forallb]. destruct (p x); cbn [andb]; [exact IH|].
  split; discriminate.
Qed.

(** A text is blank for [handleFileSelection] when it is white space
    only. *)
Lemma trim_nil s : JS.trim s = [] <-> forallb JS.isSpace s = true.
Proof.
  unfold JS.trim. rewrite !trimStart_dropWhile. split.
  - intro H. apply (f_equal (@rev N)) in H. rewrite rev_involutive in H.
    cbn [rev] in H. apply dropWhile_nil in H.
    rewrite forallb_forall in H.
    destruct (JS.dropWhile JS.isSpace s) as [|c r] eqn:E;
      [now apply dropWhile_nil in E|].
    assert (Hc : JS.isSpace c = false)
      by (apply (dropWhile_head JS.isSpace s); now rewrite E).
    rewrite (H c) in Hc; [discriminate|]. apply in_rev. rewrite rev_involutive.
    now left.
  - intro H. apply dropWhile_nil in H. rewrite H. reflexivity.
Qed.

(** X16: [handleFileSelection] hands a file over exactly when it has at
    most 10 MB, its lower-cased name ends with one of the three
    extensions, it can be read, and its text is not white space only;
    the text goes with the name of the file as it is, and the file
    becomes the uploaded one.  In every other case the error callback is
    called and the uploaded file stays what it was.  Processing is over
    in both cases. *)
Theorem X16_handleFileSelection
        (toLowerCase : str -> str) (readFile : File -> Exn.result str)
        (uploaded : option File) (file : File) :
  Forall (fun ext => toLowerCase ext = ext)
         (allowedExtensions Validation.DEFAULT_OPTIONS) ->
  let s := handleFileSelection toLowerCase readFile uploaded file in
  isProcessing s = false
  /\ (forall content filename,
         called s = OnFileRead content filename
         <-> size file <= 10 * 1024 * 1024
             /\ (exists ext stem,
                    In ext [lit ".md"; lit ".markdown"; lit ".txt"]
                    /\ toLowerCase (name file) = stem ++ ext)
             /\ readFile file = Ok content
             /\ forallb JS.isSpace content = false
             /\ filename = name file)
  /\ (forall content filename,
         called s = OnFileRead content filename -> uploadedFile s = Some file)
  /\ (forall message, called s = OnError message -> uploadedFile s = uploaded)
  /\ (forall content,
         isValid (validateFile toLowerCase file Validation.noOptions) = true ->
         readFile file = Ok content -> forallb JS.isSpace content = true ->
         called s = OnError (lit "File appears to be empty")).
Proof.
  intros H s.
  pose proof (validateFile_valid toLowerCase file H) as Hvalid.
  assert (Htype : isValid (validateFile toLowerCase file Validation.noOptions) = true ->
                  validateFileType toLowerCase file = true).
  { rewrite validateFile_default, (existsb_lowered toLowerCase _ _ H).
    destruct (size file >? 10 * 1024 * 1024); [discriminate|].
    destruct (existsb _ _) eqn:E; [|discriminate].
    intros _. now apply validateFileType_of_extension. }
  assert (Hblank : forall content,
             Nat.eqb (List.length (JS.trim content)) 0 = forallb JS.isSpace content).
  { intro content. destruct (forallb JS.isSpace content) eqn:E.
    - apply trim_nil in E. now rewrite E.
    - destruct (JS.trim content) eqn:T; [|reflexivity].
      apply trim_nil in T. congruence. }
  unfold s, handleFileSelection, selectionBody.
  destruct (isValid (validateFile toLowerCase file Validation.noOptions)) eqn:Hv;
    cbn [negb].
  - rewrite (Htype eq_refl). cbn [negb].
    destruct (readFile file) as [content|e] eqn:Hr; cbn [Exn.bind].
    + rewrite Hblank. destruct (forallb JS.isSpace content) eqn:Hb;
        cbn [isProcessing called uploadedFile].
      * split; [reflexivity|]. split; [|split; [|split]].
        -- intros c n. split; [discriminate|].
           intros [_ [_ [[= <-] [Hc _]]]]. congruence.
        -- discriminate.
        -- reflexivity.
        -- reflexivity.
      * split; [reflexivity|]. split; [|split; [|split]].
        -- intros c n. split.
           ++ intros [= <- <-]. destruct (proj1 Hvalid eq_refl) as [Hs He].
              repeat split; assumption.
           ++ intros [_ [_ [[= <-] [_ ->]]]]. reflexivity.
        -- reflexivity.
        -- discriminate.
        -- intros c _ [= <-] Hc. congruence.
    + cbn [isProcessing called uploadedFile].
      split; [reflexivity|]. split; [|split; [|split]].
      * intros c n. split; [discriminate|]. intros [_ [_ [Hc _]]]. discriminate.
      * discriminate.
      * reflexivity.
      * intros c _ Hc. discriminate.
  - cbn [isProcessing called uploadedFile].
    split; [reflexivity|]. split; [|split; [|split]].
    + intros c n. split; [discriminate|]. intros [Hs [He _]].
      assert (false = true) by (apply Hvalid; split; assumption).
      discriminate.
    + discriminate.
    + reflexivity.
    + discriminate.
Qed.

Lemma X16_handleFileSelection_witness :
  let file := mkFile 2048 (lit "Notes.MD") (lit "application/pdf") in
  let readFile := fun _ : File => Ok (lit "# Title") in
  let s := handleFileSelection asciiToLowerCase readFile None file in
  isProcessing s = false
  /\ (forall content filename,
         called s = OnFileRead content filename
         <-> size file <= 10 * 1024 * 1024
             /\ (exists ext stem,
                    In ext [lit ".md"; lit ".markdown"; lit ".txt"]
                    /\ asciiToLowerCase (name file) = stem ++ ext)
             /\ readFile file = Ok content
             /\ forallb JS.isSpace content = false
             /\ filename = name file)
  /\ (forall content filename,
         called s = OnFileRead content filename -> uploadedFile s = Some file)
  /\ (forall message, called s = OnError message -> uploadedFile s = None)
  /\ (forall content,
         isValid (validateFile asciiToLowerCase file Validation.noOptions) = true ->
         readFile file = Ok content -> forallb JS.isSpace content = true ->
         called s = OnError (lit "File appears to be empty")).
Proof.
  apply (X16_handleFileSelection asciiToLowerCase (fun _ => Ok (lit "# Title")) None
           (mkFile 2048 (lit "Notes.MD") (lit "application/pdf"))).
  repeat constructor.
Defined.

(** The upload of the example is handed over under its own name. *)
Example handleFileSelection_accepts :
  handleFileSelection asciiToLowerCase (fun _ => Ok (lit "# Title")) None
                      (mkFile 2048 (lit "Notes.MD") (lit "application/pdf"))
  = mkSelection (OnFileRead (lit "# Title") (lit "Notes.MD"))
                (Some (mkFile 2048 (lit "Notes.MD") (lit "application/pdf")))
                false.
Proof. vm_compute. reflexivity. Qed.

End Uploads.

(** ** Extensions *)

Section Extensions.
Import FileHandler.
Local Open Scope Z_scope.

Lemma lastIndexOf_none c s :
  forallb (fun x => negb (N.eqb x c)) s = true -> Str.lastIndexOf c s = -1.
Proof.
  induction s as [|x s IH]; [reflexivity|]. cbn [forallb Str.lastIndexOf].
  intro H. apply andb_true_iff in H as [Hx Hs]. rewrite (IH Hs).
  apply negb_true_iff in Hx. rewrite Hx. reflexivity.
Qed.

Lemma lastIndexOf_last c stem ext :
  forallb (fun x => negb (N.eqb x c)) ext = true ->
  Str.lastIndexOf c (stem ++ c :: ext) = Z.of_nat (List.length stem).
Proof.
  intro H. induction stem as [|x stem IH].
  - cbn [app Str.lastIndexOf List.length]. rewrite (lastIndexOf_none c ext H).
    rewrite N.eqb_refl. reflexivity.
  - cbn [app Str.lastIndexOf]. rewrite IH.
    replace (0 <=? Z.of_nat (List.length stem)) with true
      by (symmetry; apply Z.leb_le; lia).
    cbn [List.length]. lia.
Qed.

Lemma slice_beyond start (s : str) :
  Z.of_nat (List.length s) <= start -> Str.slice start s = [].
Proof.
  intro H. unfold Str.slice.
  replace (start <? 0) with false by (symmetry; apply Z.ltb_ge; lia).
  apply skipn_all2. lia.
Qed.

(** X17: on a name shorter than 2^32 code units, [getFileExtension]
    gives what follows the last dot, and nothing when there is no dot or
    when the only dot is the first code unit. *)
Theorem X17_getFileExtension (stem ext : str) :
  forallb (fun x => negb (N.eqb x 46)) ext = true ->
  Z.of_nat (List.length (stem ++ lit "." ++ ext)) < 4294967296 ->
  getFileExtension (stem ++ lit "." ++ ext) = (if JS.isEmpty stem then [] else ext)
  /\ getFileExtension ext = [].
Proof.
  intros Hext Hlen.
  change (stem ++ lit "." ++ ext) with (stem ++ 46%N :: ext) in *.
  rewrite length_app in Hlen. cbn [List.length] in Hlen.
  split.
  - unfold getFileExtension. rewrite (lastIndexOf_last 46%N stem ext Hext).
    unfold Str.uint32. change (2 ^ 32) with 4294967296.
    destruct stem as [|x stem].
    + cbn [List.length JS.isEmpty]. apply slice_beyond.
      change ((Z.of_nat 0 - 1) mod 4294967296) with 4294967295.
      cbn [app List.length]. lia.
    + cbn [JS.isEmpty]. rewrite Z.mod_small by (cbn [List.length] in *; lia).
      unfold Str.slice.
      replace (Z.of_nat (List.length (x :: stem)) - 1 + 2 <? 0) with false
        by (symmetry; apply Z.ltb_ge; lia).
      replace (Z.to_nat (Z.of_nat (List.length (x :: stem)) - 1 + 2))
        with (List.length (x :: stem) + 1)%nat by lia.
      rewrite skipn_app, skipn_all2 by lia.
      replace (List.length (x :: stem) + 1 - List.length (x :: stem))%nat
        with 1%nat by lia.
      reflexivity.
  - unfold getFileExtension. rewrite (lastIndexOf_none 46%N ext Hext).
    apply slice_beyond. unfold Str.uint32.
    change ((-1 - 1) mod 2 ^ 32) with 4294967294. lia.
Qed.

Lemma X17_getFileExtension_witness :
  getFileExtension (lit "archive.tar" ++ lit "." ++ lit "gz")
  = (if JS.isEmpty (lit "archive.tar") then [] else lit "gz")
  /\ getFileExtension (lit "gz") = [].
Proof.
  apply (X17_getFileExtension (lit "archive.tar") (lit "gz")); [reflexivity|].
  cbn. lia.
Defined.

End Extensions.

(** ** The matcher and what it decides *)

Section MatcherTheory.
Import RegExp Matcher.

Lemma greedy_some c k prev s : k prev s <> None -> greedy c k prev s <> None.
Proof.
  intro H. destruct s as [|x s]; [exact H|]. cbn [greedy].
  destruct (c x); [|exact H].
  destruct (greedy c k (Some x) s); [discriminate | exact H].
Qed.

(** The greedy repetition with its backtracking finds a match whenever
    some number of repetitions allows one. *)
Lemma greedy_iff c k : forall s prev,
  greedy c k prev s <> None
  <-> exists pre t, s = pre ++ t /\ forallb c pre = true
                    /\ k (prevAfter prev pre) t <> None.
Proof.
  intros s prev. split.
  - revert prev. induction s as [|x s IH]; intros prev H.
    + exists [], []. repeat split. exact H.
    + cbn [greedy] in H. destruct (c x) eqn:Ec.
      * destruct (greedy c k (Some x) s) as [n|] eqn:Eg.
        -- destruct (IH (Some x)) as [pre [t [-> [Hp Hk]]]]; [congruence|].
           exists (x :: pre), t. cbn [forallb prevAfter app]. rewrite Ec, Hp.
           repeat split. exact Hk.
        -- exists [], (x :: s). repeat split. exact H.
      * exists [], (x :: s). repeat split. exact H.
  - intros [pre [t [-> [Hp Hk]]]]. revert prev Hk.
    induction pre as [|x pre IH]; intros prev Hk.
    + now apply greedy_some.
    + cbn [forallb] in Hp. apply andb_true_iff in Hp as [Hx Hp].
      cbn [app greedy]. rewrite Hx.
      specialize (IH Hp (Some x) Hk).
      destruct (greedy c k (Some x) (pre ++ t)); [discriminate | congruence].
Qed.

Lemma option_map_S_some (o : option nat) : option_map S o <> None <-> o <> None.
Proof. destruct o; cbn; split; congruence. Qed.

(** The matcher finds a match of a sequence exactly when there is
    one. *)
Lemma matchHere_matches ml r : forall prev s,
  matchHere ml r prev s <> None <-> matches ml r prev s.
Proof.
  induction r as [|a r IH]; intros prev s.
  - cbn. split; [trivial | discriminate].
  - destruct a as [| |c q].
    + cbn [matchHere matches]. destruct (atBol ml prev).
      * rewrite IH. tauto.
      * split; [congruence | intros [H _]; discriminate].
    + cbn [matchHere matches]. destruct (atEol ml s).
      * rewrite IH. tauto.
      * split; [congruence | intros [H _]; discriminate].
    + destruct q; cbn [matchHere matches].
      * destruct s as [|x s].
        -- split; [congruence | intros [x [t [H _]]]; discriminate].
        -- destruct (c x) eqn:Ec.
           ++ rewrite option_map_S_some, IH. split.
              ** intro H. exists x, s. repeat split; assumption.
              ** intros [y [t [[= <- <-] [_ H]]]]. exact H.
           ++ split; [congruence|]. intros [y [t [[= <- <-] [H _]]]]. congruence.
      * rewrite greedy_iff. split.
        -- intros [pre [t [-> [Hp H]]]]. exists pre, t. apply IH in H. auto.
        -- intros [pre [t [-> [Hp H]]]]. exists pre, t. apply IH in H. auto.
      * destruct s as [|x s].
        -- split; [congruence | intros [x [pre [t [H _]]]]; discriminate].
        -- destruct (c x) eqn:Ec.
           ++ rewrite option_map_S_some, greedy_iff. split.
              ** intros [pre [t [-> [Hp H]]]]. exists x, pre, t. apply IH in H. auto.
              ** intros [y [pre [t [[= <- ->] [_ [Hp H]]]]]]. exists pre, t.
                 apply IH in H. auto.
           ++ split; [congruence|].
              intros [y [pre [t [[= <- _] [H _]]]]]. congruence.
Qed.

Lemma matchAlts_matches ml bs prev s :
  matchAlts ml bs prev s <> None
  <-> exists b, In b bs /\ matches ml b prev s.
Proof.
  induction bs as [|b bs IH]; cbn [matchAlts].
  - split; [congruence | intros [b [[] _]]].
  - destruct (matchHere ml b prev s) as [n|] eqn:E.
    + split; [|discriminate]. intros _. exists b. split; [now left|].
      apply matchHere_matches. congruence.
    + rewrite IH. split.
      * intros [b' [Hin H]]. exists b'. split; [now right | exact H].
      * intros [b' [[<-|Hin] H]].
        -- apply matchHere_matches in H. congruence.
        -- exists b'. split; assumption.
Qed.

(** [test] answers [true] exactly when some alternative matches
    somewhere. *)
Lemma search_matches re : forall s prev,
  search re prev s <> None
  <-> exists a t b, s = a ++ t /\ In b (alts re)
                    /\ matches (multiline re) b (prevAfter prev a) t.
Proof.
  induction s as [|x s IH]; intro prev; cbn [search].
  - destruct (matchAt re prev []) as [n|] eqn:E.
    + split; [|discriminate]. intros _.
      assert (H : matchAt re prev [] <> None) by congruence.
      apply matchAlts_matches in H as [b [Hin H]]. exists [], [], b. auto.
    + split; [congruence|]. intros [a [t [b [Hs [Hin H]]]]].
      symmetry in Hs. apply app_eq_nil in Hs as [-> ->].
      assert (matchAt re prev [] <> None)
        by (apply matchAlts_matches; exists b; auto).
      congruence.
  - destruct (matchAt re prev (x :: s)) as [n|] eqn:E.
    + split; [|discriminate]. intros _.
      assert (H : matchAt re prev (x :: s) <> None) by congruence.
      apply matchAlts_matches in H as [b [Hin H]]. exists [], (x :: s), b. auto.
    + assert (Hs : match search re (Some x) s with
                   | Some (i, n) => Some (S i, n)
                   | None => None
                   end <> None <-> search re (Some x) s <> None).
      { destruct (search re (Some x) s) as [[i n]|]; split; congruence. }
      rewrite Hs, IH. split.
      * intros [a [t [b [-> [Hin H]]]]]. exists (x :: a), t, b. auto.
      * intros [a [t [b [Heq [Hin H]]]]]. destruct a as [|y a].
        -- cbn [app] in Heq. subst t.
           assert (matchAt re prev (x :: s) <> None)
             by (apply matchAlts_matches; exists b; auto).
           congruence.
        -- injection Heq as <- ->. exists a, t, b. auto.
Qed.

Lemma test_matches re s :
  test re s = true
  <-> exists a t b, s = a ++ t /\ In b (alts re)
                    /\ matches (multiline re) b (prevAfter None a) t.
Proof.
  rewrite <- search_matches. unfold test.
  destruct (search re None s); split; congruence.
Qed.

(** A literal word matches itself. *)
Lemma matches_word ml (l : list ascii) r prev s :
  matches ml (List.map (fun a => one (isChr a)) l ++ r) prev s
  <-> exists t, s = List.map N_of_ascii l ++ t
                /\ matches ml r (prevAfter prev (List.map N_of_ascii l)) t.
Proof.
  revert prev s. induction l as [|a l IH]; intros prev s.
  - cbn [List.map app prevAfter]. split.
    + intro H. exists s. auto.
    + intros [t [-> H]]. exact H.
  - cbn [List.map app matches prevAfter]. split.
    + intros [x [t [-> [Hx H]]]]. apply N.eqb_eq in Hx. unfold JS.chr in Hx. subst x.
      apply IH in H as [t' [-> H]]. exists t'. auto.
    + intros [t [-> H]]. exists (N_of_ascii a), (List.map N_of_ascii l ++ t).
      split; [reflexivity|]. split; [apply N.eqb_refl|].
      apply IH. exists t. auto.
Qed.

(** Without anchors, what is around a match does not matter. *)
Lemma matches_extend ml r :
  anchorFree r = true ->
  forall prev prev' s b, matches ml r prev s -> matches ml r prev' (s ++ b).
Proof.
  induction r as [|a r IH]; intros Hr prev prev' s b H; [exact I|].
  cbn [anchorFree forallb] in Hr. apply andb_true_iff in Hr as [Ha Hr].
  destruct a as [| |c q]; try discriminate.
  destruct q; cbn [matches] in *.
  - destruct H as [x [t [-> [Hx H]]]]. exists x, (t ++ b).
    repeat split; [exact Hx|]. now apply (IH Hr (Some x)).
  - destruct H as [pre [t [-> [Hp H]]]]. exists pre, (t ++ b).
    rewrite app_assoc. repeat split; [exact Hp|].
    now apply (IH Hr (prevAfter prev pre)).
  - destruct H as [x [pre [t [-> [Hx [Hp H]]]]]]. exists x, pre, (t ++ b).
    cbn [app]. rewrite <- app_assoc. repeat split; try assumption.
    now apply (IH Hr (prevAfter (Some x) pre)).
Qed.

Lemma test_context re a s b :
  forallb anchorFree (alts re) = true ->
  test re s = true -> test re (a ++ s ++ b) = true.
Proof.
  intros Hre H. apply test_matches in H as [a' [t [br [-> [Hin H]]]]].
  apply test_matches. exists (a ++ a'), (t ++ b), br.
  split; [now rewrite <- !app_assoc|]. split; [exact Hin|].
  rewrite forallb_forall in Hre.
  now apply (matches_extend _ _ (Hre br Hin) (prevAfter None a')).
Qed.

End MatcherTheory.

(** ** The signatures of [detectMaliciousContent] *)

Section Signatures.
Import RegExp Matcher Security Converters ConversionPanel.

Lemma suspiciousPatterns_anchorFree :
  forallb (fun re => forallb anchorFree (alts re)) suspiciousPatterns = true.
Proof. reflexivity. Qed.

Lemma detect_context a s b :
  detectMaliciousContent s = true -> detectMaliciousContent (a ++ s ++ b) = true.
Proof.
  unfold detectMaliciousContent. rewrite !existsb_exists.
  intros [re [Hin H]]. exists re. split; [exact Hin|].
  apply test_context; [|exact H].
  pose proof suspiciousPatterns_anchorFree as Hall.
  rewrite forallb_forall in Hall. now apply Hall.
Qed.

(** X18: a text that contains a flagged text is flagged, wherever the
    flagged text stands in it: in prose, in a code block, in a link.  So
    [handleConvert] converts no document that quotes one of the
    signatures. *)
Theorem X18_flagged_fragments_flag_the_document
        (P : Platform) (converter : FileConverter) (st : Marked.State) (env : Env)
        (before fragment after name format : str) (prev : FormatState) :
  detectMaliciousContent fragment = true ->
  detectMaliciousContent (before ++ fragment ++ after) = true
  /\ handleConvert P converter st env (before ++ fragment ++ after) name format prev
     = mkState (result prev) (isConverting prev)
               (Some (lit "Content contains potentially malicious elements")).
Proof.
  intro H. pose proof (detect_context before fragment after H) as Hd.
  split; [exact Hd|]. unfold handleConvert. now rewrite Hd.
Qed.

Lemma X18_flagged_fragments_flag_the_document_witness :
  detectMaliciousContent
    (lit "Use `" ++ lit "document.write" ++ lit "` sparingly.") = true
  /\ handleConvert referencePlatform (Spec.appConverter referencePlatform)
                   (Spec.appState referencePlatform) browserEnv
                   (lit "Use `" ++ lit "document.write" ++ lit "` sparingly.")
                   (lit "notes.md") (lit "txt") initialState
     = mkState (result initialState) (isConverting initialState)
               (Some (lit "Content contains potentially malicious elements")).
Proof.
  apply (X18_flagged_fragments_flag_the_document referencePlatform
           (Spec.appConverter referencePlatform) (Spec.appState referencePlatform)
           browserEnv (lit "Use `") (lit "document.write") (lit "` sparingly.")
           (lit "notes.md") (lit "txt") initialState).
  vm_compute. reflexivity.
Defined.

Lemma isUpper_range x :
  JS.isUpper x = true <-> (65 <= x <= 90)%N.
Proof.
  unfold JS.isUpper. rewrite andb_true_iff, !N.leb_le. tauto.
Qed.

Lemma asciiLower_cases x :
  (JS.isUpper x = true /\ JS.asciiLower x = (x + 32)%N /\ (65 <= x <= 90)%N)
  \/ (JS.isUpper x = false /\ JS.asciiLower x = x).
Proof.
  unfold JS.asciiLower. destruct (JS.isUpper x) eqn:E; [left | right; auto].
  apply isUpper_range in E. auto.
Qed.

Lemma asciiLower_idem x : JS.asciiLower (JS.asciiLower x) = JS.asciiLower x.
Proof.
  destruct (asciiLower_cases x) as [[_ [-> Hr]]|[Hu ->]].
  - unfold JS.asciiLower.
    replace (JS.isUpper (x + 32)) with false; [reflexivity|].
    symmetry. unfold JS.isUpper. apply andb_false_iff. right.
    apply N.leb_gt. lia.
  - unfold JS.asciiLower. now rewrite Hu.
Qed.

Lemma isSpace_printable c : (33 <= c <= 159)%N -> JS.isSpace c = false.
Proof.
  intro H. unfold JS.isSpace. cbn [existsb].
  repeat match goal with
         | |- context [N.eqb c ?k] =>
             destruct (N.eqb_spec c k) as [?|_]; [lia|]
         end.
  cbn [orb]. apply andb_false_iff. left. apply N.leb_gt. lia.
Qed.

Lemma caseBlind_isSpace : caseBlind JS.isSpace.
Proof.
  intro x. destruct (asciiLower_cases x) as [[_ [-> Hr]]|[_ ->]]; [|reflexivity].
  rewrite !isSpace_printable by lia. reflexivity.
Qed.

Lemma caseBlind_isNot_gt : caseBlind (isNot [">"%char]).
Proof.
  intro x. unfold isNot. cbn [existsb]. rewrite !orb_false_r.
  destruct (asciiLower_cases x) as [[_ [-> Hr]]|[_ ->]]; [|reflexivity].
  change (JS.chr ">") with 62%N.
  destruct (N.eqb_spec 62 (x + 32)); [lia|].
  destruct (N.eqb_spec 62 x); [lia | reflexivity].
Qed.

Lemma caseBlind_iword w : Forall caseBlindAtom (iword w).
Proof.
  unfold iword. apply Forall_forall. intros a Ha.
  apply in_map_iff in Ha as [c [<- _]]. cbn [caseBlindAtom].
  intro x. now rewrite asciiLower_idem.
Qed.

Lemma greedy_lower c k :
  caseBlind c ->
  (forall prev s, k (option_map JS.asciiLower prev) (List.map JS.asciiLower s) = k prev s) ->
  forall s prev,
    greedy c k (option_map JS.asciiLower prev) (List.map JS.asciiLower s)
    = greedy c k prev s.
Proof.
  intros Hc Hk. induction s as [|x s IH]; intro prev.
  - apply (Hk prev []).
  - cbn [List.map greedy]. rewrite Hc.
    change (Some (JS.asciiLower x)) with (option_map JS.asciiLower (Some x)).
    rewrite IH. pose proof (Hk prev (x :: s)) as Hk'. cbn [List.map] in Hk'.
    rewrite Hk'. reflexivity.
Qed.

Lemma matchHere_lower ml r :
  Forall caseBlindAtom r ->
  forall prev s,
    matchHere ml r (option_map JS.asciiLower prev) (List.map JS.asciiLower s)
    = matchHere ml r prev s.
Proof.
  intro H. induction H as [|a r Ha _ IH]; intros prev s; [reflexivity|].
  destruct a as [| |c q]; try contradiction. cbn [caseBlindAtom] in Ha.
  destruct q; cbn [matchHere].
  - destruct s as [|x s]; [reflexivity|]. cbn [List.map]. rewrite Ha.
    change (Some (JS.asciiLower x)) with (option_map JS.asciiLower (Some x)).
    now rewrite IH.
  - now apply greedy_lower.
  - destruct s as [|x s]; [reflexivity|]. cbn [List.map]. rewrite Ha.
    change (Some (JS.asciiLower x)) with (option_map JS.asciiLower (Some x)).
    now rewrite greedy_lower.
Qed.

Lemma matchAlts_lower ml bs :
  Forall (Forall caseBlindAtom) bs ->
  forall prev t,
    matchAlts ml bs (option_map JS.asciiLower prev) (List.map JS.asciiLower t)
    = matchAlts ml bs prev t.
Proof.
  intros H prev t. induction H as [|b bs Hb _ IH]; [reflexivity|].
  cbn [matchAlts]. now rewrite (matchHere_lower _ b Hb), IH.
Qed.

Lemma test_lower re s :
  Forall (Forall caseBlindAtom) (alts re) ->
  test re (List.map JS.asciiLower s) = test re s.
Proof.
  intro H.
  assert (Halts : forall prev t,
             matchAt re (option_map JS.asciiLower prev) (List.map JS.asciiLower t)
             = matchAt re prev t).
  { intros prev t. unfold matchAt. now apply matchAlts_lower. }
  assert (Hs : forall u prev,
             search re (option_map JS.asciiLower prev) (List.map JS.asciiLower u)
             = search re prev u).
  { induction u as [|x u IH]; intro prev.
    - pose proof (Halts prev []) as Hm. cbn [List.map] in Hm.
      cbn [List.map search]. now rewrite Hm.
    - pose proof (Halts prev (x :: u)) as Hm. cbn [List.map] in Hm.
      cbn [List.map search]. rewrite Hm.
      change (Some (JS.asciiLower x)) with (option_map JS.asciiLower (Some x)).
      now rewrite IH. }
  unfold test. pose proof (Hs s None) as Hn. cbn [option_map] in Hn.
  now rewrite Hn.
Qed.

Lemma suspiciousPatterns_caseBlind :
  Forall (fun re => Forall (Forall caseBlindAtom) (alts re)) suspiciousPatterns.
Proof.
  assert (Hcls : forall c, caseBlind c -> Forall caseBlindAtom [Cls c Star])
    by (intros c Hc; repeat constructor; exact Hc).
  unfold suspiciousPatterns.
  do 9 (apply Forall_cons;
        [cbn [alts re1]; apply Forall_cons; [|apply Forall_nil];
         repeat (apply Forall_app; split);
         first [apply caseBlind_iword
               | apply Hcls; exact caseBlind_isSpace
               | apply Hcls; exact caseBlind_isNot_gt]|]).
  apply Forall_nil.
Qed.

Lemma detect_lower s :
  detectMaliciousContent (List.map JS.asciiLower s) = detectMaliciousContent s.
Proof.
  unfold detectMaliciousContent.
  pose proof suspiciousPatterns_caseBlind as H.
  induction H as [|re res Hre _ IH]; [reflexivity|].
  cbn [existsb]. now rewrite (test_lower re s Hre), IH.
Qed.

Lemma includes_iff (w s : str) :
  JS.includes w s = true <-> exists a t, s = a ++ w ++ t.
Proof.
  induction s as [|x s IH]; cbn [JS.includes].
  - rewrite orb_false_r, startsWith_iff. split.
    + intros [r H]. exists [], r. exact H.
    + intros [a [t H]]. destruct a; [exists t; exact H|discriminate].
  - rewrite orb_true_iff, startsWith_iff, IH. split.
    + intros [[r H]|[a [t ->]]]; [exists [], r; exact H|].
      exists (x :: a), t. reflexivity.
    + intros [[|y a] [t H]]; [left; exists t; exact H|].
      injection H as <- ->. right. exists a, t. reflexivity.
Qed.

(** X19: [detectMaliciousContent] does not tell an ASCII letter from its
    lower case; and a text in which [javascript:], [vbscript:],
    [data:text/html] or [document.write] is written, in any case and at
    any place, is flagged. *)
Theorem X19_signatures_ignore_case (content : str) :
  detectMaliciousContent (List.map JS.asciiLower content)
  = detectMaliciousContent content
  /\ (forall word,
         In word [lit "javascript:"; lit "vbscript:"; lit "data:text/html";
                  lit "document.write"] ->
         JS.includes word (List.map JS.asciiLower content) = true ->
         detectMaliciousContent content = true).
Proof.
  split; [apply detect_lower|].
  intros word Hw Hi. rewrite <- detect_lower.
  apply includes_iff in Hi as [a [t ->]]. apply detect_context.
  destruct Hw as [<-|[<-|[<-|[<-|[]]]]]; vm_compute; reflexivity.
Qed.

End Signatures.

(** ** The features of a document *)

Section MarkdownFeatures.
Import RegExp Matcher Features Shapes.

Lemma prevAfter_cons prev x a : exists c, prevAfter prev (x :: a) = Some c.
Proof.
  revert prev x. induction a as [|y a IH]; intros prev x.
  - exists x. reflexivity.
  - cbn [prevAfter]. apply (IH (Some x) y).
Qed.

Lemma prevAfter_last prev a l : prevAfter prev (a ++ [l]) = Some l.
Proof.
  revert prev. induction a as [|x a IH]; intro prev; [reflexivity|].
  cbn [app prevAfter]. apply IH.
Qed.

(** Without the [m] flag, [^] is the start of the text. *)
Lemma atBol_start a : atBol false (prevAfter None a) = true <-> a = [].
Proof.
  destruct a as [|x a]; [split; reflexivity|].
  destruct (prevAfter_cons None x a) as [c ->]. split; discriminate.
Qed.

(** With the [m] flag, [^] is the start of a line. *)
Lemma atBol_lineStart a : atBol true (prevAfter None a) = true <-> lineStart a.
Proof.
  unfold lineStart. induction a as [|l b _] using rev_ind.
  - split; [now left | reflexivity].
  - rewrite prevAfter_last. cbn [atBol andb]. split.
    + intro H. right. exists b, l. auto.
    + intros [H|[b' [l' [H Hl]]]].
      * destruct b; discriminate.
      * apply app_inj_tail in H as [_ <-]. exact Hl.
Qed.

(** X20: [hasHeaders] looks at the start of the text only: it holds
    exactly when the text begins with one to six [#] followed by a white
    space, so that a heading on a later line is not seen. *)
Theorem X20_hasHeaders_looks_at_the_start (content : str) :
  hasHeaders (detectMarkdownFeatures content) = true
  <-> exists k c rest,
        1 <= k <= 6
        /\ content = List.repeat 35%N k ++ c :: rest
        /\ JS.isSpace c = true.
Proof.
  cbn [detectMarkdownFeatures hasHeaders]. rewrite test_matches.
  cbn [alts multiline reHeaders]. split.
  - intros [a [t [b [-> [Hin H]]]]].
    apply in_map_iff in Hin as [k [<- Hk]].
    cbn [matches] in H. destruct H as [Hbol H].
    apply atBol_start in Hbol. subst a.
    rewrite <- (map_repeat "#"%char k (fun a => one (isChr a))) in H.
    apply matches_word in H as [t' [-> H]].
    cbn [matches] in H. destruct H as [c [rest [-> [Hc _]]]].
    exists k, c, rest. split; [|split; [|exact Hc]].
    + cbn [In] in Hk. lia.
    + rewrite map_repeat. reflexivity.
  - intros [k [c [rest [Hk [-> Hc]]]]].
    exists [], (List.repeat 35%N k ++ c :: rest),
      (Bol :: List.repeat (one (isChr "#")) k ++ [one JS.isSpace]).
    split; [reflexivity|]. split.
    + apply in_map_iff. exists k. split; [reflexivity|].
      cbn [In]. lia.
    + cbn [matches prevAfter atBol]. split; [reflexivity|].
      rewrite <- (map_repeat "#"%char k (fun a => one (isChr a))).
      apply matches_word. exists (c :: rest). split.
      * rewrite map_repeat. reflexivity.
      * cbn [matches]. exists c, rest. auto.
Qed.

(** A heading that is not on the first line. *)
Example hasHeaders_misses_later_headings :
  hasHeaders (detectMarkdownFeatures (lit "Intro

# Title")) = false
  /\ hasHeaders (detectMarkdownFeatures (lit "# Title")) = true.
Proof. split; vm_compute; reflexivity. Qed.

Lemma matches_word_end ml w prev s :
  matches ml (word w) prev s <-> exists t, s = lit w ++ t.
Proof.
  rewrite <- (app_nil_r (word w)). unfold word. rewrite matches_word.
  split; intros [t H]; exists t; [apply H | split; [exact H | exact I]].
Qed.

Lemma test_re1 b s :
  test (re1 b) s = true
  <-> exists a t, s = a ++ t /\ matches false b (prevAfter None a) t.
Proof.
  rewrite test_matches. cbn [alts multiline re1]. split.
  - intros [a [t [b' [-> [[<-|[]] H]]]]]. exists a, t. auto.
  - intros [a [t [-> H]]]. exists a, t, b. cbn [In]. auto.
Qed.

(** The pattern of a link, from where it starts. *)
Lemma matches_linkBody prev s :
  matches false linkBody prev s
  <-> exists text url rest,
        s = lit "[" ++ text ++ lit "](" ++ url ++ lit ")" ++ rest
        /\ oneLine text /\ oneLine url.
Proof.
  unfold linkBody, oneLine. unfold word at 1. rewrite matches_word. split.
  - intros [t [-> H]]. cbn [app matches] in H.
    destruct H as [text [t1 [-> [Ht H]]]].
    unfold word at 1 in H. apply matches_word in H as [t2 [-> H]].
    cbn [app matches] in H. destruct H as [url [t3 [-> [Hu H]]]].
    apply matches_word_end in H as [rest ->].
    exists text, url, rest. auto.
  - intros [text [url [rest [-> [Ht Hu]]]]].
    exists (text ++ lit "](" ++ url ++ lit ")" ++ rest). split; [reflexivity|].
    cbn [app matches]. exists text, (lit "](" ++ url ++ lit ")" ++ rest).
    split; [reflexivity|]. split; [exact Ht|].
    unfold word at 1. apply matches_word.
    exists (url ++ lit ")" ++ rest). split; [reflexivity|].
    cbn [app matches]. exists url, (lit ")" ++ rest).
    split; [reflexivity|]. split; [exact Hu|].
    apply matches_word_end. exists rest. reflexivity.
Qed.

(** X21: what [detectMarkdownFeatures] takes for a code block, a link,
    an image and a table.  A code block is two runs of three back-quotes,
    anywhere; a link is [[text](url)] and an image [![text](url)] with
    text and URL on one line, either empty or not; a table is two
    vertical bars on one line.  So every image is also a link. *)
Theorem X21_features_by_shape (content : str) :
  let f := detectMarkdownFeatures content in
  (hasCodeBlocks f = true
   <-> exists before code after,
         content = before ++ lit "```" ++ code ++ lit "```" ++ after)
  /\ (hasLinks f = true
      <-> exists before text url after,
            content = before ++ lit "[" ++ text ++ lit "](" ++ url ++ lit ")" ++ after
            /\ oneLine text /\ oneLine url)
  /\ (hasImages f = true
      <-> exists before text url after,
            content = before ++ lit "![" ++ text ++ lit "](" ++ url ++ lit ")" ++ after
            /\ oneLine text /\ oneLine url)
  /\ (hasTable f = true
      <-> exists before cells after,
            content = before ++ lit "|" ++ cells ++ lit "|" ++ after
            /\ oneLine cells)
  /\ (hasImages f = true -> hasLinks f = true).
Proof.
  intro f.
  assert (Hlinks : hasLinks f = true
      <-> exists before text url after,
            content = before ++ lit "[" ++ text ++ lit "](" ++ url ++ lit ")" ++ after
            /\ oneLine text /\ oneLine url).
  { cbn [f detectMarkdownFeatures hasLinks]. unfold reLinks. rewrite test_re1. split.
    - intros [a [t [-> H]]]. apply matches_linkBody in H as [text [url [rest [-> H]]]].
      exists a, text, url, rest. auto.
    - intros [a [text [url [rest [-> H]]]]].
      exists a, (lit "[" ++ text ++ lit "](" ++ url ++ lit ")" ++ rest).
      split; [reflexivity|]. apply matches_linkBody. exists text, url, rest. auto. }
  assert (Himages : hasImages f = true
      <-> exists before text url after,
            content = before ++ lit "![" ++ text ++ lit "](" ++ url ++ lit ")" ++ after
            /\ oneLine text /\ oneLine url).
  { cbn [f detectMarkdownFeatures hasImages]. unfold reImages. rewrite test_re1. split.
    - intros [a [t [-> H]]]. unfold word in H. apply matches_word in H as [t' [-> H]].
      apply matches_linkBody in H as [text [url [rest [-> H]]]].
      exists a, text, url, rest. auto.
    - intros [a [text [url [rest [-> H]]]]].
      exists a, (lit "![" ++ text ++ lit "](" ++ url ++ lit ")" ++ rest).
      split; [reflexivity|]. unfold word. apply matches_word.
      exists (lit "[" ++ text ++ lit "](" ++ url ++ lit ")" ++ rest).
      split; [reflexivity|]. apply matches_linkBody. exists text, url, rest. auto. }
  split; [|split; [exact Hlinks|split; [exact Himages|split]]].
  - cbn [f detectMarkdownFeatures hasCodeBlocks]. unfold reCodeBlocks.
    rewrite test_re1. split.
    + intros [a [t [-> H]]]. unfold word at 1 in H.
      apply matches_word in H as [t1 [-> H]].
      cbn [app matches] in H. destruct H as [code [t2 [-> [_ H]]]].
      apply matches_word_end in H as [rest ->].
      exists a, code, rest. reflexivity.
    + intros [a [code [rest ->]]].
      exists a, (lit "```" ++ code ++ lit "```" ++ rest). split; [reflexivity|].
      unfold word at 1. apply matches_word.
      exists (code ++ lit "```" ++ rest). split; [reflexivity|].
      cbn [app matches]. exists code, (lit "```" ++ rest).
      split; [reflexivity|]. split; [apply forallb_forall; reflexivity|].
      apply matches_word_end. exists rest. reflexivity.
  - cbn [f detectMarkdownFeatures hasTable]. unfold reTable.
    rewrite test_re1. split.
    + intros [a [t [-> H]]]. unfold word at 1 in H.
      apply matches_word in H as [t1 [-> H]].
      cbn [app matches] in H. destruct H as [cells [t2 [-> [Hc H]]]].
      apply matches_word_end in H as [rest ->].
      exists a, cells, rest. auto.
    + intros [a [cells [rest [-> Hc]]]].
      exists a, (lit "|" ++ cells ++ lit "|" ++ rest). split; [reflexivity|].
      unfold word at 1. apply matches_word.
      exists (cells ++ lit "|" ++ rest). split; [reflexivity|].
      cbn [app matches]. exists cells, (lit "|" ++ rest).
      split; [reflexivity|]. split; [exact Hc|].
      apply matches_word_end. exists rest. reflexivity.
  - intro H. apply Himages in H as [a [text [url [rest [-> H]]]]].
    apply Hlinks. exists (a ++ lit "!"), text, url, rest.
    split; [|exact H]. rewrite <- app_assoc. reflexivity.
Qed.

(** X22: [hasLists] holds exactly when, from the start of some line,
    white space, which may go over several lines, leads to a bullet
    marker or to a number marker. *)
Theorem X22_hasLists_by_shape (content : str) :
  hasLists (detectMarkdownFeatures content) = true
  <-> exists before blank marker after,
        content = before ++ blank ++ marker ++ after
        /\ lineStart before
        /\ forallb JS.isSpace blank = true
        /\ (bulletMarker marker \/ numberMarker marker).
Proof.
  cbn [detectMarkdownFeatures hasLists]. rewrite test_matches.
  cbn [alts multiline reLists]. split.
  - intros [a [t [b [-> [Hin H]]]]]. destruct Hin as [<-|[<-|[]]].
    + cbn [matches] in H. destruct H as [Hbol [blank [t1 [-> [Hb H]]]]].
      destruct H as [m [t2 [-> [Hm [sp [rest [-> [Hsp _]]]]]]]].
      exists a, blank, [m; sp], rest. split; [reflexivity|].
      split; [now apply atBol_lineStart|]. split; [exact Hb|]. left.
      exists m, sp. split; [reflexivity|]. split; [|exact Hsp].
      unfold isChr in Hm. rewrite !orb_true_iff, !N.eqb_eq in Hm.
      intuition auto.
    + cbn [matches] in H. destruct H as [Hbol [blank [t1 [-> [Hb H]]]]].
      destruct H as [d [ds [t2 [-> [Hd [Hds H]]]]]].
      destruct H as [p [t3 [-> [Hp [sp [rest [-> [Hsp _]]]]]]]].
      apply N.eqb_eq in Hp. subst p.
      exists a, blank, ((d :: ds) ++ lit "." ++ [sp]), rest.
      split; [cbn [app]; now rewrite <- !app_assoc|].
      split; [now apply atBol_lineStart|]. split; [exact Hb|]. right.
      exists (d :: ds), sp. split; [reflexivity|]. split; [discriminate|].
      split; [cbn [forallb]; now rewrite Hd, Hds | exact Hsp].
  - intros [a [blank [marker [rest [-> [Ha [Hb [Hm|Hm]]]]]]]].
    + destruct Hm as [m [sp [-> [Hm Hsp]]]].
      exists a, (blank ++ [m; sp] ++ rest),
        [Bol; Cls JS.isSpace Star;
         one (fun c => isChr "-" c || isChr "*" c || isChr "+" c); one JS.isSpace].
      split; [reflexivity|]. split; [now left|].
      cbn [matches]. split; [now apply atBol_lineStart|].
      exists blank, ([m; sp] ++ rest). split; [reflexivity|]. split; [exact Hb|].
      exists m, (sp :: rest). split; [reflexivity|]. split.
      * unfold isChr. rewrite !orb_true_iff, !N.eqb_eq. intuition auto.
      * exists sp, rest. auto.
    + destruct Hm as [ds [sp [-> [Hne [Hds Hsp]]]]].
      destruct ds as [|d ds]; [congruence|].
      cbn [forallb] in Hds. apply andb_true_iff in Hds as [Hd Hds].
      exists a, (blank ++ ((d :: ds) ++ lit "." ++ [sp]) ++ rest),
        [Bol; Cls JS.isSpace Star; Cls JS.isDigit Plus; one (isChr "."); one JS.isSpace].
      split; [reflexivity|]. split; [right; now left|].
      cbn [matches]. split; [now apply atBol_lineStart|].
      exists blank, (((d :: ds) ++ lit "." ++ [sp]) ++ rest).
      split; [reflexivity|]. split; [exact Hb|].
      exists d, ds, (lit "." ++ sp :: rest).
      split; [cbn [app]; now rewrite <- !app_assoc|].
      split; [exact Hd|]. split; [exact Hds|].
      exists 46%N, (sp :: rest). split; [reflexivity|]. split; [reflexivity|].
      exists sp, rest. auto.
Qed.

End MarkdownFeatures.

(** ** The prettified HTML *)

Section Prettify.
Import RegExp Converters.

Lemma dropWhile_fixed p (s : str) :
  (forall c, hd_error s = Some c -> p c = false) -> JS.dropWhile p s = s.
Proof.
  destruct s as [|x s]; [reflexivity|]. intro H. cbn [JS.dropWhile].
  now rewrite (H x eq_refl).
Qed.

Lemma dropWhile_idem p (s : str) :
  JS.dropWhile p (JS.dropWhile p s) = JS.dropWhile p s.
Proof. apply dropWhile_fixed. intros c. apply dropWhile_head. Qed.

Lemma hd_error_app (a b : str) : a <> [] -> hd_error (a ++ b) = hd_error a.
Proof. destruct a; [congruence | reflexivity]. Qed.

(** [trim] leaves a trimmed text alone. *)
Lemma trim_idem s : JS.trim (JS.trim s) = JS.trim s.
Proof.
  unfold JS.trim. rewrite !trimStart_dropWhile.
  set (t := JS.dropWhile JS.isSpace s).
  set (u := JS.dropWhile JS.isSpace (rev t)).
  assert (Hu : JS.dropWhile JS.isSpace (rev u) = rev u).
  { apply dropWhile_fixed. intros c Hc.
    destruct (dropWhile_split JS.isSpace (rev t)) as [pre [Hsplit _]].
    fold u in Hsplit.
    assert (Ht : t = rev u ++ rev pre)
      by (rewrite <- (rev_involutive t), Hsplit; apply rev_app_distr).
    apply (dropWhile_head JS.isSpace s). fold t. rewrite Ht.
    rewrite hd_error_app; [exact Hc|]. intro E. rewrite E in Hc. discriminate. }
  rewrite Hu, rev_involutive. unfold u. now rewrite dropWhile_idem.
Qed.

Lemma In_trim c s : In c (JS.trim s) -> In c s.
Proof.
  unfold JS.trim. rewrite !trimStart_dropWhile. intro H.
  apply in_rev in H. apply dropWhile_incl in H. apply in_rev in H.
  now apply dropWhile_incl in H.
Qed.

(** No piece of [s.split(sep)] contains the separator. *)
Lemma split_pieces sep s : Forall (fun l => ~ In sep l) (JS.split sep s).
Proof.
  induction s as [|x s IH]; [repeat constructor; intros []|].
  cbn [JS.split]. destruct (N.eqb_spec x sep) as [->|Hne].
  - constructor; [intros []|exact IH].
  - destruct (JS.split sep s) as [|l ls]; [repeat constructor; intros [|[]]; congruence|].
    inversion IH as [|? ? Hl Hls]; subst. constructor; [|exact Hls].
    intros [H|H]; [congruence | now apply Hl].
Qed.

Lemma split_whole sep s : ~ In sep s -> JS.split sep s = [s].
Proof.
  induction s as [|x s IH]; [reflexivity|]. intro H. cbn [JS.split].
  destruct (N.eqb_spec x sep) as [->|_]; [exfalso; apply H; now left|].
  rewrite IH; [reflexivity|]. intro Hs. apply H. now right.
Qed.

Lemma split_app_sep sep a t :
  ~ In sep a -> JS.split sep (a ++ sep :: t) = a :: JS.split sep t.
Proof.
  induction a as [|x a IH]; intro H.
  - cbn [app JS.split]. now rewrite N.eqb_refl.
  - cbn [app JS.split].
    destruct (N.eqb_spec x sep) as [->|_]; [exfalso; apply H; now left|].
    rewrite IH; [reflexivity|]. intro Hs. apply H. now right.
Qed.

(** Splitting what was joined gives the pieces back. *)
Lemma split_join sep ls :
  ls <> [] -> Forall (fun l => ~ In sep l) ls ->
  JS.split sep (JS.join [sep] ls) = ls.
Proof.
  induction ls as [|l ls IH]; [congruence|]. intros _ H.
  inversion H as [|? ? Hl Hls]; subst.
  destruct ls as [|l' ls]; [now apply split_whole|].
  change (JS.join [sep] (l :: l' :: ls)) with (l ++ sep :: JS.join [sep] (l' :: ls)).
  rewrite split_app_sep by exact Hl. rewrite IH; [reflexivity | discriminate | exact Hls].
Qed.

(** X23: in the text that [prettifyHTML] gives, every line is non-empty
    and has no white space at its start or at its end; the text is empty
    when there is no such line. *)
Theorem X23_prettifyHTML_lines_are_trimmed (html : str) :
  prettifyHTML html = []
  \/ Forall (fun line => line <> [] /\ JS.trim line = line)
            (JS.split 10%N (prettifyHTML html)).
Proof.
  unfold prettifyHTML.
  set (X := replaceAll reLineBlanks []
              (replaceAll reAdjacentTags (lit ">" ++ [10%N] ++ lit "<") html)).
  set (L := filter (fun line => negb (JS.isEmpty line))
                   (List.map JS.trim (JS.split 10%N X))).
  assert (HL : Forall (fun l => ~ In 10%N l /\ l <> [] /\ JS.trim l = l) L).
  { apply Forall_forall. intros l Hl. unfold L in Hl.
    apply filter_In in Hl as [Hl Hne]. apply in_map_iff in Hl as [x [<- Hx]].
    split; [|split].
    - intro H. apply In_trim in H.
      pose proof (split_pieces 10%N X) as Hp. rewrite Forall_forall in Hp.
      now apply (Hp x Hx).
    - intro E. rewrite E in Hne. discriminate.
    - apply trim_idem. }
  destruct L as [|l ls] eqn:EL; [left; reflexivity|]. right.
  rewrite split_join.
  - eapply Forall_impl; [|exact HL]. cbn. tauto.
  - discriminate.
  - eapply Forall_impl; [|exact HL]. cbn. tauto.
Qed.

Lemma lineTerminator_space c : JS.isLineTerminator c = true -> JS.isSpace c = true.
Proof.
  unfold JS.isLineTerminator. cbn [existsb]. rewrite !orb_true_iff, !N.eqb_eq.
  intros [->|[->|[->|[->|H]]]]; try reflexivity. discriminate.
Qed.

Lemma not_space_not_terminator c : JS.isSpace c = false -> JS.isLineTerminator c = false.
Proof.
  intro H. destruct (JS.isLineTerminator c) eqn:E; [|reflexivity].
  apply lineTerminator_space in E. congruence.
Qed.

Lemma dot_not_terminator c : Features.dot c = true -> JS.isLineTerminator c = false.
Proof. unfold Features.dot. now rewrite negb_true_iff. Qed.

(** The ends of a trimmed text. *)
Lemma trim_fixed_ends s :
  s <> [] -> JS.trim s = s ->
  (exists x, hd_error s = Some x /\ JS.isSpace x = false)
  /\ JS.isSpace (List.last s 0%N) = false.
Proof.
  intros Hne H. unfold JS.trim in H. rewrite !trimStart_dropWhile in H.
  set (t := JS.dropWhile JS.isSpace s) in *.
  set (u := JS.dropWhile JS.isSpace (rev t)) in *.
  assert (Hs : s = rev u) by (now symmetry).
  destruct u as [|y u'] eqn:Eu; [cbn in Hs; congruence|].
  assert (Hy : JS.isSpace y = false).
  { apply (dropWhile_head JS.isSpace (rev t)). fold u. now rewrite Eu. }
  split.
  - destruct s as [|x s']; [congruence|]. exists x. split; [reflexivity|].
    destruct (dropWhile_split JS.isSpace (rev t)) as [pre [Hsplit _]].
    fold u in Hsplit. rewrite Eu in Hsplit.
    assert (Ht : t = rev (y :: u') ++ rev pre)
      by (rewrite <- (rev_involutive t), Hsplit; apply rev_app_distr).
    rewrite <- Hs in Ht.
    apply (dropWhile_head JS.isSpace (x :: s')). fold t. now rewrite Ht.
  - rewrite Hs. cbn [rev]. now rewrite last_last.
Qed.

Lemma trim_of_ends s :
  (forall x, hd_error s = Some x -> JS.isSpace x = false) ->
  JS.isSpace (List.last s 0%N) = false ->
  JS.trim s = s.
Proof.
  intros Hh Hl. unfold JS.trim. rewrite !trimStart_dropWhile.
  rewrite (dropWhile_fixed JS.isSpace s Hh).
  rewrite dropWhile_fixed; [apply rev_involutive|].
  induction s as [|l s' _] using rev_ind; [discriminate|].
  rewrite rev_app_distr. cbn [rev app hd_error]. intros c [= <-].
  now rewrite last_last in Hl.
Qed.

(** [/></g] *)
Lemma matchAt_adjacent prev s :
  matchAt reAdjacentTags prev s
  = if JS.startsWith (lit "><") s then Some 2 else None.
Proof.
  unfold matchAt, reAdjacentTags.
  destruct s as [|x [|y s]]; cbn -[N.eqb]; unfold isChr; cbn -[N.eqb];
    [reflexivity | |].
  - destruct (62 =? x)%N; reflexivity.
  - destruct (62 =? x)%N; [|reflexivity]. destruct (60 =? y)%N; reflexivity.
Qed.

Lemma adjacent_none rep s : forall prev,
  JS.includes (lit "><") s = false ->
  replaceAllFrom reAdjacentTags rep prev s 0 = s.
Proof.
  induction s as [|x s IH]; intros prev H.
  - cbn [replaceAllFrom]. rewrite matchAt_adjacent. reflexivity.
  - cbn [JS.includes] in H. apply orb_false_iff in H as [Hs Hi].
    cbn [replaceAllFrom]. rewrite matchAt_adjacent, Hs. now rewrite IH.
Qed.

Lemma includes_adjacent_app a r :
  JS.includes (lit "><") a = false -> JS.includes (lit "><") r = false ->
  JS.headIs 60 r = false ->
  JS.includes (lit "><") (a ++ r) = false.
Proof.
  intros Ha Hr Hh. induction a as [|x a IH]; [exact Hr|].
  cbn [JS.includes] in Ha. apply orb_false_iff in Ha as [Hs Hi].
  cbn [app JS.includes]. rewrite (IH Hi), orb_false_r.
  destruct a as [|y a]; [|exact Hs].
  cbn [app]. destruct r as [|z r]; [exact Hs|].
  cbn [JS.headIs] in Hh.
  change (JS.startsWith (lit "><") (x :: z :: r))
    with (N.eqb 62 x && (N.eqb 60 z && true)).
  rewrite (N.eqb_sym 60 z), Hh. apply andb_false_r.
Qed.

(** [/^\s+|\s+$/gm] *)
Lemma blanks_none_nonspace prev x s :
  JS.isSpace x = false -> matchAt reLineBlanks prev (x :: s) = None.
Proof.
  intro H. unfold matchAt, reLineBlanks.
  cbn [multiline alts matchAlts matchHere]. rewrite H.
  destruct (atBol true prev); reflexivity.
Qed.

Lemma trailing_none s : forall prev t,
  s <> [] -> forallb Features.dot s = true -> JS.isSpace (List.last s 0%N) = false ->
  greedy JS.isSpace (matchHere true [Eol]) prev (s ++ t) = None.
Proof.
  induction s as [|x s IH]; intros prev t Hne Hd Hl; [congruence|].
  cbn [forallb] in Hd. apply andb_true_iff in Hd as [Hx Hd].
  apply dot_not_terminator in Hx.
  assert (Hk : matchHere true [Eol] prev (x :: s ++ t) = None)
    by (cbn [matchHere atEol andb]; now rewrite Hx).
  cbn [app greedy]. destruct s as [|y s].
  - cbn [List.last] in Hl. rewrite Hl. exact Hk.
  - rewrite (IH (Some x) t); [|discriminate | exact Hd | exact Hl].
    destruct (JS.isSpace x); exact Hk.
Qed.

Lemma blanks_none_interior p x s t :
  JS.isLineTerminator p = false ->
  s <> [] -> forallb Features.dot s = true -> JS.isSpace (List.last s 0%N) = false ->
  matchAt reLineBlanks (Some p) (x :: s ++ t) = None.
Proof.
  intros Hp Hne Hd Hl. unfold matchAt, reLineBlanks.
  cbn [multiline alts matchAlts matchHere atBol andb]. rewrite Hp.
  destruct (JS.isSpace x); [|reflexivity].
  now rewrite trailing_none.
Qed.

(** Inside a line that does not end with white space, nothing is
    removed. *)
Lemma blanks_line s : forall prev t,
  forallb Features.dot s = true ->
  (s = [] \/ JS.isSpace (List.last s 0%N) = false) ->
  (forall x, hd_error s = Some x -> JS.isSpace x = true ->
             exists p, prev = Some p /\ JS.isLineTerminator p = false) ->
  replaceAllFrom reLineBlanks [] prev (s ++ t) 0
  = s ++ replaceAllFrom reLineBlanks [] (Matcher.prevAfter prev s) t 0.
Proof.
  induction s as [|x s IH]; intros prev t Hd Hl Hh; [reflexivity|].
  destruct Hl as [Hl|Hl]; [discriminate|].
  cbn [forallb] in Hd. apply andb_true_iff in Hd as [Hx Hd].
  assert (Hm : matchAt reLineBlanks prev (x :: s ++ t) = None).
  { destruct (JS.isSpace x) eqn:Ex.
    - destruct (Hh x eq_refl Ex) as [p [-> Hp]].
      destruct s as [|y s]; [cbn [List.last] in Hl; congruence|].
      apply blanks_none_interior; [exact Hp | discriminate | exact Hd | exact Hl].
    - now apply blanks_none_nonspace. }
  cbn [app replaceAllFrom Matcher.prevAfter]. rewrite Hm. f_equal.
  apply IH; [exact Hd | |].
  - destruct s as [|y s]; [now left | right; exact Hl].
  - intros y _ _. exists x. split; [reflexivity|]. now apply dot_not_terminator.
Qed.

Lemma blanks_end prev : replaceAllFrom reLineBlanks [] prev [] 0 = [].
Proof.
  cbn [replaceAllFrom]. unfold matchAt, reLineBlanks.
  cbn [multiline alts matchAlts matchHere]. destruct (atBol true prev); reflexivity.
Qed.

(** A line break between two lines stays. *)
Lemma blanks_newline l y r :
  JS.isLineTerminator l = false -> JS.isSpace y = false ->
  replaceAllFrom reLineBlanks [] (Some l) (10%N :: y :: r) 0
  = 10%N :: replaceAllFrom reLineBlanks [] (Some 10%N) (y :: r) 0.
Proof.
  intros Hl Hy.
  assert (Hm : matchAt reLineBlanks (Some l) (10%N :: y :: r) = None).
  { unfold matchAt, reLineBlanks.
    cbn [multiline alts matchAlts matchHere atBol andb]. rewrite Hl.
    change (JS.isSpace 10) with true. cbn [greedy]. rewrite Hy.
    cbn [matchHere atEol andb]. rewrite (not_space_not_terminator y Hy).
    reflexivity. }
  cbn [replaceAllFrom]. now rewrite Hm.
Qed.

(** An empty line goes, with the line breaks on both its sides. *)
Lemma blanks_empty_line l y r :
  JS.isLineTerminator l = false -> JS.isSpace y = false ->
  replaceAllFrom reLineBlanks [] (Some l) (10%N :: 10%N :: y :: r) 0
  = replaceAllFrom reLineBlanks [] (Some 10%N) (y :: r) 0.
Proof.
  intros Hl Hy.
  assert (Hm1 : matchAt reLineBlanks (Some l) (10%N :: 10%N :: y :: r) = Some 1).
  { unfold matchAt, reLineBlanks.
    cbn [multiline alts matchAlts matchHere atBol andb]. rewrite Hl.
    change (JS.isSpace 10) with true. cbn [greedy].
    change (JS.isSpace 10) with true. rewrite Hy.
    cbn [matchHere atEol andb]. rewrite (not_space_not_terminator y Hy).
    change (JS.isLineTerminator 10) with true. reflexivity. }
  assert (Hm2 : matchAt reLineBlanks (Some 10%N) (10%N :: y :: r) = Some 1).
  { unfold matchAt, reLineBlanks.
    cbn [multiline alts matchAlts matchHere atBol andb].
    change (JS.isLineTerminator 10) with true.
    change (JS.isSpace 10) with true. cbn [greedy]. rewrite Hy.
    reflexivity. }
  cbn [replaceAllFrom]. rewrite Hm1. cbn [app].
  cbn [replaceAllFrom]. rewrite Hm2. reflexivity.
Qed.

Lemma textLine_parts s :
  Shapes.textLine s ->
  exists x s' l,
    s = x :: s' /\ JS.isSpace x = false
    /\ List.last s 0%N = l /\ JS.isSpace l = false
    /\ forallb Features.dot s = true
    /\ ~ In 10%N s
    /\ JS.includes (lit "><") s = false.
Proof.
  intros [Hne [Hd [Ht Hi]]]. unfold Shapes.oneLine in Hd.
  destruct (trim_fixed_ends s Hne Ht) as [[x [Hx Hsx]] Hl].
  destruct s as [|x' s']; [congruence|]. injection Hx as ->.
  exists x, s', (List.last (x :: s') 0%N).
  repeat split; try assumption.
  intro H. rewrite forallb_forall in Hd. apply Hd in H. discriminate.
Qed.

Lemma prevAfter_last_of prev s :
  s <> [] -> Matcher.prevAfter prev s = Some (List.last s 0%N).
Proof.
  intro H. induction s as [|l s' _] using rev_ind; [congruence|].
  rewrite last_last. apply prevAfter_last.
Qed.

(** X24: [prettifyHTML] keeps a line break between two lines of text
    but takes an empty line away together with the line breaks on both
    its sides, so that the two lines around an empty line come out as
    one. *)
Theorem X24_prettifyHTML_joins_over_empty_lines (a b : str) :
  Shapes.textLine a -> Shapes.textLine b ->
  prettifyHTML (a ++ [10%N; 10%N] ++ b) = a ++ b
  /\ prettifyHTML (a ++ [10%N] ++ b) = a ++ [10%N] ++ b.
Proof.
  intros Ha Hb.
  destruct (textLine_parts a Ha) as [xa [a' [la [Ea [Hxa [Ela [Hla [Hda [Hna Hia]]]]]]]]].
  destruct (textLine_parts b Hb) as [xb [b' [lb [Eb [Hxb [Elb [Hlb [Hdb [Hnb Hib]]]]]]]]].
  assert (Hane : a <> []) by (rewrite Ea; discriminate).
  assert (Hbne : b <> []) by (rewrite Eb; discriminate).
  assert (Hla' : JS.isLineTerminator la = false)
    by now apply not_space_not_terminator.
  assert (Hhead : forall s (x : N), hd_error s = Some x -> JS.isSpace x = false ->
                  forall prev y, hd_error s = Some y -> JS.isSpace y = true ->
                  exists p, prev = Some p /\ JS.isLineTerminator p = false).
  { intros s x Hx Hs prev y Hy Hsy. congruence. }
  assert (Hbtail : forall prev,
             replaceAllFrom reLineBlanks [] prev b 0 = b).
  { intro prev. rewrite <- (app_nil_r b) at 1.
    rewrite blanks_line; [now rewrite blanks_end, app_nil_r | exact Hdb | |].
    - right. now rewrite Elb.
    - apply (Hhead b xb); [now rewrite Eb | exact Hxb]. }
  assert (Hatrim : JS.trim a = a) by apply Ha.
  assert (Hbtrim : JS.trim b = b) by apply Hb.
  split.
  - unfold prettifyHTML, replaceAll.
    rewrite adjacent_none.
    2:{ apply includes_adjacent_app; [exact Hia | | reflexivity].
        cbn [app JS.includes]. exact Hib. }
    rewrite blanks_line; [|exact Hda | right; now rewrite Ela |
                          apply (Hhead a xa); [now rewrite Ea | exact Hxa]].
    rewrite (prevAfter_last_of None a Hane), Ela.
    rewrite Eb at 1. cbn [app]. rewrite blanks_empty_line by assumption.
    rewrite <- Eb, Hbtail.
    rewrite split_whole.
    2:{ intro H. apply in_app_or in H as [H|H]; [now apply Hna | now apply Hnb]. }
    cbn [List.map]. rewrite trim_of_ends.
    + cbn [filter]. destruct (a ++ b) eqn:E; [|reflexivity].
      apply app_eq_nil in E as [E _]. congruence.
    + intros x Hx. rewrite hd_error_app in Hx by exact Hane.
      rewrite Ea in Hx. injection Hx as <-. exact Hxa.
    + rewrite last_app_nonempty by exact Hbne. now rewrite Elb.
  - unfold prettifyHTML, replaceAll.
    rewrite adjacent_none.
    2:{ apply includes_adjacent_app; [exact Hia | | reflexivity].
        cbn [app JS.includes]. exact Hib. }
    rewrite blanks_line; [|exact Hda | right; now rewrite Ela |
                          apply (Hhead a xa); [now rewrite Ea | exact Hxa]].
    rewrite (prevAfter_last_of None a Hane), Ela.
    rewrite Eb at 1. cbn [app]. rewrite blanks_newline by assumption.
    rewrite <- Eb, Hbtail.
    rewrite split_app_sep by exact Hna. rewrite split_whole by exact Hnb.
    cbn [List.map]. rewrite Hatrim, Hbtrim. cbn [filter].
    destruct a; [congruence|]. destruct b; [congruence|]. reflexivity.
Qed.

Lemma X24_prettifyHTML_joins_over_empty_lines_witness :
  prettifyHTML (lit "let x = 1;" ++ [10%N; 10%N] ++ lit "let y = 2;")
  = lit "let x = 1;" ++ lit "let y = 2;"
  /\ prettifyHTML (lit "let x = 1;" ++ [10%N] ++ lit "let y = 2;")
     = lit "let x = 1;" ++ [10%N] ++ lit "let y = 2;".
Proof.
  apply (X24_prettifyHTML_joins_over_empty_lines (lit "let x = 1;") (lit "let y = 2;"));
    (split; [discriminate | repeat split; vm_compute; reflexivity]).
Defined.

End Prettify.

(** ** Escaping *)

Section Escaping.
Import MarkdownParser.
Local Open Scope N_scope.

Lemma escapeChar_cases c :
  (c = 38 /\ escapeChar c = [38; 97; 109; 112; 59])
  \/ (c = 60 /\ escapeChar c = [38; 108; 116; 59])
  \/ (c = 62 /\ escapeChar c = [38; 103; 116; 59])
  \/ (c = 34 /\ escapeChar c = [38; 113; 117; 111; 116; 59])
  \/ (c = 39 /\ escapeChar c = [38; 35; 51; 57; 59])
  \/ (c <> 38 /\ c <> 60 /\ c <> 62 /\ c <> 34 /\ c <> 39 /\ escapeChar c = [c]).
Proof.
  unfold escapeChar.
  destruct (N.eqb_spec c 38) as [->|H1]; [left; split; reflexivity|].
  destruct (N.eqb_spec c 60) as [->|H2]; [right; left; split; reflexivity|].
  destruct (N.eqb_spec c 62) as [->|H3]; [right; right; left; split; reflexivity|].
  destruct (N.eqb_spec c 34) as [->|H4];
    [right; right; right; left; split; reflexivity|].
  destruct (N.eqb_spec c 39) as [->|H5];
    [right; right; right; right; left; split; reflexivity|].
  repeat right. repeat split; assumption.
Qed.

Lemma escapeHtml_length text :
  (List.length text <= List.length (escapeHtml text))%nat.
Proof.
  induction text as [|c text IH]; [apply le_n|].
  unfold escapeHtml in *. cbn [flat_map]. rewrite length_app. cbn [List.length].
  destruct (escapeChar_cases c)
    as [[_ ->]|[[_ ->]|[[_ ->]|[[_ ->]|[[_ ->]|[_ [_ [_ [_ [_ ->]]]]]]]]]];
    cbn [List.length]; lia.
Qed.

Lemma escapeHtml_injective a : forall b, escapeHtml a = escapeHtml b -> a = b.
Proof.
  unfold escapeHtml. induction a as [|x a IH]; intros [|y b] H.
  - reflexivity.
  - exfalso. cbn [flat_map] in H.
    destruct (escapeChar_cases y)
      as [[_ E]|[[_ E]|[[_ E]|[[_ E]|[[_ E]|[_ [_ [_ [_ [_ E]]]]]]]]]];
      rewrite E in H; discriminate.
  - exfalso. cbn [flat_map] in H.
    destruct (escapeChar_cases x)
      as [[_ E]|[[_ E]|[[_ E]|[[_ E]|[[_ E]|[_ [_ [_ [_ [_ E]]]]]]]]]];
      rewrite E in H; discriminate.
  - cbn [flat_map] in H.
    assert (Hxy : x = y /\ flat_map escapeChar a = flat_map escapeChar b).
    { destruct (escapeChar_cases x)
        as [[Hx Ex]|[[Hx Ex]|[[Hx Ex]|[[Hx Ex]|[[Hx Ex]|[X1 [X2 [X3 [X4 [X5 Ex]]]]]]]]]];
        destruct (escapeChar_cases y)
          as [[Hy Ey]|[[Hy Ey]|[[Hy Ey]|[[Hy Ey]|[[Hy Ey]|[Y1 [Y2 [Y3 [Y4 [Y5 Ey]]]]]]]]]];
        rewrite Ex, Ey in H; cbn [app] in H;
          try discriminate;
          try (injection H as H; subst; split; [reflexivity | assumption]);
          try (injection H as H0 H; congruence). }
    destruct Hxy as [-> Hab]. f_equal. now apply IH.
Qed.

Lemma escapeHtml_clean text :
  Forall (fun c => c <> 60 /\ c <> 62 /\ c <> 34 /\ c <> 39) (escapeHtml text).
Proof.
  unfold escapeHtml. induction text as [|c text IH]; [constructor|].
  cbn [flat_map]. apply Forall_app. split; [|exact IH].
  destruct (escapeChar_cases c)
    as [[_ ->]|[[_ ->]|[[_ ->]|[[_ ->]|[[_ ->]|[X1 [X2 [X3 [X4 [X5 ->]]]]]]]]]];
    repeat constructor; try discriminate; assumption.
Qed.

(** X25: [escapeHtml] leaves none of [<], [>], the double and the single
    quote in a text; it changes a text exactly when one of these or an
    ampersand is in it, never makes it shorter, and loses nothing: two
    texts with the same escaped text are the same. *)
Theorem X25_escapeHtml (text : str) :
  Forall (fun c => c <> 60 /\ c <> 62 /\ c <> 34 /\ c <> 39) (escapeHtml text)
  /\ (escapeHtml text = text
      <-> Forall (fun c => c <> 38 /\ c <> 60 /\ c <> 62 /\ c <> 34 /\ c <> 39) text)
  /\ (forall other, escapeHtml other = escapeHtml text -> other = text)
  /\ (List.length text <= List.length (escapeHtml text))%nat.
Proof.
  split; [apply escapeHtml_clean|split; [|split]].
  - induction text as [|c text IH]; [split; [constructor | reflexivity]|].
    pose proof (escapeHtml_length text) as Hlen.
    unfold escapeHtml in *. cbn [flat_map]. split.
    + intro H.
      destruct (escapeChar_cases c)
        as [[_ E]|[[_ E]|[[_ E]|[[_ E]|[[_ E]|[X1 [X2 [X3 [X4 [X5 E]]]]]]]]]];
        rewrite E in H; cbn [app] in H;
          try (exfalso; injection H as Hc H; apply (f_equal (@List.length N)) in H;
               cbn [List.length] in H; lia).
      injection H as H.
      constructor; [repeat split; assumption | now apply IH].
    + intro H. inversion H as [|? ? [X1 [X2 [X3 [X4 X5]]]] Ht]; subst.
      destruct (escapeChar_cases c)
        as [[E _]|[[E _]|[[E _]|[[E _]|[[E _]|[_ [_ [_ [_ [_ E]]]]]]]]]];
        try congruence.
      rewrite E. cbn [app]. f_equal. now apply IH.
  - intros other H. now apply escapeHtml_injective.
  - apply escapeHtml_length.
Qed.

Lemma occurrences_app c a b :
  Str.occurrences c (a ++ b) = (Str.occurrences c a + Str.occurrences c b)%nat.
Proof. unfold Str.occurrences. now rewrite filter_app, length_app. Qed.

Lemma occurrences_none c s :
  Forall (fun x => x <> c) s -> Str.occurrences c s = 0%nat.
Proof.
  unfold Str.occurrences. intro H. induction H as [|x s Hx _ IH]; [reflexivity|].
  cbn [filter]. destruct (N.eqb_spec c x); [congruence | exact IH].
Qed.

Lemma sanitizeUrl_cases P url :
  sanitizeUrl P url = url \/ sanitizeUrl P url = lit "#".
Proof.
  destruct (allowedUrl_dec P url) as [H|H].
  - left. now apply sanitizeUrl_allowed.
  - right. now apply sanitizeUrl_placeholder.
Qed.

(** X28: whatever the alternative text and the title, the image that
    [renderer.image] writes for a URL without [<], [>] and double quote
    is one tag: [<] is its first code unit and occurs nowhere else, [>]
    is its last and occurs nowhere else, and the double quotes are those
    that delimit its three or four attribute values. *)
Theorem X28_rendererImage_is_one_tag
        (P : Platform) (href : str) (title : option str) (text : str) :
  Forall (fun c => c <> 60 /\ c <> 62 /\ c <> 34) href ->
  let out := rendererImage P href title text in
  hd_error out = Some 60
  /\ List.last out 0 = 62
  /\ Str.occurrences 60 out = 1%nat
  /\ Str.occurrences 62 out = 1%nat
  /\ Str.occurrences 34 out
     = match title with Some (_ :: _) => 8%nat | _ => 6%nat end.
Proof.
  intros Hhref out.
  assert (Hurl : forall c, c = 60 \/ c = 62 \/ c = 34 ->
                 Str.occurrences c (sanitizeUrl P href) = 0%nat).
  { intros c Hc. apply occurrences_none.
    destruct (sanitizeUrl_cases P href) as [->| ->].
    - eapply Forall_impl; [|exact Hhref]. cbn. intros x [H1 [H2 H3]].
      destruct Hc as [->|[->| ->]]; assumption.
    - destruct Hc as [->|[->| ->]]; repeat constructor; discriminate. }
  assert (Hesc : forall t c, c = 60 \/ c = 62 \/ c = 34 ->
                 Str.occurrences c (escapeHtml t) = 0%nat).
  { intros t c Hc. apply occurrences_none.
    eapply Forall_impl; [|apply escapeHtml_clean]. cbn. intros x [H1 [H2 [H3 _]]].
    destruct Hc as [->|[->| ->]]; assumption. }
  unfold out, rendererImage.
  split; [reflexivity|]. split.
  - rewrite !app_assoc. apply last_last.
  - unfold titleAttr.
    destruct title as [[|c t]|]; rewrite ?occurrences_app;
      rewrite ?Hurl, ?Hesc by auto; repeat split; reflexivity.
Qed.

Lemma X28_rendererImage_is_one_tag_witness :
  let out := rendererImage referencePlatform (lit "https://example.com/a.png")
                           (Some (lit "a <b> & c")) (JS.quoted "x" ++ lit " > y") in
  hd_error out = Some 60
  /\ List.last out 0 = 62
  /\ Str.occurrences 60 out = 1%nat
  /\ Str.occurrences 62 out = 1%nat
  /\ Str.occurrences 34 out = 8%nat.
Proof.
  apply (X28_rendererImage_is_one_tag referencePlatform (lit "https://example.com/a.png")
           (Some (lit "a <b> & c")) (JS.quoted "x" ++ lit " > y")).
  repeat constructor; discriminate.
Defined.

End Escaping.

(** ** The panel, from the conversions to the downloads *)

Section Panel.
Import Security MarkdownParser Converters ConversionPanel FileHandler PanelActions.

Lemma getEntry_setEntry f g entry state :
  getEntry f (setEntry g entry state)
  = match f, g with
    | Html, Html | Json, Json | Txt, Txt => entry
    | _, _ => getEntry f state
    end.
Proof. destruct f, g; reflexivity. Qed.

(** For a flagged text every request leaves the results as they are. *)
Lemma serve_flagged P converter st md name state r f :
  detectMaliciousContent md = true ->
  result (getEntry f (serve P converter st md name state r))
  = result (getEntry f state).
Proof.
  intro Hd.
  assert (Hin : forall env g s,
             result (getEntry f (handleConvertIn P converter st md name env g s))
             = result (getEntry f s)).
  { intros env g s. unfold handleConvertIn, handleConvert. rewrite Hd.
    rewrite getEntry_setEntry. destruct f, g; reflexivity. }
  destruct r as [env g|env]; cbn [serve]; [apply Hin|].
  unfold handleConvertAll. cbn [fold_left]. now rewrite !Hin.
Qed.

(** X26: of a text that [detectMaliciousContent] flags, a panel never
    holds a result, whatever conversions are asked of it and in whatever
    order: there is nothing that [handleDownload] or [downloadAll] would
    give to the browser. *)
Theorem X26_nothing_to_download_for_flagged_text
        (P : Platform) (converter : FileConverter) (st : Marked.State)
        (md name : str) (requests : list request)
        (save : Download -> Exn.result unit) :
  detectMaliciousContent md = true ->
  let state := fold_left (serve P converter st md name) requests initialPanel in
  (forall f, result (getEntry f state) = None)
  /\ (forall f, handleDownload save (getEntry f state) = (getEntry f state, false))
  /\ validResults state = []
  /\ downloadAll save state = None.
Proof.
  intros Hd state.
  assert (Hres : forall f, result (getEntry f state) = None).
  { intro f. unfold state.
    assert (Hgen : forall s, result (getEntry f s) = None ->
                   result (getEntry f (fold_left (serve P converter st md name)
                                                 requests s)) = None).
    { induction requests as [|r rs IH]; intros s Hs; [exact Hs|].
      cbn [fold_left]. apply IH. now rewrite serve_flagged. }
    apply Hgen. destruct f; reflexivity. }
  assert (Hvalid : validResults state = []).
  { unfold validResults. cbn [flat_map].
    rewrite (Hres Html : result (html state) = None),
            (Hres Json : result (json state) = None),
            (Hres Txt : result (txt state) = None).
    reflexivity. }
  split; [exact Hres|]. split; [|split; [exact Hvalid|]].
  - intro f. unfold handleDownload. now rewrite Hres.
  - unfold downloadAll. now rewrite Hvalid.
Qed.

Lemma X26_nothing_to_download_for_flagged_text_witness :
  let state := fold_left (serve referencePlatform (Spec.appConverter referencePlatform)
                                (Spec.appState referencePlatform)
                                Spec.onclickText (lit "notes.md"))
                         [ConvertAll (fun _ => browserEnv); Convert browserEnv Txt]
                         initialPanel in
  (forall f, result (getEntry f state) = None)
  /\ (forall f, handleDownload (fun _ => Ok tt) (getEntry f state)
                = (getEntry f state, false))
  /\ validResults state = []
  /\ downloadAll (fun _ => Ok tt) state = None.
Proof.
  apply (X26_nothing_to_download_for_flagged_text referencePlatform
           (Spec.appConverter referencePlatform) (Spec.appState referencePlatform)
           Spec.onclickText (lit "notes.md")
           [ConvertAll (fun _ => browserEnv); Convert browserEnv Txt]
           (fun _ => Ok tt)).
  vm_compute. reflexivity.
Defined.

(** X27: when the text is not flagged and parses, [handleConvertAll]
    leaves three successful results, whatever the panel held before, and
    [downloadAll] then gives the browser three files, in the order HTML,
    JSON, plain text, each named by the base name of its conversion and
    its format; it succeeds when the browser saves them. *)
Theorem X27_convert_all_then_download_all
        (P : Platform) (converter : FileConverter) (st : Marked.State)
        (env : ConversionFormat -> Env) (md name : str)
        (state : ConversionState) (save : Download -> Exn.result unit) :
  detectMaliciousContent md = false ->
  (forall f, exists parsed, parse P (parser converter) st (env f) md = Ok parsed) ->
  let state' := handleConvertAll P converter st md name env state in
  let r := fun f =>
             convert P converter st (env f) md (formatName f)
                     (mkConvOptions (Some name) (Some true) (Some true)) in
  (forall f, getEntry f state' = mkState (Some (r f)) false None)
  /\ validResults state' = [r Html; r Json; r Txt]
  /\ List.map filename (validResults state')
     = List.map (fun f => getBaseFilename (env f) (Some name) ++ lit "." ++ formatName f)
                [Html; Json; Txt]
  /\ List.map mimeType (validResults state')
     = [lit "text/html"; lit "application/json"; lit "text/plain"]
  /\ ((forall d, save d = Ok tt) -> downloadAll save state' = Some (Ok tt)).
Proof.
  intros Hd Hp state' r.
  assert (Hs : forall f, success (r f) = true).
  { intro f. destruct (Hp f) as [parsed Hparsed]. unfold r.
    apply (convert_succeeds P converter st (env f) md (formatName f) _ parsed Hparsed).
    destruct f; cbn [formatName In]; auto. }
  assert (Hentry : forall f prev,
             handleConvert P converter st (env f) md name (formatName f) prev
             = mkState (Some (r f)) false None).
  { intros f prev. unfold handleConvert. rewrite Hd. fold (r f). now rewrite (Hs f). }
  assert (Hstate : state' = mkPanel (mkState (Some (r Html)) false None)
                                    (mkState (Some (r Json)) false None)
                                    (mkState (Some (r Txt)) false None)).
  { unfold state', handleConvertAll, handleConvertIn. cbn [fold_left].
    rewrite !Hentry. reflexivity. }
  assert (Hvalid : validResults state' = [r Html; r Json; r Txt]).
  { rewrite Hstate. unfold validResults. cbn [flat_map html json txt result].
    now rewrite !Hs. }
  assert (Hinv : forall f,
             filename (r f)
             = getBaseFilename (env f) (Some name) ++ lit "." ++ formatName f
             /\ mimeType (r f)
                = match f with
                  | Html => lit "text/html"
                  | Json => lit "application/json"
                  | Txt => lit "text/plain"
                  end).
  { intro f.
    destruct (convert_success_inv P converter st (env f) md (formatName f)
                (mkConvOptions (Some name) (Some true) (Some true)) (Hs f))
      as [parsed [_ Hf]]. fold (r f) in Hf. cbn [originalFilename] in Hf.
    destruct f; cbn [formatName] in *;
      destruct Hf as [[E ->]|[[E ->]|[E ->]]]; try discriminate E;
        split; reflexivity. }
  split; [|split; [exact Hvalid|split; [|split]]].
  - intro f. rewrite Hstate. destruct f; reflexivity.
  - rewrite Hvalid. cbn [List.map].
    now rewrite (proj1 (Hinv Html)), (proj1 (Hinv Json)), (proj1 (Hinv Txt)).
  - rewrite Hvalid. cbn [List.map].
    now rewrite (proj2 (Hinv Html)), (proj2 (Hinv Json)), (proj2 (Hinv Txt)).
  - intro Hsave. unfold downloadAll. rewrite Hvalid.
    unfold downloadMultipleFiles. cbn [filter]. rewrite !Hs.
    cbn [downloadEach]. rewrite !downloadFile_success by apply Hs.
    rewrite !Hsave. reflexivity.
Qed.

Lemma X27_convert_all_then_download_all_witness :
  let P := referencePlatform in
  let converter := Spec.appConverter referencePlatform in
  let st := Spec.appState referencePlatform in
  let env := fun _ : ConversionFormat => browserEnv in
  let state' := handleConvertAll P converter st Spec.scenario (lit "notes.md") env
                                 initialPanel in
  let r := fun f =>
             convert P converter st (env f) Spec.scenario (formatName f)
                     (mkConvOptions (Some (lit "notes.md")) (Some true) (Some true)) in
  (forall f, getEntry f state' = mkState (Some (r f)) false None)
  /\ validResults state' = [r Html; r Json; r Txt]
  /\ List.map filename (validResults state')
     = List.map (fun f => getBaseFilename (env f) (Some (lit "notes.md"))
                          ++ lit "." ++ formatName f)
                [Html; Json; Txt]
  /\ List.map mimeType (validResults state')
     = [lit "text/html"; lit "application/json"; lit "text/plain"]
  /\ ((forall d, (fun _ : Download => @Ok unit tt) d = Ok tt) ->
      downloadAll (fun _ => Ok tt) state' = Some (Ok tt)).
Proof.
  apply (X27_convert_all_then_download_all referencePlatform
           (Spec.appConverter referencePlatform) (Spec.appState referencePlatform)
           (fun _ => browserEnv) Spec.scenario (lit "notes.md") initialPanel
           (fun _ => Ok tt)).
  - vm_compute. reflexivity.
  - intro f.
    destruct (parse referencePlatform (parser (Spec.appConverter referencePlatform))
                    (Spec.appState referencePlatform) browserEnv Spec.scenario)
      as [parsed|e] eqn:E.
    + exists parsed. reflexivity.
    + vm_compute in E. discriminate.
Defined.

End Panel.
